(** * Authentication / authorization core and validation engine

    A shallow embedding of
      - server/src/utils/validation.js   (module [Validation]),
      - server/src/utils/auth.js         (module [AuthUtils]),
      - server/src/middleware/auth.js    (module [Middleware]),
    together with what they rely on from outside the repository:
      - the part of JavaScript they use (module [JS]) and the date-only
        form of ECMAScript date strings (module [IsoDate]),
      - the fields of the Mongoose user documents they read (module [User]),
      - the jsonwebtoken package, as an interface with its documented
        contract (module [Jwt]) and a reference implementation that meets
        the contract (module [JwtModel]).

    The second part of the file covers more of the repository:
      - the remaining validators and the pattern tests of validation.js
        (modules [ValidationMore], [Regex], [Patterns]),
      - server/src/middleware/errorHandler.js (module [ErrorHandler]),
      - the slug chain of models/Category.js and routes/posts.js
        (module [Slug]),
      - the in-memory posts router (module [MemoryPosts]) and the form
        component's validation (module [Form]),
      - the account routes of routes/users.js (module [UserRoutes]).

    Conventions.
      - A JavaScript string is a [string]; every [ascii] stands for one
        UTF-16 code unit below 256, so [String.length] is [.length].
      - A Number is a double ([JS.Num]): what [parseInt] reads and what
        is computed from it is rounded as the engine rounds it. Status
        codes, sizes and clock values, which are compared but not computed
        with, are [Z].
      - [async] functions are run to completion; a rejected promise and a
        thrown exception are both [Throw].
      - The clock is an explicit argument, in seconds.
      - Calls to the logger do not influence any returned value and are
        left out. *)

From Stdlib Require Import ZArith Lia Ascii String.
From Stdlib Require Import DecimalString DecimalPos DecimalZ.
From Stdlib Require DecimalFacts.
From stdpp Require Import base option list strings gmap.

Local Open Scope string_scope.
Local Open Scope Z_scope.
Local Open Scope list_scope.

(* ================================================================== *)
(** * The JavaScript fragment used by the sources                      *)
(* ================================================================== *)

Module JS.

(** Primitive values that reach the functions below. [JsNumber z] is the
    Number value of the integer [z], the double nearest to it. *)
Inductive JsVal : Type :=
| JsUndefined
| JsNull
| JsBoolean (b : bool)
| JsNumber (z : Z)
| JsString (s : string).

Inductive JsType := TUndefined | TObject | TBoolean | TNumber | TString.

(** [typeof v] *)
Definition typeof (v : JsVal) : JsType :=
  match v with
  | JsUndefined => TUndefined
  | JsNull => TObject
  | JsBoolean _ => TBoolean
  | JsNumber _ => TNumber
  | JsString _ => TString
  end.

(** ToBoolean *)
Definition truthy (v : JsVal) : bool :=
  match v with
  | JsUndefined | JsNull => false
  | JsBoolean b => b
  | JsNumber z => negb (z =? 0)
  | JsString s => negb (String.eqb s EmptyString)
  end.

(** A parameter documented as [{string}]: [None] is [null]/[undefined]. *)
Definition truthy_str (o : option string) : bool :=
  match o with
  | None => false
  | Some s => negb (String.eqb s EmptyString)
  end.

Definition code (c : ascii) : Z := Z.of_N (N_of_ascii c).

Definition in_range (lo hi : Z) (c : ascii) : bool :=
  (lo <=? code c) && (code c <=? hi).

Definition is_lower : ascii -> bool := in_range 97 122.   (* [a-z] *)
Definition is_upper : ascii -> bool := in_range 65 90.    (* [A-Z] *)
Definition is_digit : ascii -> bool := in_range 48 57.    (* \d, [0-9] *)

(** WhiteSpace and LineTerminator code units below 256:
    TAB, LF, VT, FF, CR, SP, NBSP. *)
Definition is_ws (c : ascii) : bool :=
  in_range 9 13 c || (code c =? 32) || (code c =? 160).

Definition char_in (cs : string) (c : ascii) : bool :=
  existsb (fun d => Ascii.eqb c d) (list_ascii_of_string cs).

Fixpoint str_exists (p : ascii -> bool) (s : string) : bool :=
  match s with
  | EmptyString => false
  | String c r => p c || str_exists p r
  end.

Fixpoint str_forall (p : ascii -> bool) (s : string) : bool :=
  match s with
  | EmptyString => true
  | String c r => p c && str_forall p r
  end.

(** [String.prototype.trimStart] / [trimEnd] / [trim] *)
Fixpoint trimStart (s : string) : string :=
  match s with
  | EmptyString => EmptyString
  | String c r => if is_ws c then trimStart r else s
  end.

Fixpoint trimEnd (s : string) : string :=
  match s with
  | EmptyString => EmptyString
  | String c r =>
      match trimEnd r with
      | EmptyString => if is_ws c then EmptyString else String c EmptyString
      | r' => String c r'
      end
  end.

Definition trim (s : string) : string := trimEnd (trimStart s).

(** [s.replace(/[cs]/g, rep)]: every code unit in the class [cs] is
    replaced by [rep], the others are kept. *)
Fixpoint replace_class (cs : string) (rep : string) (s : string) : string :=
  match s with
  | EmptyString => EmptyString
  | String c r =>
      if char_in cs c then rep +:+ replace_class cs rep r
      else String c (replace_class cs rep r)
  end.

(** [s.startsWith(p)] *)
Definition startsWith (p s : string) : bool := String.prefix p s.

(** [s.substring(n)] for a literal [n >= 0] *)
Fixpoint substring_from (n : nat) (s : string) : string :=
  match n, s with
  | O, _ => s
  | S n', String _ r => substring_from n' r
  | S _, EmptyString => EmptyString
  end.

(** [xs.join(sep)] *)
Fixpoint join (sep : string) (xs : list string) : string :=
  match xs with
  | [] => EmptyString
  | [x] => x
  | x :: rest => x +:+ sep +:+ join sep rest
  end.

(** ** Numbers

    A Number is an IEEE 754 double. The sources read and compute integers
    only, so a finite number is given by its integer value; [Fin 0] stands
    for both zeros, which no operation below tells apart. *)
Inductive Num : Type :=
| NaN
| Fin (z : Z)
| PosInf
| NegInf.

(** The double nearest to a natural number, ties to the even significand.
    From [2 ^ 53] on a double keeps the 53 leading bits. The value
    [2 ^ 1024] stands for an overflow. *)
Definition round_nat (n : Z) : Z :=
  if n <? 2 ^ 53 then n
  else
    let e := Z.log2 n - 52 in
    let q := n / 2 ^ e in
    let r := n mod 2 ^ e in
    let half := 2 ^ (e - 1) in
    let q' := if r <? half then q
              else if half <? r then q + 1
              else if Z.even q then q else q + 1 in
    q' * 2 ^ e.

(** The Number value of a mathematical integer *)
Definition of_Z (z : Z) : Num :=
  let m := round_nat (Z.abs z) in
  if 2 ^ 1024 <=? m then (if z <? 0 then NegInf else PosInf)
  else Fin (Z.sgn z * m).

(** [a - b] *)
Definition num_sub (a b : Num) : Num :=
  match a, b with
  | NaN, _ | _, NaN => NaN
  | Fin x, Fin y => of_Z (x - y)
  | Fin _, PosInf => NegInf
  | Fin _, NegInf => PosInf
  | PosInf, PosInf => NaN
  | PosInf, _ => PosInf
  | NegInf, NegInf => NaN
  | NegInf, _ => NegInf
  end.

(** The sign of a number that is not [NaN] *)
Definition num_sign (a : Num) : Z :=
  match a with
  | NaN => 0
  | Fin x => Z.sgn x
  | PosInf => 1
  | NegInf => -1
  end.

(** [a * b] *)
Definition num_mul (a b : Num) : Num :=
  match a, b with
  | NaN, _ | _, NaN => NaN
  | Fin x, Fin y => of_Z (x * y)
  | _, _ =>
      match num_sign a * num_sign b with
      | 0 => NaN
      | Zpos _ => PosInf
      | Zneg _ => NegInf
      end
  end.

(** [a < b], false when either is [NaN] *)
Definition num_lt (a b : Num) : bool :=
  match a, b with
  | NaN, _ | _, NaN => false
  | Fin x, Fin y => x <? y
  | NegInf, NegInf => false
  | NegInf, _ => true
  | _, NegInf => false
  | PosInf, _ => false
  | _, PosInf => true
  end.

(** [Math.max(a, b)] and [Math.min(a, b)] *)
Definition Math_max (a b : Num) : Num :=
  match a, b with
  | NaN, _ | _, NaN => NaN
  | _, _ => if num_lt a b then b else a
  end.

Definition Math_min (a b : Num) : Num :=
  match a, b with
  | NaN, _ | _, NaN => NaN
  | _, _ => if num_lt b a then b else a
  end.

(** [n || d] on numbers: [NaN] and zero are falsy. *)
Definition or_num (n d : Num) : Num :=
  match n with
  | NaN => d
  | Fin z => if z =? 0 then d else n
  | _ => n
  end.

(** The decimal numeral of an integer *)
Definition decimal (z : Z) : string := NilEmpty.string_of_int (Z.to_int z).

(** ** Number::toString

    For a finite [x > 0] the digits are those of the integers [n], [k], [s]
    with [10^(k-1) <= s < 10^k] and [s * 10^(n-k)] rounding to [x], where
    [k] is as small as possible and, among several [s], the one nearest to
    [x] is taken, the even one on a tie. For an integer-valued [x] the
    number [m = s * 10^(n-k)] is an integer; [k] is smallest when [m] ends in
    the most zeros. *)
Definition rounds_to (v m : Z) : bool :=
  match of_Z m with
  | Fin w => w =? v
  | _ => false
  end.

(** The multiple of [10^p] nearest to [v] among those that round to [v] *)
Definition nearest_multiple (v p : Z) : option Z :=
  let lo := v / 10 ^ p * 10 ^ p in
  let hi := lo + 10 ^ p in
  match rounds_to v lo, rounds_to v hi with
  | true, true =>
      Some (if v - lo <? hi - v then lo
            else if hi - v <? v - lo then hi
            else if Z.even (v / 10 ^ p) then lo else hi)
  | true, false => Some lo
  | false, true => Some hi
  | false, false => None
  end.

(** The first power of ten, from [10 ^ p] down, that has such a multiple;
    at [10 ^ 0] the double [v] is one itself. *)
Fixpoint shortest_below (p : nat) (v : Z) : Z :=
  match nearest_multiple v (Z.of_nat p) with
  | Some m => m
  | None =>
      match p with
      | O => v
      | S p' => shortest_below p' v
      end
  end.

(** [s * 10^(n-k)] for a double [v > 0]; a power [10 ^ p] with
    [p > log2 v + 1] is beyond twice [v]. *)
Definition shortest (v : Z) : Z := shortest_below (Z.to_nat (Z.log2 v + 1)) v.

(** the digits of [s]: a numeral without its final zeros *)
Fixpoint strip_zeros (s : string) : string :=
  match s with
  | EmptyString => EmptyString
  | String c r =>
      match strip_zeros r with
      | EmptyString => if Ascii.eqb c "0" then EmptyString else String c EmptyString
      | r' => String c r'
      end
  end.

(** the form [d.ddde+xx], taken when [n > 21] *)
Definition exponent_form (m : Z) : string :=
  let n := Z.of_nat (String.length (decimal m)) in
  match strip_zeros (decimal m) with
  | EmptyString => EmptyString
  | String d EmptyString => String d ("e+" +:+ decimal (n - 1))
  | String d ds => String d ("." +:+ ds +:+ "e+" +:+ decimal (n - 1))
  end.

Definition Number_toString (x : Num) : string :=
  match x with
  | NaN => "NaN"
  | PosInf => "Infinity"
  | NegInf => "-Infinity"
  | Fin z =>
      if z =? 0 then "0"
      else
        let m := shortest (Z.abs z) in
        let digits := if m <? 10 ^ 21 then decimal m else exponent_form m in
        if z <? 0 then "-" +:+ digits else digits
  end.

(** ** [parseInt] without a radix argument

    Leading white space is skipped, an optional sign is read, a [0x] or
    [0X] prefix selects radix 16, and the longest prefix of digits is
    converted: [parse_digits] gives the mathematical value of the digits,
    [None] when there is none, and the result is the double nearest to it.
    (ECMAScript lets an engine drop decimal digits after the twentieth; V8
    keeps them.) *)
Definition digit_val (radix : Z) (c : ascii) : option Z :=
  let v := if is_digit c then Some (code c - 48)
           else if is_lower c then Some (code c - 87)
           else if is_upper c then Some (code c - 55)
           else None in
  match v with
  | Some d => if d <? radix then Some d else None
  | None => None
  end.

Fixpoint parse_digits (radix : Z) (s : string) (acc : option Z) : option Z :=
  match s with
  | EmptyString => acc
  | String c r =>
      match digit_val radix c with
      | Some d => parse_digits radix r (Some (default 0 acc * radix + d))
      | None => acc
      end
  end.

Definition parseInt_string (s : string) : Num :=
  let s1 := trimStart s in
  let '(sign, s2) :=
    match s1 with
    | String "-" r => (-1, r)
    | String "+" r => (1, r)
    | _ => (1, s1)
    end in
  let '(radix, s3) :=
    match s2 with
    | String "0" (String "x" r) => (16, r)
    | String "0" (String "X" r) => (16, r)
    | _ => (10, s2)
    end in
  match parse_digits radix s3 None with
  | Some mathInt => of_Z (sign * mathInt)
  | None => NaN
  end.

(** ToString *)
Definition ToString (v : JsVal) : string :=
  match v with
  | JsUndefined => "undefined"
  | JsNull => "null"
  | JsBoolean true => "true"
  | JsBoolean false => "false"
  | JsNumber z => Number_toString (of_Z z)
  | JsString s => s
  end.

(** [parseInt(v)]: the argument goes through ToString first. *)
Definition parseInt (v : JsVal) : Num := parseInt_string (ToString v).

(** [n || d] for an integer field that may be missing or [NaN]: those and
    [0] are falsy. *)
Definition num_or (n : option Z) (d : Z) : Z :=
  match n with
  | Some k => if k =? 0 then d else k
  | None => d
  end.

(** [isNaN(x)] on a number that may be [NaN] *)
Definition isNaN (n : option Z) : bool :=
  match n with
  | Some _ => false
  | None => true
  end.

(** ** Exceptions *)
Record JsError := mkError { err_name : string; err_message : string }.

Inductive Result (A : Type) : Type :=
| Ok (a : A)
| Throw (e : JsError).
Global Arguments Ok {A} a.
Global Arguments Throw {A} e.

Global Instance Result_ret : MRet Result := fun A a => Ok a.

Global Instance Result_bind : MBind Result := fun A B k m =>
  match m with
  | Ok a => k a
  | Throw e => Throw e
  end.

(** [try { body } catch (error) { handler(error) }] *)
Definition try_catch {A} (body : Result A) (handler : JsError -> Result A) : Result A :=
  match body with
  | Ok a => Ok a
  | Throw e => handler e
  end.

(** [new Error(msg)] *)
Definition Error (msg : string) : JsError := mkError "Error" msg.

End JS.

Import JS.

(* ================================================================== *)
(** * server/src/utils/validation.js                                   *)
(* ================================================================== *)

Module Validation.

(** The object literal [{ isValid, errors }] every validator returns. *)
Record ValidationResult := mkResult { isValid : bool; errors : list string }.

(** [errors.push(msg)] *)
Definition push (errs : list string) (msg : string) : list string := errs ++ [msg].

(** [errors.length === 0] *)
Definition no_errors (errs : list string) : bool := Nat.eqb (length errs) 0.

(** ** validatePassword *)

Definition msg_pw_required := "Password is required".
Definition msg_pw_short := "Password must be at least 6 characters long".
Definition msg_pw_lower := "Password must contain at least one lowercase letter".
Definition msg_pw_upper := "Password must contain at least one uppercase letter".
Definition msg_pw_digit := "Password must contain at least one number".
Definition msg_pw_special :=
  "Password must contain at least one special character (!@#$%^&*)".

(** [/(?=.*[a-z])/.test(p)] and its siblings: the pattern is not anchored,
    so the look-ahead may start at the wanted code unit itself and the test
    holds exactly when some code unit of [p] lies in the class. *)
Definition has_lower (p : string) : bool := str_exists is_lower p.
Definition has_upper (p : string) : bool := str_exists is_upper p.
Definition has_digit (p : string) : bool := str_exists is_digit p.
Definition has_special (p : string) : bool := str_exists (char_in "!@#$%^&*") p.

Definition validatePassword (password : option string) : ValidationResult :=
  let errs := [] in
  match password with
  | Some p =>
      if truthy_str password then
        let errs := if (Z.of_nat (String.length p) <? 6) then push errs msg_pw_short else errs in
        let errs := if negb (has_lower p) then push errs msg_pw_lower else errs in
        let errs := if negb (has_upper p) then push errs msg_pw_upper else errs in
        let errs := if negb (has_digit p) then push errs msg_pw_digit else errs in
        let errs := if negb (has_special p) then push errs msg_pw_special else errs in
        {| isValid := no_errors errs; errors := errs |}
      else
        {| isValid := false; errors := push errs msg_pw_required |}
  | None => {| isValid := false; errors := push errs msg_pw_required |}
  end.

(** ** validateUsername *)

Definition msg_un_required := "Username is required".
Definition msg_un_short := "Username must be at least 3 characters long".
Definition msg_un_long := "Username must be no more than 30 characters long".
Definition msg_un_chars := "Username can only contain letters, numbers, and underscores".

(** [/^[a-zA-Z0-9_]+$/.test(u)] *)
Definition is_word (c : ascii) : bool :=
  is_lower c || is_upper c || is_digit c || char_in "_" c.

Definition only_word_chars (u : string) : bool :=
  negb (String.eqb u EmptyString) && str_forall is_word u.

Definition validateUsername (username : option string) : ValidationResult :=
  let errs := [] in
  match username with
  | Some u =>
      if truthy_str username then
        let errs := if (Z.of_nat (String.length u) <? 3) then push errs msg_un_short else errs in
        let errs := if (Z.of_nat (String.length u) >? 30) then push errs msg_un_long else errs in
        let errs := if negb (only_word_chars u) then push errs msg_un_chars else errs in
        {| isValid := no_errors errs; errors := errs |}
      else
        {| isValid := false; errors := push errs msg_un_required |}
  | None => {| isValid := false; errors := push errs msg_un_required |}
  end.

(** ** sanitizeString *)

Definition sanitize_chain (input : string) : string :=
  replace_class "/" "&#x2F;"
    (replace_class "'" "&#x27;"
      (replace_class (String (ascii_of_nat 34) EmptyString) "&quot;"
        (replace_class "&" "&amp;"
          (replace_class "<>" EmptyString
            (trim input))))).

Definition sanitizeString (input : JsVal) : string :=
  match input with
  | JsString s => sanitize_chain s
  | _ => EmptyString   (* typeof input !== 'string' *)
  end.

(** ** validatePagination *)

Record Pagination := mkPagination { page : Num; limit : Num; skip : Num }.

(** [params.k] on a plain object: a missing property reads [undefined]. *)
Definition prop (o : gmap string JsVal) (k : string) : JsVal :=
  default JsUndefined (o !! k).

(** The default of a destructuring pattern applies to [undefined] only. *)
Definition or_default (v d : JsVal) : JsVal :=
  match v with
  | JsUndefined => d
  | _ => v
  end.

Definition validatePagination (params : gmap string JsVal) : Pagination :=
  let page_ := or_default (prop params "page") (JsNumber 1) in
  let limit_ := or_default (prop params "limit") (JsNumber 10) in
  let validatedPage := Math_max (Fin 1) (or_num (parseInt page_) (Fin 1)) in
  let validatedLimit :=
    Math_min (Fin 100) (Math_max (Fin 1) (or_num (parseInt limit_) (Fin 10))) in
  {| page := validatedPage;
     limit := validatedLimit;
     skip := num_mul (num_sub validatedPage (Fin 1)) validatedLimit |}.

(** ** validateDateRange *)

Definition msg_dr_start := "Invalid start date format".
Definition msg_dr_end := "Invalid end date format".
Definition msg_dr_order := "Start date must be before end date".

Section DateRange.

(** [new Date(s).getTime()]: the time value in milliseconds, [None] for an
    invalid date ([NaN]). Outside the ISO format the accepted strings depend
    on the engine, so the parser is a parameter. *)
Variable Date_parse : string -> option Z.

(** [start > end] on two dates: false as soon as one time value is [NaN]. *)
Definition date_gt (a b : option Z) : bool :=
  match a, b with
  | Some x, Some y => x >? y
  | _, _ => false
  end.

Definition validateDateRange (startDate endDate : option string) : ValidationResult :=
  let errs := [] in
  let errs :=
    match startDate, endDate with
    | Some s, Some e =>
        if truthy_str startDate && truthy_str endDate then
          let start := Date_parse s in
          let end_ := Date_parse e in
          let errs := if isNaN start then push errs msg_dr_start else errs in
          let errs := if isNaN end_ then push errs msg_dr_end else errs in
          let errs := if date_gt start end_ then push errs msg_dr_order else errs in
          errs
        else errs
    | _, _ => errs
    end in
  {| isValid := no_errors errs; errors := errs |}.

End DateRange.

(** ** validateFileUpload *)

Record File := mkFile { size : Z; mimetype : string }.

(** The [options] argument; an absent property is [None]. *)
Record UploadOptions := mkOptions {
  opt_maxSize : option Z;
  opt_allowedTypes : option (list string);
  opt_maxFiles : option Z
}.

(** [options = {}] *)
Definition no_options : UploadOptions := mkOptions None None None.

Section FileUpload.

(** [`${a / b}`]: the text of the quotient of two numbers. *)
Variable quotient_text : Z -> Z -> string.

Definition msg_fu_required := "File is required".

Definition msg_fu_size (maxSize : Z) : string :=
  "File size must be less than " +:+ quotient_text maxSize (1024 * 1024) +:+ "MB".

Definition msg_fu_type (allowedTypes : list string) : string :=
  "File type must be one of: " +:+ join ", " allowedTypes.

(** [allowedTypes.includes(t)] *)
Definition includes (xs : list string) (t : string) : bool :=
  existsb (String.eqb t) xs.

Definition validateFileUpload (file : option File) (options : UploadOptions)
  : ValidationResult :=
  let maxSize := default (5 * 1024 * 1024) (opt_maxSize options) in
  let allowedTypes :=
    default ["image/jpeg"; "image/png"; "image/gif"] (opt_allowedTypes options) in
  let errs := [] in
  match file with
  | None => {| isValid := false; errors := push errs msg_fu_required |}
  | Some f =>
      let errs := if size f >? maxSize then push errs (msg_fu_size maxSize) else errs in
      let errs := if negb (includes allowedTypes (mimetype f))
                  then push errs (msg_fu_type allowedTypes) else errs in
      {| isValid := no_errors errs; errors := errs |}
  end.

End FileUpload.

End Validation.


(* ================================================================== *)
(** * ECMAScript date-only strings                                     *)
(* ================================================================== *)

(** [new Date("YYYY-MM-DD")] is specified by the language: the date is
    read as UTC midnight. [parse] returns its time value in milliseconds
    and [None] for every other text, including days that do not exist in
    the month (engines disagree on those). *)
Module IsoDate.

Definition two_digits (a b : ascii) : option Z :=
  if is_digit a && is_digit b then Some ((code a - 48) * 10 + (code b - 48)) else None.

Definition is_leap (y : Z) : bool :=
  (y mod 4 =? 0) && (negb (y mod 100 =? 0) || (y mod 400 =? 0)).

Definition days_in_month (y m : Z) : Z :=
  if m =? 2 then (if is_leap y then 29 else 28)
  else if (m =? 4) || (m =? 6) || (m =? 9) || (m =? 11) then 30
  else 31.

(** Days between 1970-01-01 and the civil date [y]-[m]-[d]. *)
Definition days_from_civil (y m d : Z) : Z :=
  let y' := if m <=? 2 then y - 1 else y in
  let era := y' / 400 in
  let yoe := y' - era * 400 in
  let mp := (m + 9) mod 12 in
  let doy := (153 * mp + 2) / 5 + d - 1 in
  let doe := yoe * 365 + yoe / 4 - yoe / 100 + doy in
  era * 146097 + doe - 719468.

Definition ms_per_day : Z := 86400000.

Definition parse (s : string) : option Z :=
  match list_ascii_of_string s with
  | [y1; y2; y3; y4; h1; m1; m2; h2; d1; d2] =>
      if Ascii.eqb h1 "-" && Ascii.eqb h2 "-" then
        yh ← two_digits y1 y2;
        yl ← two_digits y3 y4;
        m ← two_digits m1 m2;
        d ← two_digits d1 d2;
        let y := yh * 100 + yl in
        if (1 <=? m) && (m <=? 12) && (1 <=? d) && (d <=? days_in_month y m)
        then Some (days_from_civil y m d * ms_per_day)
        else None
      else None
  | _ => None
  end.

End IsoDate.

(* ================================================================== *)
(** * The user documents of the identity store                         *)
(* ================================================================== *)

(** server/src/models/User.js is a Mongoose schema; only the fields the
    authentication code reads are kept. *)
Module User.

(** An id arrives as a plain string or as a boxed [ObjectId], which holds
    its hexadecimal text. *)
Inductive Id : Type :=
| IdString (s : string)
| ObjectId (hex : string).

(** [id.toString()] *)
Definition toString (i : Id) : string :=
  match i with
  | IdString s => s
  | ObjectId hex => hex
  end.

(** ToBoolean of an id that may be [null]/[undefined]: an object is
    truthy, a string is truthy unless empty. *)
Definition truthy_id (o : option Id) : bool :=
  match o with
  | None => false
  | Some (IdString s) => negb (String.eqb s EmptyString)
  | Some (ObjectId _) => true
  end.

Record Doc := mkDoc {
  _id : Id;
  email : string;
  username : string;
  role : string;
  isActive : bool;
  password : option string
}.

(** [query.select('-password')] *)
Definition select_minus_password (u : Doc) : Doc :=
  mkDoc (_id u) (email u) (username u) (role u) (isActive u) None.

End User.

(* ================================================================== *)
(** * The jsonwebtoken package                                         *)
(* ================================================================== *)

Module Jwt.

(** The object literal handed to [jwt.sign] by [generateToken]. *)
Record Payload := mkPayload {
  p_id : User.Id;
  p_email : string;
  p_username : string;
  p_role : string
}.

(** The object [jwt.verify] returns: the payload after its trip through
    JSON, with the registered claims [iat] and [exp] in seconds. *)
Record Claims := mkClaims {
  id : string;
  email : string;
  username : string;
  role : string;
  iat : Z;
  exp : Z
}.

(** JSON turns a boxed id into its text. *)
Definition claims_of (p : Payload) (issued expires : Z) : Claims :=
  mkClaims (User.toString (p_id p)) (p_email p) (p_username p) (p_role p)
    issued expires.

(** The errors [jwt.verify] throws. *)
Definition JsonWebTokenError (msg : string) : JsError := mkError "JsonWebTokenError" msg.
Definition TokenExpiredError : JsError := mkError "TokenExpiredError" "jwt expired".

Definition jwt_malformed : JsError := JsonWebTokenError "jwt malformed".
Definition invalid_token : JsError := JsonWebTokenError "invalid token".
Definition invalid_signature : JsError := JsonWebTokenError "invalid signature".

(** The operations of the package that utils/auth.js calls. The clock
    ([Date.now()] in seconds) is an explicit argument. *)
Record Lib := mkLib {
  (** [jwt.sign(payload, secret, { expiresIn })] at time [now] *)
  sign : Payload -> string -> string -> Z -> Result string;
  (** [jwt.verify(token, secret)] at time [now] *)
  verify : string -> string -> Z -> Result Claims;
  (** the number of seconds an [expiresIn] text such as ["7d"] denotes *)
  timespan : string -> option Z
}.

(** What the package documents about these operations: signing with a
    non-empty secret and a readable time span succeeds, and verifying the
    result under the same secret returns the payload with [iat] and [exp]
    until the clock reaches [exp], and [TokenExpiredError] from then on. *)
Record Contract (J : Lib) : Prop := mkContract {
  sign_ok : forall p secret span d now,
    secret <> EmptyString -> timespan J span = Some d ->
    exists t, sign J p secret span now = Ok t;
  verify_sign : forall p secret span d now t now',
    sign J p secret span now = Ok t -> timespan J span = Some d ->
    verify J t secret now' =
      if now + d <=? now' then Throw TokenExpiredError
      else Ok (claims_of p now (now + d))
}.

End Jwt.

(* ================================================================== *)
(** * server/src/utils/auth.js                                         *)
(* ================================================================== *)

Module AuthUtils.

(** [process.env] as read when the module is loaded. *)
Record Env := mkEnv {
  env_JWT_SECRET : option string;
  env_JWT_EXPIRES_IN : option string
}.

(** [x || d] on a string that may be missing. *)
Definition str_or (x : option string) (d : string) : string :=
  match x with
  | Some s => if truthy_str x then s else d
  | None => d
  end.

Definition JWT_SECRET (env : Env) : string := str_or (env_JWT_SECRET env) "your-secret-key".
Definition JWT_EXPIRES_IN (env : Env) : string := str_or (env_JWT_EXPIRES_IN env) "7d".

Section WithLibraries.

Variable J : Jwt.Lib.
Variable env : Env.

(** [User.findById(id)]: the stored document, [Ok None] when there is
    none, [Throw] when the store fails. *)
Variable findById : string -> Result (option User.Doc).

(** The clock, in seconds. *)
Variable now : Z.

Definition generateToken (user : User.Doc) : Result string :=
  try_catch
    (let payload :=
       Jwt.mkPayload (User._id user) (User.email user) (User.username user)
         (User.role user) in
     token ← Jwt.sign J payload (JWT_SECRET env) (JWT_EXPIRES_IN env) now;
     mret token)
    (fun _ => Throw (Error "Failed to generate token")).

Definition verifyToken (token : string) : Result Jwt.Claims :=
  try_catch
    (decoded ← Jwt.verify J token (JWT_SECRET env) now;
     mret decoded)
    (fun _ => Throw (Error "Invalid token")).

Definition extractTokenFromHeader (authHeader : option string) : option string :=
  match authHeader with
  | Some h =>
      if negb (truthy_str authHeader) || negb (startsWith "Bearer " h) then None
      else Some (substring_from 7 h)
  | None => None
  end.

Definition getCurrentUser (token : string) : Result (option User.Doc) :=
  try_catch
    (decoded ← verifyToken token;
     found ← findById (Jwt.id decoded);
     let user := User.select_minus_password <$> found in
     match user with
     | Some u => if negb (User.isActive u) then mret None else mret (Some u)
     | None => mret None
     end)
    (fun _ => mret None).

(** The [requiredRoles] argument: one role or an array of roles. *)
Inductive Roles : Type :=
| OneRole (r : string)
| RoleArray (rs : list string).

(** [Array.isArray(roles) ? roles : [roles]] *)
Definition role_list (roles : Roles) : list string :=
  match roles with
  | OneRole r => [r]
  | RoleArray rs => rs
  end.

Definition hasRole (user : option User.Doc) (requiredRoles : Roles) : bool :=
  match user with
  | None => false
  | Some u => existsb (String.eqb (User.role u)) (role_list requiredRoles)
  end.

Definition isAdmin (user : option User.Doc) : bool := hasRole user (OneRole "admin").

Definition isOwner (user : option User.Doc) (resourceUserId : option User.Id) : bool :=
  match user, resourceUserId with
  | Some u, Some rid =>
      if negb (User.truthy_id resourceUserId) then false
      else String.eqb (User.toString (User._id u)) (User.toString rid)
  | _, _ => false
  end.

End WithLibraries.

End AuthUtils.

(* ================================================================== *)
(** * server/src/middleware/auth.js                                    *)
(* ================================================================== *)

Module Middleware.

(** The part of the Express request the middleware touches. *)
Record Request := mkRequest {
  headers : gmap string string;
  user : option User.Doc
}.

(** [req.user = u] *)
Definition set_user (req : Request) (u : User.Doc) : Request :=
  mkRequest (headers req) (Some u).

(** What a middleware does with a request: it answers with
    [res.status(s).json({ error })], or it calls [next()] and hands the
    request on. *)
Inductive Outcome : Type :=
| Respond (status : Z) (error : string)
| Next (req : Request).

Section WithLookup.

(** [getCurrentUser], imported from ../utils/auth, is the identity lookup;
    the middleware is written for any behaviour of it. *)
Variable getCurrentUser : string -> Result (option User.Doc).

(** [try { body } catch (error) { handler }] around a middleware body. *)
Definition guarded (body : Result Outcome) (handler : Outcome) : Outcome :=
  match body with
  | Ok o => o
  | Throw _ => handler
  end.

Definition authenticate (req : Request) : Outcome :=
  guarded
    (let authHeader := headers req !! "authorization" in
     let token := AuthUtils.extractTokenFromHeader authHeader in
     match token with
     | Some t =>
         if negb (truthy_str token) then mret (Respond 401 "Access token required")
         else
           found ← getCurrentUser t;
           match found with
           | None => mret (Respond 401 "Invalid or expired token")
           | Some u => mret (Next (set_user req u))
           end
     | None => mret (Respond 401 "Access token required")
     end)
    (Respond 401 "Authentication failed").

Definition optionalAuth (req : Request) : Outcome :=
  guarded
    (let authHeader := headers req !! "authorization" in
     let token := AuthUtils.extractTokenFromHeader authHeader in
     req' ←
       match token with
       | Some t =>
           if truthy_str token then
             found ← getCurrentUser t;
             match found with
             | Some u => mret (set_user req u)
             | None => mret req
             end
           else mret req
       | None => mret req
       end;
     mret (Next req'))
    (Next req).

Definition authorize (roles : AuthUtils.Roles) (req : Request) : Outcome :=
  match user req with
  | None => Respond 401 "Authentication required"
  | Some u =>
      let userRoles := AuthUtils.role_list roles in
      if negb (existsb (String.eqb (User.role u)) userRoles)
      then Respond 403 "Insufficient permissions"
      else Next req
  end.

Definition requireAdmin : Request -> Outcome := authorize (AuthUtils.OneRole "admin").

Definition requireOwner (getResourceUserId : Request -> option User.Id)
    (req : Request) : Outcome :=
  match user req with
  | None => Respond 401 "Authentication required"
  | Some u =>
      let resourceUserId := getResourceUserId req in
      match resourceUserId with
      | Some rid =>
          if negb (User.truthy_id resourceUserId) then Respond 400 "Resource not found"
          else if negb (String.eqb (User.toString (User._id u)) (User.toString rid))
                  && negb (String.eqb (User.role u) "admin")
          then Respond 403 "Access denied"
          else Next req
      | None => Respond 400 "Resource not found"
      end
  end.

End WithLookup.

End Middleware.

(* ================================================================== *)
(** * A reference implementation of the jsonwebtoken interface         *)
(* ================================================================== *)

(** A token is [header.payload.signature]. Each segment is written in
    hexadecimal (where the package uses base64url), the payload is the
    comma-separated list of its six claims (where the package uses JSON),
    and the signature is a keyed digest [mac secret (header.payload)]
    (where the package uses HMAC-SHA256). [verify] follows the order of
    checks of the package: shape, decoding, signature, expiry. *)
Module JwtModel.

Definition hex_digit (n : Z) : ascii :=
  ascii_of_N (Z.to_N (if n <? 10 then 48 + n else 87 + n)).

Fixpoint hex (s : string) : string :=
  match s with
  | EmptyString => EmptyString
  | String c r =>
      String (hex_digit (code c / 16)) (String (hex_digit (code c mod 16)) (hex r))
  end.

Fixpoint unhex (s : string) : option string :=
  match s with
  | EmptyString => Some EmptyString
  | String a (String b r) =>
      hi ← digit_val 16 a;
      lo ← digit_val 16 b;
      rest ← unhex r;
      Some (String (ascii_of_N (Z.to_N (hi * 16 + lo))) rest)
  | String _ EmptyString => None
  end.

Definition dec (z : Z) : string := DecimalString.NilEmpty.string_of_int (Z.to_int z).

Definition undec (s : string) : option Z :=
  Z.of_int <$> DecimalString.NilEmpty.int_of_string s.

(** [s.split(sep)] for a one-character separator *)
Fixpoint split_on (sep : ascii) (s : string) : list string :=
  match s with
  | EmptyString => [EmptyString]
  | String c r =>
      if Ascii.eqb c sep then EmptyString :: split_on sep r
      else match split_on sep r with
           | x :: xs => String c x :: xs
           | [] => [String c EmptyString]
           end
  end.

Definition header : string := hex "HS256".

Definition encode_claims (c : Jwt.Claims) : string :=
  hex (Jwt.id c) +:+ "," +:+ hex (Jwt.email c) +:+ "," +:+ hex (Jwt.username c)
  +:+ "," +:+ hex (Jwt.role c) +:+ "," +:+ hex (dec (Jwt.iat c))
  +:+ "," +:+ hex (dec (Jwt.exp c)).

Definition decode_claims (s : string) : option Jwt.Claims :=
  match split_on "," s with
  | [a; b; c; d; e; f] =>
      id ← unhex a;
      email ← unhex b;
      username ← unhex c;
      role ← unhex d;
      iat ← unhex e ≫= undec;
      exp ← unhex f ≫= undec;
      Some (Jwt.mkClaims id email username role iat exp)
  | _ => None
  end.

(** The time spans of the [ms] package made of a numeral and one of the
    units s, m, h, d. *)
Definition unit_seconds (c : ascii) : option Z :=
  if Ascii.eqb c "s" then Some 1
  else if Ascii.eqb c "m" then Some 60
  else if Ascii.eqb c "h" then Some 3600
  else if Ascii.eqb c "d" then Some 86400
  else None.

Fixpoint timespan_go (s : string) (acc : option Z) : option Z :=
  match s with
  | EmptyString => None
  | String c EmptyString => n ← acc; k ← unit_seconds c; Some (n * k)
  | String c r =>
      d ← digit_val 10 c;
      timespan_go r (Some (default 0 acc * 10 + d))
  end.

Definition timespan (s : string) : option Z := timespan_go s None.

Section WithMac.

Variable mac : string -> string -> string.

Definition signature (secret body : string) : string := hex (mac secret body).

Definition sign (p : Jwt.Payload) (secret span : string) (now : Z) : Result string :=
  if String.eqb secret EmptyString
  then Throw (Error "secretOrPrivateKey must have a value")
  else
    match timespan span with
    | None => Throw (Error "expiresIn should be a number of seconds or string representing a timespan")
    | Some d =>
        let body := header +:+ "." +:+ encode_claims (Jwt.claims_of p now (now + d)) in
        Ok (body +:+ "." +:+ signature secret body)
    end.

Definition verify (token secret : string) (now : Z) : Result Jwt.Claims :=
  match split_on "." token with
  | [h; b; s] =>
      match decode_claims b with
      | None => Throw Jwt.invalid_token
      | Some c =>
          if negb (String.eqb h header) then Throw Jwt.invalid_token
          else if negb (String.eqb s (signature secret (h +:+ "." +:+ b)))
          then Throw Jwt.invalid_signature
          else if Jwt.exp c <=? now then Throw Jwt.TokenExpiredError
          else Ok c
      end
  | _ => Throw Jwt.jwt_malformed
  end.

Definition lib : Jwt.Lib := Jwt.mkLib sign verify timespan.

End WithMac.

(** A 32-bit FNV-1a digest of [secret.body], printed in decimal: the keyed
    digest used where a closed instance is needed. *)
Definition fnv_step (h : Z) (c : ascii) : Z :=
  (Z.lxor h (code c) * 16777619) mod 2 ^ 32.

Fixpoint fnv1a (s : string) (h : Z) : Z :=
  match s with
  | EmptyString => h
  | String c r => fnv1a r (fnv_step h c)
  end.

Definition fnv_mac (secret body : string) : string :=
  dec (fnv1a (secret +:+ "." +:+ body) 2166136261).

Definition fnv_lib : Jwt.Lib := lib fnv_mac.

End JwtModel.

(* ================================================================== *)
(** * General facts about strings                                      *)
(* ================================================================== *)

Module StringFacts.

Lemma str_app_nil (b : string) : EmptyString +:+ b = b.
Proof. reflexivity. Qed.

Lemma str_app_cons (c : ascii) (a b : string) : String c a +:+ b = String c (a +:+ b).
Proof. reflexivity. Qed.

Lemma str_app_assoc (a b c : string) : (a +:+ b) +:+ c = a +:+ (b +:+ c).
Proof.
  induction a as [|x a IH]; [reflexivity|].
  rewrite !str_app_cons. now rewrite IH.
Qed.

Lemma str_forall_app (p : ascii -> bool) (a b : string) :
  str_forall p (a +:+ b) = str_forall p a && str_forall p b.
Proof.
  induction a as [|c a IH]; [reflexivity|].
  rewrite str_app_cons. cbn [str_forall]. rewrite IH. now rewrite andb_assoc.
Qed.

Lemma str_forall_weaken (p q : ascii -> bool) (s : string) :
  (forall c, p c = true -> q c = true) ->
  str_forall p s = true -> str_forall q s = true.
Proof.
  intros Hpq. induction s as [|c r IH]; simpl; [reflexivity|].
  intros H. apply andb_true_iff in H as [Hc Hr].
  rewrite (Hpq c Hc). simpl. now apply IH.
Qed.

End StringFacts.

(* ================================================================== *)
(** * Facts about numbers and numerals                                 *)
(* ================================================================== *)

Module NumberFacts.

(** ** Rounding *)

Lemma round_nat_small (n : Z) : n < 2 ^ 53 -> round_nat n = n.
Proof.
  intros H. unfold round_nat. destruct (Z.ltb_spec n (2 ^ 53)); [reflexivity | lia].
Qed.

(** From [2 ^ 53] on the result is a 53-bit significand times a power of
    two, next to the quotient of the argument. *)
Lemma round_nat_large (n : Z) :
  2 ^ 53 <= n ->
  exists e q : Z,
    e = Z.log2 n - 52 /\ 1 <= e
    /\ 2 ^ 52 <= n / 2 ^ e < 2 ^ 53
    /\ n / 2 ^ e <= q <= n / 2 ^ e + 1
    /\ round_nat n = q * 2 ^ e.
Proof.
  intros Hn. unfold round_nat.
  destruct (Z.ltb_spec n (2 ^ 53)) as [|_]; [lia|].
  assert (Hpos : 0 < n) by (pose proof (Z.pow_pos_nonneg 2 53); lia).
  pose proof (Z.log2_spec n Hpos) as [Hlo Hhi].
  assert (HL : 53 <= Z.log2 n).
  { apply Z.log2_le_pow2; [exact Hpos | exact Hn]. }
  set (e := Z.log2 n - 52) in *.
  assert (He : 1 <= e) by (subst e; lia).
  assert (Hsplit : 2 ^ Z.log2 n = 2 ^ 52 * 2 ^ e).
  { rewrite <- Z.pow_add_r by lia. f_equal. subst e. lia. }
  assert (Hsplit' : 2 ^ Z.succ (Z.log2 n) = 2 ^ 53 * 2 ^ e).
  { rewrite <- Z.pow_add_r by lia. f_equal. subst e. lia. }
  assert (H2e : 0 < 2 ^ e) by (apply Z.pow_pos_nonneg; lia).
  assert (Hq : 2 ^ 52 <= n / 2 ^ e < 2 ^ 53).
  { split.
    - apply Z.div_le_lower_bound; lia.
    - apply Z.div_lt_upper_bound; lia. }
  exists e.
  destruct (n mod 2 ^ e <? 2 ^ (e - 1)).
  { exists (n / 2 ^ e). repeat split; try lia. }
  destruct (2 ^ (e - 1) <? n mod 2 ^ e).
  { exists (n / 2 ^ e + 1). repeat split; try lia. }
  destruct (Z.even (n / 2 ^ e)).
  - exists (n / 2 ^ e). repeat split; try lia.
  - exists (n / 2 ^ e + 1). repeat split; try lia.
Qed.

Lemma round_nat_exact (e q : Z) :
  1 <= e -> 2 ^ 52 <= q <= 2 ^ 53 -> round_nat (q * 2 ^ e) = q * 2 ^ e.
Proof.
  intros He Hq.
  assert (H2e : 0 < 2 ^ e) by (apply Z.pow_pos_nonneg; lia).
  assert (Hhalf : 0 < 2 ^ (e - 1)) by (apply Z.pow_pos_nonneg; lia).
  assert (H252 : 0 < 2 ^ 52) by (apply Z.pow_pos_nonneg; lia).
  assert (H253 : 2 ^ 53 = 2 * 2 ^ 52) by reflexivity.
  assert (Htwo : 2 <= 2 ^ e).
  { change 2 with (2 ^ 1) at 1. apply Z.pow_le_mono_r; lia. }
  assert (Hge : 2 ^ 53 <= q * 2 ^ e).
  { pose proof (Z.mul_le_mono_nonneg (2 ^ 52) q 2 (2 ^ e)). lia. }
  unfold round_nat.
  destruct (Z.ltb_spec (q * 2 ^ e) (2 ^ 53)) as [|_]; [lia|].
  destruct (Z.eq_dec q (2 ^ 53)) as [->|Hne].
  - assert (Hlog : Z.log2 (2 ^ 53 * 2 ^ e) = 53 + e).
    { rewrite <- Z.pow_add_r by lia. apply Z.log2_pow2. lia. }
    rewrite Hlog. replace (53 + e - 52) with (e + 1) by lia.
    replace (e + 1 - 1) with e by lia.
    assert (Hmul : 2 ^ 53 * 2 ^ e = 2 ^ 52 * 2 ^ (e + 1)).
    { rewrite Z.pow_add_r by lia. change (2 ^ 1) with 2. lia. }
    rewrite Hmul.
    assert (H2e1 : 0 < 2 ^ (e + 1)) by (apply Z.pow_pos_nonneg; lia).
    rewrite Z.div_mul by lia. rewrite Z.mod_mul by lia.
    destruct (Z.ltb_spec 0 (2 ^ e)); [reflexivity | lia].
  - assert (Hlog : Z.log2 (q * 2 ^ e) = 52 + e).
    { apply Z.log2_unique; [lia|]. split.
      - rewrite Z.pow_add_r by lia. nia.
      - replace (Z.succ (52 + e)) with (53 + e) by lia.
        rewrite Z.pow_add_r by lia. nia. }
    rewrite Hlog. replace (52 + e - 52) with e by lia.
    rewrite Z.div_mul by lia. rewrite Z.mod_mul by lia.
    destruct (Z.ltb_spec 0 (2 ^ (e - 1))); [reflexivity | lia].
Qed.

Lemma round_nat_idempotent (n : Z) : 0 <= n -> round_nat (round_nat n) = round_nat n.
Proof.
  intros Hn. destruct (Z.lt_ge_cases n (2 ^ 53)) as [Hs|Hl].
  - now rewrite !round_nat_small by (rewrite ?round_nat_small; assumption).
  - destruct (round_nat_large n Hl) as (e & q & _ & He & Hq & Hq' & ->).
    apply round_nat_exact; lia.
Qed.

Lemma round_nat_nonneg (n : Z) : 0 <= n -> 0 <= round_nat n.
Proof.
  intros Hn. destruct (Z.lt_ge_cases n (2 ^ 53)) as [Hs|Hl].
  - now rewrite round_nat_small.
  - destruct (round_nat_large n Hl) as (e & q & _ & He & Hq & Hq' & ->).
    assert (0 < 2 ^ e) by (apply Z.pow_pos_nonneg; lia).
    assert (0 < 2 ^ 52) by (apply Z.pow_pos_nonneg; lia). nia.
Qed.

(** Rounding does not go below [2 ^ 53] from above it. *)
Lemma round_nat_keeps_large (n : Z) : 2 ^ 53 <= n -> 2 ^ 53 <= round_nat n.
Proof.
  intros Hl. destruct (round_nat_large n Hl) as (e & q & _ & He & Hq & Hq' & ->).
  assert (H2e : 2 <= 2 ^ e).
  { change 2 with (2 ^ 1) at 1. apply Z.pow_le_mono_r; lia. }
  assert (H253 : 2 ^ 53 = 2 * 2 ^ 52) by reflexivity.
  assert (0 < 2 ^ 52) by (apply Z.pow_pos_nonneg; lia). nia.
Qed.

Lemma round_nat_positive (n : Z) : 0 < n -> 0 < round_nat n.
Proof.
  intros Hn. destruct (Z.lt_ge_cases n (2 ^ 53)) as [Hs|Hl].
  - now rewrite round_nat_small.
  - pose proof (round_nat_keeps_large n Hl).
    assert (0 < 2 ^ 53) by (apply Z.pow_pos_nonneg; lia). lia.
Qed.

Lemma of_Z_small (z : Z) : Z.abs z < 2 ^ 53 -> of_Z z = Fin z.
Proof.
  intros H. unfold of_Z. rewrite round_nat_small by exact H.
  assert (2 ^ 53 < 2 ^ 1024) by (apply Z.pow_lt_mono_r; lia).
  destruct (Z.leb_spec (2 ^ 1024) (Z.abs z)); [lia|].
  f_equal. lia.
Qed.

(** What [of_Z] returns is a double. *)
Lemma of_Z_idempotent (z w : Z) : of_Z z = Fin w -> of_Z w = Fin w.
Proof.
  unfold of_Z.
  destruct (Z.leb_spec (2 ^ 1024) (round_nat (Z.abs z))) as [|Hlt];
    [destruct (z <? 0); discriminate|].
  intros [= <-].
  pose proof (round_nat_nonneg (Z.abs z) (Z.abs_nonneg z)) as Hnn.
  assert (Habs : Z.abs (Z.sgn z * round_nat (Z.abs z)) = round_nat (Z.abs z)).
  { destruct z; [reflexivity | cbn [Z.sgn Z.abs] in *; lia ..]. }
  rewrite Habs, round_nat_idempotent by apply Z.abs_nonneg.
  destruct (Z.leb_spec (2 ^ 1024) (round_nat (Z.abs z))); [lia|].
  f_equal. destruct z as [|p|p].
  - reflexivity.
  - pose proof (round_nat_positive (Z.abs (Z.pos p)) eq_refl).
    cbn [Z.sgn]. rewrite Z.mul_1_l. rewrite Z.sgn_pos by lia. lia.
  - pose proof (round_nat_positive (Z.abs (Z.neg p)) eq_refl).
    cbn [Z.sgn]. rewrite Z.sgn_neg by lia. lia.
Qed.

Lemma of_Z_nonneg (m w : Z) : 0 <= m -> of_Z m = Fin w -> w = round_nat m.
Proof.
  intros Hm. unfold of_Z. rewrite Z.abs_eq by exact Hm.
  destruct (2 ^ 1024 <=? round_nat m); [destruct (m <? 0); discriminate|].
  intros [= <-]. destruct (Z.eq_dec m 0) as [->|Hne]; [reflexivity|].
  rewrite Z.sgn_pos by lia. lia.
Qed.

(** Below [2 ^ 53] a double is the value of one natural number only. *)
Lemma of_Z_small_inv (m w : Z) : 0 <= m -> of_Z m = Fin w -> w < 2 ^ 53 -> m = w.
Proof.
  intros Hm H Hw. apply of_Z_nonneg in H; [|exact Hm]. subst w.
  destruct (Z.lt_ge_cases m (2 ^ 53)) as [Hs|Hl].
  - now rewrite round_nat_small.
  - pose proof (round_nat_keeps_large m Hl). lia.
Qed.

(** [10 ^ 21] is a double, and rounding does not go below it from above. *)
Lemma of_Z_keeps_e21 (m w : Z) : 10 ^ 21 <= m -> of_Z m = Fin w -> 10 ^ 21 <= w.
Proof.
  intros Hm H.
  assert (H1021 : 10 ^ 21 = 7629394531250000 * 2 ^ 17) by reflexivity.
  assert (Hm0 : 0 <= m) by lia.
  apply of_Z_nonneg in H; [|exact Hm0]. subst w.
  assert (Hl : 2 ^ 53 <= m) by (assert (2 ^ 53 < 10 ^ 21) by reflexivity; lia).
  destruct (round_nat_large m Hl) as (e & q & He & He1 & Hq & Hq' & ->).
  assert (H69 : 69 <= Z.log2 m).
  { apply Z.log2_le_pow2; [lia|]. assert (2 ^ 69 < 10 ^ 21) by reflexivity. lia. }
  assert (H2e : 0 < 2 ^ e) by (apply Z.pow_pos_nonneg; lia).
  destruct (Z.eq_dec e 17) as [->|Hne].
  - assert (7629394531250000 <= m / 2 ^ 17).
    { apply Z.div_le_lower_bound; lia. }
    nia.
  - assert (He18 : 2 ^ 18 <= 2 ^ e) by (apply Z.pow_le_mono_r; lia).
    assert (10 ^ 21 < 2 ^ 52 * 2 ^ 18) by reflexivity.
    assert (0 < 2 ^ 52) by reflexivity. nia.
Qed.

(** ** The shortest digits *)

Lemma rounds_to_true (v m : Z) : rounds_to v m = true <-> of_Z m = Fin v.
Proof.
  unfold rounds_to. destruct (of_Z m) as [|w| |]; try (split; discriminate).
  rewrite Z.eqb_eq. split; [now intros -> | now intros [= ->]].
Qed.

Lemma nearest_multiple_rounds (v p m : Z) :
  0 <= v -> 0 <= p -> nearest_multiple v p = Some m -> 0 <= m /\ of_Z m = Fin v.
Proof.
  intros Hv Hp. unfold nearest_multiple.
  assert (H10 : 0 < 10 ^ p) by (apply Z.pow_pos_nonneg; lia).
  assert (Hlo : 0 <= v / 10 ^ p * 10 ^ p).
  { pose proof (Z.div_pos v (10 ^ p) Hv H10). nia. }
  destruct (rounds_to v (v / 10 ^ p * 10 ^ p)) eqn:Elo;
    destruct (rounds_to v (v / 10 ^ p * 10 ^ p + 10 ^ p)) eqn:Ehi;
    try discriminate.
  - intros [= <-].
    destruct (_ <? _); [split; [lia | now apply rounds_to_true]|].
    destruct (_ <? _); [split; [lia | now apply rounds_to_true]|].
    destruct (Z.even _); split; try lia; now apply rounds_to_true.
  - intros [= <-]. split; [lia | now apply rounds_to_true].
  - intros [= <-]. split; [lia | now apply rounds_to_true].
Qed.

Lemma shortest_below_rounds (v : Z) (p : nat) :
  0 <= v -> of_Z v = Fin v ->
  0 <= shortest_below p v /\ of_Z (shortest_below p v) = Fin v.
Proof.
  intros Hv Hdouble. induction p as [|p IH]; cbn [shortest_below].
  - destruct (nearest_multiple v (Z.of_nat 0)) as [m|] eqn:E; [|now split].
    apply (nearest_multiple_rounds v (Z.of_nat 0) m); [lia | lia | exact E].
  - destruct (nearest_multiple v (Z.of_nat (S p))) as [m|] eqn:E; [|exact IH].
    apply (nearest_multiple_rounds v (Z.of_nat (S p)) m); [lia | lia | exact E].
Qed.

Lemma shortest_rounds (v : Z) :
  0 <= v -> of_Z v = Fin v -> 0 <= shortest v /\ of_Z (shortest v) = Fin v.
Proof. intros. now apply shortest_below_rounds. Qed.

Lemma shortest_nonneg (v : Z) : 0 <= v -> 0 <= shortest v.
Proof.
  intros Hv. unfold shortest.
  induction (Z.to_nat (Z.log2 v + 1)) as [|p IH]; cbn [shortest_below].
  - destruct (nearest_multiple v (Z.of_nat 0)) as [m|] eqn:E; [|exact Hv].
    apply (nearest_multiple_rounds v (Z.of_nat 0) m); [lia | lia | exact E].
  - destruct (nearest_multiple v (Z.of_nat (S p))) as [m|] eqn:E; [|exact IH].
    apply (nearest_multiple_rounds v (Z.of_nat (S p)) m); [lia | lia | exact E].
Qed.

(** ** Numerals *)

Lemma numeral_digits (d : Decimal.uint) :
  str_forall is_digit (NilEmpty.string_of_uint d) = true.
Proof. induction d; cbn [NilEmpty.string_of_uint str_forall]; [reflexivity | exact IHd ..]. Qed.

Ltac digit_step IH k :=
  cbn [NilEmpty.string_of_uint parse_digits Pos.of_uint_acc];
  match goal with
  | |- context [digit_val 10 ?c] => change (digit_val 10 c) with (Some k)
  end;
  cbv beta iota; rewrite <- IH; do 2 f_equal.

Lemma parse_numeral_from (d : Decimal.uint) (acc : positive) :
  parse_digits 10 (NilEmpty.string_of_uint d) (Some (Z.pos acc))
  = Some (Z.pos (Pos.of_uint_acc d acc)).
Proof.
  revert acc. induction d as [|d IH|d IH|d IH|d IH|d IH|d IH|d IH|d IH|d IH|d IH]; intros acc.
  - reflexivity.
  - digit_step IH 0. cbn [default from_option id]. lia.
  - digit_step IH 1. cbn [default from_option id]. lia.
  - digit_step IH 2. cbn [default from_option id]. lia.
  - digit_step IH 3. cbn [default from_option id]. lia.
  - digit_step IH 4. cbn [default from_option id]. lia.
  - digit_step IH 5. cbn [default from_option id]. lia.
  - digit_step IH 6. cbn [default from_option id]. lia.
  - digit_step IH 7. cbn [default from_option id]. lia.
  - digit_step IH 8. cbn [default from_option id]. lia.
  - digit_step IH 9. cbn [default from_option id]. lia.
Qed.

Lemma parse_numeral_zero (d : Decimal.uint) :
  parse_digits 10 (NilEmpty.string_of_uint d) (Some 0) = Some (Z.of_N (Pos.of_uint d)).
Proof.
  induction d; try exact (parse_numeral_from d _); [reflexivity | exact IHd].
Qed.

Lemma parse_numeral (d : Decimal.uint) :
  d <> Decimal.Nil ->
  parse_digits 10 (NilEmpty.string_of_uint d) None = Some (Z.of_N (Pos.of_uint d)).
Proof.
  intros Hd. rewrite <- parse_numeral_zero. destruct d; [congruence | reflexivity ..].
Qed.

Lemma parse_decimal (m : Z) : 0 <= m -> parse_digits 10 (decimal m) None = Some m.
Proof.
  intros Hm. destruct m as [|p|p]; [reflexivity | | lia].
  unfold decimal. cbn [Z.to_int NilEmpty.string_of_int].
  rewrite parse_numeral by apply Unsigned.to_uint_nonnil.
  now rewrite Unsigned.of_to.
Qed.

Lemma decimal_digits (m : Z) : 0 <= m -> str_forall is_digit (decimal m) = true.
Proof.
  intros Hm. destruct m as [|p|p]; [reflexivity | apply numeral_digits | lia].
Qed.

(** The numeral of a positive number starts with a digit that is not 0,
    so a numeral of [n + 1] digits denotes at least [10 ^ n]. *)
Lemma of_uint_acc_lower (d : Decimal.uint) (acc : positive) :
  Z.pos acc * 10 ^ Z.of_nat (String.length (NilEmpty.string_of_uint d))
  <= Z.pos (Pos.of_uint_acc d acc).
Proof.
  revert acc.
  induction d as [|d IH|d IH|d IH|d IH|d IH|d IH|d IH|d IH|d IH|d IH]; intros acc;
    cbn [NilEmpty.string_of_uint String.length Pos.of_uint_acc];
    [rewrite Z.pow_0_r; lia | ..];
    rewrite Nat2Z.inj_succ, Z.pow_succ_r by lia;
    (match goal with
     | |- _ <= Z.pos (Pos.of_uint_acc _ ?a) => pose proof (IH a) as Hle
     end);
    (assert (Hpow : 0 < 10 ^ Z.of_nat (String.length (NilEmpty.string_of_uint d)))
       by (apply Z.pow_pos_nonneg; lia));
    nia.
Qed.

Lemma to_uint_leading (p : positive) (d : Decimal.uint) : Pos.to_uint p <> Decimal.D0 d.
Proof.
  pose proof (Unsigned.to_of (Pos.to_uint p)) as Hnorm.
  rewrite Unsigned.of_to in Hnorm. cbn [N.to_uint] in Hnorm.
  assert (Hhead : Decimal.nzhead (Pos.to_uint p) <> Decimal.Nil).
  { intros Hnil. apply DecimalFacts.unorm_0 in Hnil. rewrite <- Hnorm in Hnil.
    exact (Unsigned.to_uint_nonzero p Hnil). }
  rewrite (DecimalFacts.unorm_nzhead _ Hhead) in Hnorm. rewrite Hnorm.
  apply DecimalFacts.nzhead_nonzero.
Qed.

Lemma decimal_length (m : Z) :
  0 <= m < 10 ^ 21 -> (String.length (decimal m) <= 21)%nat.
Proof.
  intros Hm. destruct m as [|p|p]; [cbn; lia | | lia].
  unfold decimal. cbn [Z.to_int NilEmpty.string_of_int].
  pose proof (Unsigned.of_to p) as Hval.
  pose proof (to_uint_leading p) as Hlead.
  pose proof (Unsigned.to_uint_nonnil p) as Hnil.
  assert (Hlower : forall (l : Decimal.uint) (k : positive),
            N.pos (Pos.of_uint_acc l k) = N.pos p ->
            (S (String.length (NilEmpty.string_of_uint l)) <= 21)%nat).
  { intros l k [= Hk]. pose proof (of_uint_acc_lower l k) as Hle. rewrite Hk in Hle.
    assert (Hlt : 10 ^ Z.of_nat (String.length (NilEmpty.string_of_uint l)) < 10 ^ 21).
    { assert (0 < 10 ^ Z.of_nat (String.length (NilEmpty.string_of_uint l)))
        by (apply Z.pow_pos_nonneg; lia). nia. }
    apply Z.pow_lt_mono_r_iff in Hlt; lia. }
  destruct (Pos.to_uint p) as [|d|d|d|d|d|d|d|d|d|d];
    [congruence | exfalso; exact (Hlead d eq_refl) | ..];
    cbn [NilEmpty.string_of_uint String.length]; cbn [Pos.of_uint] in Hval;
    exact (Hlower _ _ Hval).
Qed.

Ltac by_bits c :=
  let b0 := fresh in let b1 := fresh in let b2 := fresh in let b3 := fresh in
  let b4 := fresh in let b5 := fresh in let b6 := fresh in let b7 := fresh in
  destruct c as [b0 b1 b2 b3 b4 b5 b6 b7];
  destruct b0, b1, b2, b3, b4, b5, b6, b7.

(** A text of digits has no white space, sign or radix prefix to skip. *)
Lemma parseInt_string_digits (s : string) :
  str_forall is_digit s = true ->
  parseInt_string s = match parse_digits 10 s None with
                      | Some n => of_Z n
                      | None => NaN
                      end.
Proof.
  destruct s as [|c r]; [reflexivity|].
  cbn [str_forall]. intros H. apply andb_true_iff in H as [Hc Hr].
  unfold parseInt_string.
  by_bits c; try discriminate Hc; cbn [trimStart];
    match goal with
    | |- context [is_ws ?c] => change (is_ws c) with false
    end;
    cbv beta iota;
    try (destruct r as [|c2 r2]; [reflexivity|];
         cbn [str_forall] in Hr; apply andb_true_iff in Hr as [Hc2 _];
         by_bits c2; try discriminate Hc2; cbv beta iota);
    match goal with
    | |- match ?p with Some _ => _ | None => _ end = _ =>
        destruct p; [now rewrite Z.mul_1_l | reflexivity]
    end.
Qed.

Lemma parseInt_decimal (m : Z) : 0 <= m -> parseInt_string (decimal m) = of_Z m.
Proof.
  intros Hm. rewrite parseInt_string_digits by now apply decimal_digits.
  now rewrite parse_decimal.
Qed.

(** Printing and reading back: [parseInt(x)] is [x] for an integer-valued
    double below [10 ^ 21]. *)
Lemma parseInt_toString (w : Z) :
  of_Z w = Fin w -> 0 < w < 10 ^ 21 ->
  parseInt_string (Number_toString (Fin w)) = Fin w.
Proof.
  intros Hdouble Hw. unfold Number_toString.
  destruct (Z.eqb_spec w 0); [lia|]. rewrite Z.abs_eq by lia.
  destruct (shortest_rounds w) as [Hm Hround]; [lia | exact Hdouble |].
  destruct (Z.ltb_spec (shortest w) (10 ^ 21)) as [_|Hbig].
  - destruct (Z.ltb_spec w 0); [lia|]. now rewrite parseInt_decimal.
  - pose proof (of_Z_keeps_e21 _ _ Hbig Hround). lia.
Qed.

(** ** What [parseInt] returns *)

Lemma parseInt_string_cases (s : string) :
  parseInt_string s = NaN \/ exists z : Z, parseInt_string s = of_Z z.
Proof.
  unfold parseInt_string.
  destruct (match trimStart s with
            | String "-" r => (-1, r)
            | String "+" r => (1, r)
            | _ => (1, trimStart s)
            end) as [sg s2].
  destruct (match s2 with
            | String "0" (String "x" r) => (16, r)
            | String "0" (String "X" r) => (16, r)
            | _ => (10, s2)
            end) as [radix s3].
  destruct (parse_digits radix s3 None) as [n|]; [right; now exists (sg * n) | now left].
Qed.

Lemma parseInt_double (v : JsVal) (w : Z) : parseInt v = Fin w -> of_Z w = Fin w.
Proof.
  unfold parseInt. destruct (parseInt_string_cases (ToString v)) as [->|[z ->]];
    [discriminate | apply of_Z_idempotent].
Qed.

(** [parseInt(x)] for a number [x] that is an integer below [10 ^ 21] *)
Lemma parseInt_number (w : Z) :
  of_Z w = Fin w -> 0 < w < 10 ^ 21 -> parseInt (JsNumber w) = Fin w.
Proof.
  intros Hdouble Hw. unfold parseInt. cbn [ToString]. rewrite Hdouble.
  now apply parseInt_toString.
Qed.

(** A natural number becomes a finite number that is not negative, or
    overflows. *)
Lemma of_Z_natural (n : Z) :
  0 <= n -> of_Z n = PosInf \/ exists w : Z, of_Z n = Fin w /\ 0 <= w.
Proof.
  intros Hn. unfold of_Z. rewrite Z.abs_eq by exact Hn.
  pose proof (round_nat_nonneg n Hn).
  destruct (2 ^ 1024 <=? round_nat n).
  - left. destruct (Z.ltb_spec n 0); [lia | reflexivity].
  - right. eexists. split; [reflexivity|].
    destruct (Z.eq_dec n 0) as [->|]; [reflexivity|]. rewrite Z.sgn_pos by lia. lia.
Qed.

End NumberFacts.


(* ================================================================== *)
(** * Properties of the validation engine                              *)
(* ================================================================== *)

Module ValidationFacts.
Import Validation.

(** A rule contributes its message exactly when it is violated. *)
Definition violated (b : bool) (msg : string) : list string :=
  if b then [msg] else [].

Lemma push_violated (errs : list string) (b : bool) (msg : string) :
  (if b then push errs msg else errs) = errs ++ violated b msg.
Proof. destruct b; simpl; [reflexivity | now rewrite app_nil_r]. Qed.

Lemma no_errors_spec (errs : list string) : no_errors errs = true <-> errs = [].
Proof. destruct errs; simpl; split; intros H; try reflexivity; discriminate. Qed.

Lemma push_not_nil (errs : list string) (msg : string) : push errs msg <> [].
Proof. unfold push. destruct errs; discriminate. Qed.

(** The shape shared by all results: valid exactly when nothing was pushed. *)
Definition consistent (r : ValidationResult) : Prop :=
  isValid r = true <-> errors r = [].

Lemma consistent_computed (errs : list string) :
  consistent {| isValid := no_errors errs; errors := errs |}.
Proof. apply no_errors_spec. Qed.

Lemma consistent_required (msg : string) :
  consistent {| isValid := false; errors := push [] msg |}.
Proof. split; simpl; intros H; discriminate. Qed.

Lemma validatePassword_consistent (password : option string) :
  consistent (validatePassword password).
Proof.
  unfold validatePassword.
  destruct password as [p|]; [|apply consistent_required].
  destruct (truthy_str (Some p)); [apply consistent_computed | apply consistent_required].
Qed.

Lemma validateUsername_consistent (username : option string) :
  consistent (validateUsername username).
Proof.
  unfold validateUsername.
  destruct username as [u|]; [|apply consistent_required].
  destruct (truthy_str (Some u)); [apply consistent_computed | apply consistent_required].
Qed.

Lemma validateDateRange_consistent (parse : string -> option Z)
    (startDate endDate : option string) :
  consistent (validateDateRange parse startDate endDate).
Proof. unfold validateDateRange. apply consistent_computed. Qed.

Lemma validateFileUpload_consistent (qt : Z -> Z -> string)
    (file : option File) (options : UploadOptions) :
  consistent (validateFileUpload qt file options).
Proof.
  unfold validateFileUpload.
  destruct file as [f|]; [apply consistent_computed | apply consistent_required].
Qed.

(** The errors of a present, non-empty password: one message per violated
    rule, in the order of the rules. *)
Lemma validatePassword_present (c : ascii) (r : string) :
  let p := String c r in
  validatePassword (Some p) =
    let errs :=
      violated (Z.of_nat (String.length p) <? 6) msg_pw_short
      ++ violated (negb (has_lower p)) msg_pw_lower
      ++ violated (negb (has_upper p)) msg_pw_upper
      ++ violated (negb (has_digit p)) msg_pw_digit
      ++ violated (negb (has_special p)) msg_pw_special in
    {| isValid := no_errors errs; errors := errs |}.
Proof.
  intros p. unfold validatePassword.
  change (truthy_str (Some p)) with true. cbv iota.
  rewrite !push_violated. cbv zeta. rewrite <- !app_assoc. reflexivity.
Qed.

End ValidationFacts.

(** C3. [validatePassword] collects every violated rule in one call. For
    the input "weak" the errors are exactly too-short, missing-uppercase,
    missing-digit and missing-special, and missing-lowercase is not among
    them; an empty or absent password stops at the single message
    "Password is required". In general a non-empty password gets one message
    per violated rule, in rule order. *)
Theorem validatePassword_aggregates :
  Validation.validatePassword (Some "weak") =
    Validation.mkResult false
      [Validation.msg_pw_short; Validation.msg_pw_upper;
       Validation.msg_pw_digit; Validation.msg_pw_special]
  /\ ~ In Validation.msg_pw_lower
        (Validation.errors (Validation.validatePassword (Some "weak")))
  /\ Validation.validatePassword (Some EmptyString) =
       Validation.mkResult false [Validation.msg_pw_required]
  /\ Validation.validatePassword None =
       Validation.mkResult false [Validation.msg_pw_required]
  /\ forall (c : ascii) (r : string),
       let p := String c r in
       Validation.errors (Validation.validatePassword (Some p)) =
         ValidationFacts.violated (Z.of_nat (String.length p) <? 6) Validation.msg_pw_short
         ++ ValidationFacts.violated (negb (Validation.has_lower p)) Validation.msg_pw_lower
         ++ ValidationFacts.violated (negb (Validation.has_upper p)) Validation.msg_pw_upper
         ++ ValidationFacts.violated (negb (Validation.has_digit p)) Validation.msg_pw_digit
         ++ ValidationFacts.violated (negb (Validation.has_special p)) Validation.msg_pw_special.
Proof.
  split; [reflexivity|].
  split.
  { change (Validation.errors (Validation.validatePassword (Some "weak")))
      with [Validation.msg_pw_short; Validation.msg_pw_upper;
            Validation.msg_pw_digit; Validation.msg_pw_special].
    simpl. intros [H|[H|[H|[H|[]]]]]; discriminate H. }
  split; [reflexivity|].
  split; [reflexivity|].
  intros c r p. subst p. rewrite ValidationFacts.validatePassword_present. reflexivity.
Qed.

(** C4. Every validator returns a consistent result: for the password,
    username, date-range and file-upload validators and every input,
    [isValid] is true if and only if the list of errors is empty. *)
Theorem validation_result_consistent :
  (forall password : option string,
      Validation.isValid (Validation.validatePassword password) = true
      <-> Validation.errors (Validation.validatePassword password) = [])
  /\ (forall username : option string,
      Validation.isValid (Validation.validateUsername username) = true
      <-> Validation.errors (Validation.validateUsername username) = [])
  /\ (forall (Date_parse : string -> option Z) (startDate endDate : option string),
      Validation.isValid (Validation.validateDateRange Date_parse startDate endDate) = true
      <-> Validation.errors (Validation.validateDateRange Date_parse startDate endDate) = [])
  /\ (forall (quotient_text : Z -> Z -> string) (file : option Validation.File)
             (options : Validation.UploadOptions),
      Validation.isValid (Validation.validateFileUpload quotient_text file options) = true
      <-> Validation.errors (Validation.validateFileUpload quotient_text file options) = []).
Proof.
  split; [exact ValidationFacts.validatePassword_consistent|].
  split; [exact ValidationFacts.validateUsername_consistent|].
  split; [exact ValidationFacts.validateDateRange_consistent|].
  exact ValidationFacts.validateFileUpload_consistent.
Qed.

(* ------------------------------------------------------------------ *)
(** ** Pagination                                                      *)
(* ------------------------------------------------------------------ *)

Module PaginationFacts.
Import Validation NumberFacts.

(** Clamping as the specification words it. *)
Definition clamp (lo hi n : Z) : Z := Z.min hi (Z.max lo n).

(** The specification's reading of the limit: whenever the parameter
    denotes an integer, the result is that integer clamped to [1,100]. *)
Definition limit_is_clamped_integer : Prop :=
  forall (params : gmap string JsVal) (n : Z),
    parseInt (prop params "limit") = Fin n ->
    limit (validatePagination params) = Fin (clamp 1 100 n).

(** The number a parameter is turned into before clamping: the default
    when it is missing, unreadable or zero. *)
Definition coerced (v : JsVal) (d : Z) : Num :=
  match v with
  | JsUndefined => Fin d
  | _ => match parseInt v with
         | NaN => Fin d
         | Fin n => if n =? 0 then Fin d else Fin n
         | PosInf => PosInf
         | NegInf => NegInf
         end
  end.

Lemma or_num_default (v : JsVal) (d : Z) :
  parseInt (JsNumber d) = Fin d -> d <> 0 ->
  or_num (parseInt (or_default v (JsNumber d))) (Fin d) = coerced v d.
Proof.
  intros Hread Hd. unfold coerced, or_num.
  destruct v; cbn [or_default];
    [rewrite Hread; destruct (Z.eqb_spec d 0); [contradiction | reflexivity] | ..];
    match goal with
    | |- context [parseInt ?v] =>
        destruct (parseInt v) as [|n| |];
        [reflexivity | destruct (n =? 0); reflexivity | reflexivity | reflexivity]
    end.
Qed.

Lemma validatePagination_unfold (params : gmap string JsVal) :
  validatePagination params =
    let p := Math_max (Fin 1) (coerced (prop params "page") 1) in
    let l := Math_min (Fin 100) (Math_max (Fin 1) (coerced (prop params "limit") 10)) in
    mkPagination p l (num_mul (num_sub p (Fin 1)) l).
Proof.
  unfold validatePagination.
  rewrite (or_num_default _ 1) by (vm_compute; (reflexivity || discriminate)).
  rewrite (or_num_default _ 10) by (vm_compute; (reflexivity || discriminate)).
  reflexivity.
Qed.

(** What is read is a double and is not [NaN]. *)
Definition read (x : Num) : Prop :=
  match x with
  | NaN => False
  | Fin w => of_Z w = Fin w
  | PosInf | NegInf => True
  end.

Lemma coerced_read (v : JsVal) (d : Z) : Z.abs d < 2 ^ 53 -> read (coerced v d).
Proof.
  intros Hd. pose proof (of_Z_small d Hd) as Hdef. unfold coerced.
  destruct v; try exact Hdef;
    match goal with
    | |- context [parseInt ?v] =>
        destruct (parseInt v) as [|n| |] eqn:E; [exact Hdef | | exact I | exact I]
    end;
    (destruct (n =? 0); [exact Hdef | exact (parseInt_double _ _ E)]).
Qed.

(** [Math.max(1, x)] of what was read *)
Lemma page_cases (x : Num) :
  read x ->
  Math_max (Fin 1) x = PosInf
  \/ exists p : Z, Math_max (Fin 1) x = Fin p /\ 1 <= p /\ of_Z p = Fin p.
Proof.
  destruct x as [|w| |]; cbn [read Math_max num_lt]; intros H.
  - contradiction.
  - right. destruct (Z.ltb_spec 1 w).
    + exists w. repeat split; [lia | exact H].
    + exists 1. repeat split; lia.
  - now left.
  - right. exists 1. repeat split; lia.
Qed.

(** [Math.min(100, Math.max(1, x))] of what was read *)
Lemma limit_cases (x : Num) :
  read x ->
  exists l : Z, Math_min (Fin 100) (Math_max (Fin 1) x) = Fin l /\ 1 <= l <= 100.
Proof.
  destruct x as [|w| |]; cbn [read Math_max num_lt]; intros H.
  - contradiction.
  - destruct (Z.ltb_spec 1 w); cbn [Math_min num_lt].
    + destruct (Z.ltb_spec w 100); eexists; (split; [reflexivity | lia]).
    + exists 1. split; [reflexivity | lia].
  - exists 100. split; [reflexivity | lia].
  - exists 1. split; [reflexivity | lia].
Qed.

(** The product [(p - 1) * l] in doubles is the integer product as long
    as that is below [2 ^ 53]. *)
Lemma skip_exact (p l : Z) :
  1 <= p -> 1 <= l -> (p - 1) * l < 2 ^ 53 ->
  num_mul (num_sub (Fin p) (Fin 1)) (Fin l) = Fin ((p - 1) * l).
Proof.
  intros Hp Hl Hbound. cbn [num_sub].
  rewrite (of_Z_small (p - 1)) by nia. cbn [num_mul]. apply of_Z_small. nia.
Qed.

(** The decimal numeral of a natural number below [2 ^ 53] is read as
    that number. *)
Lemma parseInt_numeral (n : Z) :
  0 <= n < 2 ^ 53 -> parseInt (JsString (decimal n)) = Fin n.
Proof.
  intros Hn. unfold parseInt. cbn [ToString].
  rewrite parseInt_decimal by lia. apply of_Z_small. lia.
Qed.

End PaginationFacts.

(** The specification's reading fails for the limit "0": it denotes the
    integer 0, whose clamp is 1, but the code answers the default 10. *)
Lemma validatePagination_zero_limit :
  parseInt (Validation.prop {[ "limit" := JsString "0" ]} "limit") = Fin 0
  /\ Validation.limit (Validation.validatePagination {[ "limit" := JsString "0" ]}) = Fin 10
  /\ PaginationFacts.clamp 1 100 0 = 1
  /\ ~ PaginationFacts.limit_is_clamped_integer.
Proof.
  assert (H0 : parseInt (Validation.prop {[ "limit" := JsString "0" ]} "limit") = Fin 0)
    by (vm_compute; reflexivity).
  assert (H1 : Validation.limit
                 (Validation.validatePagination {[ "limit" := JsString "0" ]}) = Fin 10)
    by (vm_compute; reflexivity).
  repeat split; try assumption.
  intros Hclaim. specialize (Hclaim _ _ H0). rewrite H1 in Hclaim. discriminate Hclaim.
Qed.

(** C5 (amended). For every params object, [validatePagination] returns
    [page] as the number read from the parameter (1 when it is missing,
    unreadable or zero) raised to at least 1, [limit] as the number read
    from the parameter (10 when it is missing, unreadable or zero) clamped
    to [1,100], and [skip] as the product [(page - 1) * limit] in double
    arithmetic. [page] is an integer of at least 1 or [Infinity], [limit] an
    integer in [1,100]. A decimal numeral below [2 ^ 53] is read as its
    integer, and [skip] is the integer product whenever that is below
    [2 ^ 53]; beyond that, numerals and products are rounded to the nearest
    double. The input [{page:"0", limit:"1000"}] yields
    [{page:1, limit:100, skip:0}], and [{page:"9007199254740993", limit:"3"}]
    yields page 9007199254740992 and skip 27021597764222972. *)
Theorem validatePagination_normalizes (params : gmap string JsVal) :
  let r := Validation.validatePagination params in
  Validation.page r
  = Math_max (Fin 1) (PaginationFacts.coerced (Validation.prop params "page") 1)
  /\ Validation.limit r
     = Math_min (Fin 100)
         (Math_max (Fin 1) (PaginationFacts.coerced (Validation.prop params "limit") 10))
  /\ (Validation.page r = PosInf \/ exists p : Z, Validation.page r = Fin p /\ 1 <= p)
  /\ (exists l : Z, Validation.limit r = Fin l /\ 1 <= l <= 100)
  /\ Validation.skip r
     = num_mul (num_sub (Validation.page r) (Fin 1)) (Validation.limit r)
  /\ (forall p l : Z,
        Validation.page r = Fin p -> Validation.limit r = Fin l ->
        (p - 1) * l < 2 ^ 53 ->
        Validation.skip r = Fin ((p - 1) * l))
  /\ (forall n : Z,
        0 <= n < 2 ^ 53 -> Validation.prop params "page" = JsString (decimal n) ->
        Validation.page r = Fin (Z.max 1 n))
  /\ (forall n : Z,
        0 <= n < 2 ^ 53 -> Validation.prop params "limit" = JsString (decimal n) ->
        Validation.limit r = Fin (if n =? 0 then 10 else Z.min 100 n))
  /\ Validation.validatePagination {[ "page" := JsString "0"; "limit" := JsString "1000" ]}
     = Validation.mkPagination (Fin 1) (Fin 100) (Fin 0)
  /\ Validation.validatePagination
       {[ "page" := JsString "9007199254740993"; "limit" := JsString "3" ]}
     = Validation.mkPagination (Fin 9007199254740992) (Fin 3) (Fin 27021597764222972).
Proof.
  intros r. subst r. rewrite PaginationFacts.validatePagination_unfold.
  cbv zeta. cbn [Validation.page Validation.limit Validation.skip].
  pose proof (PaginationFacts.coerced_read (Validation.prop params "page") 1 eq_refl) as Hp.
  pose proof (PaginationFacts.coerced_read (Validation.prop params "limit") 10 eq_refl) as Hl.
  destruct (PaginationFacts.page_cases _ Hp) as [Hpage|(p & Hpage & Hp1 & _)];
    destruct (PaginationFacts.limit_cases _ Hl) as (l & Hlimit & Hl1).
  all: split; [reflexivity|]; split; [reflexivity|].
  all: split; [rewrite Hpage; first [now left | right; now exists p]|].
  all: split; [now exists l|]; split; [reflexivity|].
  all: split;
    [intros p' l'; rewrite Hpage, Hlimit; first [discriminate | intros [= <-] [= <-] Hb];
     now apply PaginationFacts.skip_exact|].
  all: split;
    [intros n Hn Hprop; rewrite Hprop; unfold PaginationFacts.coerced;
     rewrite PaginationFacts.parseInt_numeral by exact Hn;
     destruct (Z.eqb_spec n 0) as [->|]; cbn [Math_max num_lt];
     [reflexivity | destruct (Z.ltb_spec 1 n); f_equal; lia]|].
  all: split;
    [intros n Hn Hprop; rewrite Hprop; unfold PaginationFacts.coerced;
     rewrite PaginationFacts.parseInt_numeral by exact Hn;
     destruct (Z.eqb_spec n 0) as [->|]; cbn [Math_max Math_min num_lt];
     [reflexivity
     | destruct (Z.ltb_spec 1 n); cbn [Math_min num_lt];
       [destruct (Z.ltb_spec n 100); f_equal; lia | f_equal; lia]]|].
  all: split; vm_compute; reflexivity.
Qed.

(** The pagination of [{page:"2", limit:"20"}] skips 20 entries. *)
Lemma validatePagination_normalizes_witness :
  Validation.skip
    (Validation.validatePagination {[ "page" := JsString "2"; "limit" := JsString "20" ]})
  = Fin 20.
Proof.
  destruct (validatePagination_normalizes
              {[ "page" := JsString "2"; "limit" := JsString "20" ]})
    as (_ & _ & _ & _ & _ & Hexact & _).
  apply (Hexact 2 20); [vm_compute; reflexivity | vm_compute; reflexivity | lia].
Defined.

(* ------------------------------------------------------------------ *)
(** ** Date ranges                                                     *)
(* ------------------------------------------------------------------ *)

Module DateRangeFacts.
Import Validation ValidationFacts.

(** The specification's reading: an end that is present and does not
    parse always makes the range invalid. *)
Definition each_present_end_is_checked (Date_parse : string -> option Z) : Prop :=
  forall (s : string) (endDate : option string),
    truthy_str (Some s) = true -> Date_parse s = None ->
    isValid (validateDateRange Date_parse (Some s) endDate) = false.

(** The text of an argument that may be absent. *)
Definition text (o : option string) : string := default EmptyString o.

Lemma validateDateRange_errors (Date_parse : string -> option Z)
    (startDate endDate : option string) :
  errors (validateDateRange Date_parse startDate endDate) =
    if truthy_str startDate && truthy_str endDate then
      violated (isNaN (Date_parse (text startDate))) msg_dr_start
      ++ violated (isNaN (Date_parse (text endDate))) msg_dr_end
      ++ violated (date_gt (Date_parse (text startDate)) (Date_parse (text endDate)))
           msg_dr_order
    else [].
Proof.
  unfold validateDateRange. cbn [errors].
  destruct startDate as [s|], endDate as [e|]; try reflexivity.
  - destruct (truthy_str (Some s) && truthy_str (Some e)); [|reflexivity].
    rewrite !push_violated. cbn [text default]. rewrite <- !app_assoc. reflexivity.
  - cbn [truthy_str]. now rewrite andb_false_r.
Qed.

Lemma date_gt_spec (a b : option Z) :
  date_gt a b = true <-> exists x y, a = Some x /\ b = Some y /\ y < x.
Proof.
  unfold date_gt. split.
  - destruct a as [x|], b as [y|]; try discriminate.
    intros H. exists x, y. repeat split. lia.
  - intros (x & y & -> & -> & H). lia.
Qed.

End DateRangeFacts.

(** A start date that is present but unreadable goes unnoticed when the
    end date is absent: the result is valid. *)
Lemma validateDateRange_single_end_unchecked :
  IsoDate.parse "not-a-date" = None
  /\ Validation.validateDateRange IsoDate.parse (Some "not-a-date") None
     = Validation.mkResult true []
  /\ ~ DateRangeFacts.each_present_end_is_checked IsoDate.parse.
Proof.
  split; [reflexivity|]. split; [reflexivity|].
  intros Hclaim.
  specialize (Hclaim "not-a-date" None eq_refl eq_refl).
  discriminate Hclaim.
Qed.

(** C6 (amended). The ends are checked only when both are present: then
    each must parse as a valid date and, when both parse, the start must
    not be after the end; when an end is absent or empty nothing is checked
    and the range is valid. [validateDateRange("2023-12-31","2023-01-01")]
    yields the single violation "Start date must be before end date" and
    [validateDateRange("","")] is valid. *)
Theorem validateDateRange_both_present (Date_parse : string -> option Z) :
  (forall startDate endDate : option string,
     Validation.errors (Validation.validateDateRange Date_parse startDate endDate) =
       if truthy_str startDate && truthy_str endDate then
         ValidationFacts.violated
           (isNaN (Date_parse (DateRangeFacts.text startDate))) Validation.msg_dr_start
         ++ ValidationFacts.violated
              (isNaN (Date_parse (DateRangeFacts.text endDate))) Validation.msg_dr_end
         ++ ValidationFacts.violated
              (Validation.date_gt (Date_parse (DateRangeFacts.text startDate))
                                  (Date_parse (DateRangeFacts.text endDate)))
              Validation.msg_dr_order
       else [])
  /\ (forall a b : option Z,
        Validation.date_gt a b = true <-> exists x y, a = Some x /\ b = Some y /\ y < x)
  /\ (forall startDate endDate : option string,
        Validation.isValid (Validation.validateDateRange Date_parse startDate endDate) = true
        <-> Validation.errors (Validation.validateDateRange Date_parse startDate endDate) = [])
  /\ (Date_parse "2023-12-31" = IsoDate.parse "2023-12-31" ->
      Date_parse "2023-01-01" = IsoDate.parse "2023-01-01" ->
      Validation.validateDateRange Date_parse (Some "2023-12-31") (Some "2023-01-01")
      = Validation.mkResult false [Validation.msg_dr_order])
  /\ Validation.validateDateRange Date_parse (Some EmptyString) (Some EmptyString)
     = Validation.mkResult true [].
Proof.
  split; [apply DateRangeFacts.validateDateRange_errors|].
  split; [apply DateRangeFacts.date_gt_spec|].
  split; [apply ValidationFacts.validateDateRange_consistent|].
  split; [|reflexivity].
  intros Hs He. unfold Validation.validateDateRange.
  cbn [truthy_str String.eqb andb negb Ascii.eqb].
  rewrite Hs, He. vm_compute. reflexivity.
Qed.

(** The date-range theorem at the ECMAScript date-only parser. *)
Lemma validateDateRange_both_present_witness :
  Validation.validateDateRange IsoDate.parse (Some "2023-12-31") (Some "2023-01-01")
  = Validation.mkResult false [Validation.msg_dr_order].
Proof.
  apply (validateDateRange_both_present IsoDate.parse); reflexivity.
Defined.

(* ------------------------------------------------------------------ *)
(** ** The string sanitizer                                            *)
(* ------------------------------------------------------------------ *)

Module SanitizeFacts.
Import Validation StringFacts.

Definition first_char (s : string) : option ascii :=
  match s with
  | String c _ => Some c
  | EmptyString => None
  end.

Fixpoint last_char (s : string) : option ascii :=
  match s with
  | EmptyString => None
  | String c r =>
      match last_char r with
      | Some d => Some d
      | None => Some c
      end
  end.

(** An end of a string is fine when there is no character there or the
    character satisfies [p]. *)
Definition edge (p : ascii -> bool) (o : option ascii) : bool :=
  match o with
  | Some c => p c
  | None => true
  end.

Definition not_ws (c : ascii) : bool := negb (is_ws c).
Definition not_angle (c : ascii) : bool := negb (char_in "<>" c).

(** No white space at either end. *)
Definition no_surrounding_ws (s : string) : bool :=
  edge not_ws (first_char s) && edge not_ws (last_char s).

(** Neither ['<'] nor ['>'] anywhere. *)
Definition no_angle (s : string) : bool := str_forall not_angle s.

(** The specification's reading: the output never has white space at
    either end. *)
Definition output_is_trimmed : Prop :=
  forall s : string, no_surrounding_ws (sanitizeString (JsString s)) = true.

(** *** The two ends of a string *)

Lemma last_char_None (s : string) : last_char s = None -> s = EmptyString.
Proof. destruct s as [|c r]; [reflexivity|]. simpl. destruct (last_char r); discriminate. Qed.

Lemma last_char_cons (c : ascii) (s : string) :
  s <> EmptyString -> last_char (String c s) = last_char s.
Proof.
  intros Hs. simpl. destruct (last_char s) eqn:E; [reflexivity|].
  apply last_char_None in E. contradiction.
Qed.

Lemma last_char_app (a b : string) :
  last_char (a +:+ b) = match last_char b with
                        | Some d => Some d
                        | None => last_char a
                        end.
Proof.
  induction a as [|c a IH].
  - rewrite str_app_nil. destruct (last_char b); reflexivity.
  - rewrite str_app_cons. cbn [last_char]. rewrite IH.
    destruct (last_char b); reflexivity.
Qed.

Lemma first_char_app (a b : string) :
  a <> EmptyString -> first_char (a +:+ b) = first_char a.
Proof. destruct a; [contradiction | reflexivity]. Qed.

(** *** Trimming *)

Lemma trimStart_first (s : string) : edge not_ws (first_char (trimStart s)) = true.
Proof.
  induction s as [|c r IH]; simpl; [reflexivity|].
  destruct (is_ws c) eqn:E; [exact IH|]. simpl. unfold not_ws. now rewrite E.
Qed.

Lemma trimEnd_first (s : string) :
  edge not_ws (first_char s) = true -> first_char (trimEnd s) = first_char s.
Proof.
  destruct s as [|c r]; simpl; [reflexivity|].
  unfold not_ws. intros H. apply negb_true_iff in H. rewrite H.
  destruct (trimEnd r); reflexivity.
Qed.

Lemma trimEnd_last (s : string) : edge not_ws (last_char (trimEnd s)) = true.
Proof.
  induction s as [|c r IH]; [reflexivity|].
  cbn [trimEnd]. destruct (trimEnd r) as [|d r'] eqn:E.
  - destruct (is_ws c) eqn:Ec; simpl; [reflexivity|]. unfold not_ws. now rewrite Ec.
  - rewrite last_char_cons by discriminate. exact IH.
Qed.

Lemma trim_no_surrounding_ws (s : string) : no_surrounding_ws (trim s) = true.
Proof.
  unfold no_surrounding_ws, trim.
  rewrite trimEnd_first by apply trimStart_first.
  rewrite trimStart_first, trimEnd_last. reflexivity.
Qed.

(** *** Replacing a class of characters *)

Lemma replace_first_kept (cs rep s : string) (c : ascii) :
  first_char s = Some c -> char_in cs c = false ->
  first_char (replace_class cs rep s) = Some c.
Proof.
  destruct s as [|c' r]; simpl; [discriminate|].
  intros [= ->] ->. reflexivity.
Qed.

Lemma replace_last_kept (cs rep s : string) (d : ascii) :
  last_char s = Some d -> char_in cs d = false ->
  last_char (replace_class cs rep s) = Some d.
Proof.
  induction s as [|c r IH]; simpl; [discriminate|].
  intros Hl Hd. destruct (last_char r) as [e|] eqn:E.
  - injection Hl as ->. specialize (IH eq_refl Hd).
    destruct (char_in cs c).
    + rewrite last_char_app, IH. reflexivity.
    + simpl. rewrite IH. reflexivity.
  - injection Hl as ->. apply last_char_None in E. subst r. simpl.
    rewrite Hd. reflexivity.
Qed.

Lemma replace_first (cs rep s : string) :
  rep <> EmptyString ->
  first_char (replace_class cs rep s) =
    match first_char s with
    | Some c => if char_in cs c then first_char rep else Some c
    | None => None
    end.
Proof.
  intros Hrep. destruct s as [|c r]; simpl; [reflexivity|].
  destruct (char_in cs c); [|reflexivity].
  now apply first_char_app.
Qed.

Lemma replace_last (cs rep s : string) :
  rep <> EmptyString ->
  last_char (replace_class cs rep s) =
    match last_char s with
    | Some d => if char_in cs d then last_char rep else Some d
    | None => None
    end.
Proof.
  intros Hrep.
  assert (Hsome : exists x, last_char rep = Some x).
  { destruct (last_char rep) eqn:E; [eauto|]. apply last_char_None in E. contradiction. }
  destruct Hsome as [x Hx].
  induction s as [|c r IH]; [reflexivity|].
  cbn [replace_class last_char].
  destruct (last_char r) as [e|] eqn:E.
  - assert (HR : exists y, last_char (replace_class cs rep r) = Some y
                           /\ (if char_in cs e then last_char rep else Some e) = Some y).
    { rewrite IH. destruct (char_in cs e); eauto. }
    destruct HR as (y & Hy & Hy').
    destruct (char_in cs c).
    + rewrite last_char_app, Hy. congruence.
    + cbn [last_char]. rewrite Hy. congruence.
  - apply last_char_None in E. subst r. simpl.
    destruct (char_in cs c); [|reflexivity].
    rewrite last_char_app. reflexivity.
Qed.

(** An escape whose replacement text has no white space at its ends keeps
    both ends free of white space. *)
Lemma escape_keeps_edges (cs rep s : string) :
  rep <> EmptyString -> no_surrounding_ws rep = true ->
  no_surrounding_ws s = true ->
  no_surrounding_ws (replace_class cs rep s) = true.
Proof.
  unfold no_surrounding_ws. intros Hrep Hr Hs.
  apply andb_true_iff in Hr as [Hr1 Hr2]. apply andb_true_iff in Hs as [Hs1 Hs2].
  rewrite replace_first, replace_last by assumption.
  apply andb_true_iff. split.
  - destruct (first_char s) as [c|]; [|reflexivity]. now destruct (char_in cs c).
  - destruct (last_char s) as [d|]; [|reflexivity]. now destruct (char_in cs d).
Qed.

(** Removing a class keeps the ends when the end characters stay. *)
Lemma removal_keeps_edges (cs s : string) :
  edge (fun c => negb (char_in cs c)) (first_char s) = true ->
  edge (fun c => negb (char_in cs c)) (last_char s) = true ->
  no_surrounding_ws s = true ->
  no_surrounding_ws (replace_class cs EmptyString s) = true.
Proof.
  unfold no_surrounding_ws. intros Hf Hl Hs.
  apply andb_true_iff in Hs as [Hs1 Hs2]. apply andb_true_iff. split.
  - destruct (first_char s) as [c|] eqn:E.
    + simpl in Hf. apply negb_true_iff in Hf.
      now rewrite (replace_first_kept cs EmptyString s c E Hf).
    + destruct s; [reflexivity | discriminate].
  - destruct (last_char s) as [d|] eqn:E.
    + simpl in Hl. apply negb_true_iff in Hl.
      now rewrite (replace_last_kept cs EmptyString s d E Hl).
    + apply last_char_None in E. subst s. reflexivity.
Qed.

(** *** Characters of the result *)

Lemma str_forall_replace (p : ascii -> bool) (cs rep s : string) :
  str_forall p rep = true ->
  str_forall (fun c => char_in cs c || p c) s = true ->
  str_forall p (replace_class cs rep s) = true.
Proof.
  intros Hrep. induction s as [|c r IH]; simpl; [reflexivity|].
  intros H. apply andb_true_iff in H as [Hc Hr].
  destruct (char_in cs c) eqn:E.
  - rewrite str_forall_app, Hrep. simpl. now apply IH.
  - simpl in Hc. cbn [str_forall]. rewrite Hc. simpl. now apply IH.
Qed.

Lemma strip_no_angle (s : string) :
  no_angle (replace_class "<>" EmptyString s) = true.
Proof.
  apply str_forall_replace; [reflexivity|].
  induction s as [|c r IH]; simpl; [reflexivity|].
  rewrite IH. unfold not_angle. now destruct (char_in "<>" c).
Qed.

Lemma escape_no_angle (cs rep s : string) :
  no_angle rep = true -> no_angle s = true ->
  no_angle (replace_class cs rep s) = true.
Proof.
  intros Hrep Hs. apply str_forall_replace; [exact Hrep|].
  revert Hs. apply str_forall_weaken. intros c ->. apply orb_true_r.
Qed.

Lemma sanitize_chain_no_angle (s : string) : no_angle (sanitize_chain s) = true.
Proof.
  unfold sanitize_chain.
  do 4 (apply escape_no_angle; [reflexivity|]).
  apply strip_no_angle.
Qed.

Lemma sanitize_chain_trimmed (s : string) :
  edge not_angle (first_char (trim s)) = true ->
  edge not_angle (last_char (trim s)) = true ->
  no_surrounding_ws (sanitize_chain s) = true.
Proof.
  intros Hf Hl. unfold sanitize_chain.
  do 4 (apply escape_keeps_edges; [discriminate | reflexivity |]).
  apply removal_keeps_edges; [exact Hf | exact Hl |].
  apply trim_no_surrounding_ws.
Qed.

End SanitizeFacts.

(** The specification's reading fails on ["< a"]: the text is trimmed
    before the bracket is stripped, which uncovers the blank. *)
Lemma sanitizeString_uncovers_blank :
  Validation.sanitizeString (JsString "< a") = " a"
  /\ SanitizeFacts.no_surrounding_ws (Validation.sanitizeString (JsString "< a")) = false
  /\ ~ SanitizeFacts.output_is_trimmed.
Proof.
  split; [reflexivity|]. split; [reflexivity|].
  intros Hclaim. specialize (Hclaim "< a"). discriminate Hclaim.
Qed.

(** C10 (amended). [sanitizeString] is total; every input that is not a
    string (null, undefined, a boolean, a number) gives the empty string;
    for every string input the output contains neither ['<'] nor ['>'];
    and the output has no surrounding white space whenever the trimmed
    input neither starts nor ends with an angle bracket. *)
Theorem sanitizeString_guarantee :
  (forall v : JsVal, typeof v <> TString -> Validation.sanitizeString v = EmptyString)
  /\ (forall s : string,
        SanitizeFacts.no_angle (Validation.sanitizeString (JsString s)) = true)
  /\ (forall s : string,
        SanitizeFacts.edge SanitizeFacts.not_angle
          (SanitizeFacts.first_char (trim s)) = true ->
        SanitizeFacts.edge SanitizeFacts.not_angle
          (SanitizeFacts.last_char (trim s)) = true ->
        SanitizeFacts.no_surrounding_ws (Validation.sanitizeString (JsString s)) = true).
Proof.
  split.
  { intros v Hv. destruct v; try reflexivity. contradiction Hv. reflexivity. }
  split.
  { intros s. apply SanitizeFacts.sanitize_chain_no_angle. }
  intros s. apply SanitizeFacts.sanitize_chain_trimmed.
Qed.

(** The sanitizer theorem at [null], at [123] and at ["  a < b  "]. *)
Lemma sanitizeString_guarantee_witness :
  Validation.sanitizeString JsNull = EmptyString
  /\ Validation.sanitizeString (JsNumber 123) = EmptyString
  /\ SanitizeFacts.no_surrounding_ws
       (Validation.sanitizeString (JsString "  a < b  ")) = true.
Proof.
  destruct sanitizeString_guarantee as (Hnon & _ & Htrim).
  split; [apply Hnon; discriminate|].
  split; [apply Hnon; discriminate|].
  apply Htrim; reflexivity.
Defined.

(* ================================================================== *)
(** * The reference implementation meets the jsonwebtoken contract     *)
(* ================================================================== *)

Module JwtModelFacts.
Import JwtModel StringFacts.

(** No occurrence of the separator. *)
Definition sep_free (sep : ascii) (s : string) : bool :=
  str_forall (fun c => negb (Ascii.eqb c sep)) s.

(** *** Hexadecimal text *)

Lemma hex_pair (c : ascii) :
  let hi := hex_digit (code c / 16) in
  let lo := hex_digit (code c mod 16) in
  digit_val 16 hi = Some (code c / 16)
  /\ digit_val 16 lo = Some (code c mod 16)
  /\ ascii_of_N (Z.to_N (code c / 16 * 16 + code c mod 16)) = c
  /\ Ascii.eqb hi "." = false /\ Ascii.eqb lo "." = false
  /\ Ascii.eqb hi "," = false /\ Ascii.eqb lo "," = false.
Proof.
  destruct c as [[] [] [] [] [] [] [] []]; vm_compute; repeat split; reflexivity.
Qed.

Lemma unhex_hex (s : string) : unhex (hex s) = Some s.
Proof.
  induction s as [|c r IH]; [reflexivity|].
  destruct (hex_pair c) as (Hhi & Hlo & Hc & _).
  cbn [hex unhex]. rewrite Hhi, Hlo, IH. cbn [mbind option_bind]. now rewrite Hc.
Qed.

Lemma hex_no_dot (s : string) : sep_free "." (hex s) = true.
Proof.
  induction s as [|c r IH]; [reflexivity|].
  destruct (hex_pair c) as (_ & _ & _ & Hhi & Hlo & _).
  unfold sep_free in *. cbn [hex str_forall]. now rewrite Hhi, Hlo, IH.
Qed.

Lemma hex_no_comma (s : string) : sep_free "," (hex s) = true.
Proof.
  induction s as [|c r IH]; [reflexivity|].
  destruct (hex_pair c) as (_ & _ & _ & _ & _ & Hhi & Hlo).
  unfold sep_free in *. cbn [hex str_forall]. now rewrite Hhi, Hlo, IH.
Qed.

Lemma undec_dec (z : Z) : undec (dec z) = Some z.
Proof.
  unfold undec, dec. rewrite DecimalString.NilEmpty.isi. cbn [fmap option_fmap option_map].
  now rewrite DecimalZ.of_to.
Qed.

(** *** Splitting *)

Lemma split_on_sep_free (sep : ascii) (s : string) :
  sep_free sep s = true -> split_on sep s = [s].
Proof.
  unfold sep_free. induction s as [|c r IH]; [reflexivity|].
  cbn [str_forall split_on]. intros H. apply andb_true_iff in H as [Hc Hr].
  apply negb_true_iff in Hc. rewrite Hc, (IH Hr). reflexivity.
Qed.

Lemma split_on_app (sep : ascii) (a b : string) :
  sep_free sep a = true ->
  split_on sep (a +:+ String sep EmptyString +:+ b) = a :: split_on sep b.
Proof.
  unfold sep_free. induction a as [|c r IH].
  - intros _. rewrite str_app_nil, str_app_cons, str_app_nil.
    cbn [split_on]. now rewrite Ascii.eqb_refl.
  - cbn [str_forall]. intros H. apply andb_true_iff in H as [Hc Hr].
    apply negb_true_iff in Hc. rewrite str_app_cons. cbn [split_on].
    rewrite Hc, (IH Hr). reflexivity.
Qed.

Lemma sep_free_app (sep : ascii) (a b : string) :
  sep_free sep (a +:+ b) = sep_free sep a && sep_free sep b.
Proof. apply str_forall_app. Qed.

(** *** Claims *)

Lemma decode_encode (c : Jwt.Claims) : decode_claims (encode_claims c) = Some c.
Proof.
  unfold decode_claims, encode_claims.
  rewrite !split_on_app by apply hex_no_comma.
  rewrite split_on_sep_free by apply hex_no_comma.
  rewrite !unhex_hex. cbn [mbind option_bind]. rewrite !undec_dec.
  now destruct c.
Qed.

Lemma encode_no_dot (c : Jwt.Claims) : sep_free "." (encode_claims c) = true.
Proof.
  unfold encode_claims. rewrite !sep_free_app, !hex_no_dot. reflexivity.
Qed.

(** *** The contract *)

Lemma token_parts (mac : string -> string -> string) (secret : string) (c : Jwt.Claims) :
  let body := header +:+ "." +:+ encode_claims c in
  split_on "." (body +:+ "." +:+ signature mac secret body)
  = [header; encode_claims c; signature mac secret body].
Proof.
  intros body. subst body.
  set (sg := signature mac secret _).
  rewrite !str_app_assoc.
  rewrite split_on_app by reflexivity.
  rewrite split_on_app by apply encode_no_dot.
  rewrite split_on_sep_free by apply hex_no_dot.
  reflexivity.
Qed.

Lemma verify_body (mac : string -> string -> string) (secret : string)
    (c : Jwt.Claims) (now : Z) :
  let body := header +:+ "." +:+ encode_claims c in
  verify mac (body +:+ "." +:+ signature mac secret body) secret now =
    if Jwt.exp c <=? now then Throw Jwt.TokenExpiredError else Ok c.
Proof.
  intros body. unfold verify. subst body.
  rewrite token_parts, decode_encode.
  rewrite !String.eqb_refl. reflexivity.
Qed.

Theorem lib_meets_contract (mac : string -> string -> string) :
  Jwt.Contract (lib mac).
Proof.
  split.
  - intros p secret span d now Hsecret Hspan. cbn [lib Jwt.sign Jwt.timespan] in *.
    unfold sign. apply String.eqb_neq in Hsecret. rewrite Hsecret, Hspan. eauto.
  - intros p secret span d now t now' Hsign Hspan. cbn [lib Jwt.sign Jwt.timespan Jwt.verify] in *.
    unfold sign in Hsign. rewrite Hspan in Hsign.
    destruct (String.eqb secret EmptyString); [discriminate|].
    injection Hsign as <-. apply verify_body.
Qed.

End JwtModelFacts.

(* ================================================================== *)
(** * Properties of the token service                                  *)
(* ================================================================== *)

Module TokenFacts.
Import AuthUtils.

Lemma str_or_nonempty (x : option string) (d : string) :
  d <> EmptyString -> str_or x d <> EmptyString.
Proof.
  intros Hd. unfold str_or. destruct x as [s|]; [|exact Hd].
  cbn [truthy_str]. destruct (String.eqb_spec s EmptyString); cbn [negb]; assumption.
Qed.

Lemma JWT_SECRET_nonempty (env : Env) : JWT_SECRET env <> EmptyString.
Proof. apply str_or_nonempty. discriminate. Qed.

(** [verifyToken] passes a success on and turns every failure into the
    same error. *)
Lemma verifyToken_unfold (J : Jwt.Lib) (env : Env) (now : Z) (token : string) :
  verifyToken J env now token =
    match Jwt.verify J token (JWT_SECRET env) now with
    | Ok c => Ok c
    | Throw _ => Throw (Error "Invalid token")
    end.
Proof.
  unfold verifyToken, try_catch. cbn [mbind Result_bind mret Result_ret].
  destruct (Jwt.verify J token (JWT_SECRET env) now); reflexivity.
Qed.

Lemma generateToken_unfold (J : Jwt.Lib) (env : Env) (now : Z) (user : User.Doc) :
  generateToken J env now user =
    match Jwt.sign J
            (Jwt.mkPayload (User._id user) (User.email user) (User.username user)
               (User.role user))
            (JWT_SECRET env) (JWT_EXPIRES_IN env) now with
    | Ok t => Ok t
    | Throw _ => Throw (Error "Failed to generate token")
    end.
Proof.
  unfold generateToken, try_catch. cbn [mbind Result_bind mret Result_ret].
  destruct (Jwt.sign J _ (JWT_SECRET env) (JWT_EXPIRES_IN env) now); reflexivity.
Qed.

(** Issuing succeeds and the token verifies according to the clock. *)
Lemma issue_then_verify (J : Jwt.Lib) (env : Env) (user : User.Doc) (d now : Z) :
  Jwt.Contract J -> Jwt.timespan J (JWT_EXPIRES_IN env) = Some d ->
  exists t,
    generateToken J env now user = Ok t
    /\ forall now',
        verifyToken J env now' t =
          if now + d <=? now' then Throw (Error "Invalid token")
          else Ok (Jwt.claims_of
                     (Jwt.mkPayload (User._id user) (User.email user)
                        (User.username user) (User.role user))
                     now (now + d)).
Proof.
  intros HJ Hspan.
  destruct (Jwt.sign_ok J HJ
              (Jwt.mkPayload (User._id user) (User.email user) (User.username user)
                 (User.role user))
              (JWT_SECRET env) (JWT_EXPIRES_IN env) d now
              (JWT_SECRET_nonempty env) Hspan) as [t Ht].
  exists t. split.
  - rewrite generateToken_unfold, Ht. reflexivity.
  - intros now'. rewrite verifyToken_unfold.
    rewrite (Jwt.verify_sign J HJ _ _ _ _ _ _ now' Ht Hspan).
    destruct (now + d <=? now'); reflexivity.
Qed.

(** The specification's reading: failures of different kinds stay
    different for the caller of [verifyToken]. *)
Definition failure_kinds_distinguishable (J : Jwt.Lib) (env : Env) (now : Z) : Prop :=
  forall (t1 t2 : string) (e1 e2 : JsError),
    Jwt.verify J t1 (JWT_SECRET env) now = Throw e1 ->
    Jwt.verify J t2 (JWT_SECRET env) now = Throw e2 ->
    e1 <> e2 ->
    verifyToken J env now t1 <> verifyToken J env now t2.

(** Concrete data for closed instances. *)
Definition test_user : User.Doc :=
  User.mkDoc (User.ObjectId "507f1f77bcf86cd799439011") "test@example.com"
    "testuser" "user" true (Some "hashed").

Definition test_env : Env := mkEnv (Some "test-secret-key") (Some "1h").
Definition zero_life_env : Env := mkEnv (Some "test-secret-key") (Some "0s").

(** The token issued at time 1000 under [env], or the empty text. *)
Definition issued (env : Env) : string :=
  match generateToken JwtModel.fnv_lib env 1000 test_user with
  | Ok t => t
  | Throw _ => EmptyString
  end.

Definition test_token : string := Eval vm_compute in issued test_env.
Definition zero_life_token : string := Eval vm_compute in issued zero_life_env.

(** The claims that token carries. *)
Definition test_claims : Jwt.Claims :=
  Jwt.mkClaims "507f1f77bcf86cd799439011" "test@example.com" "testuser" "user"
    1000 4600.

(** A token whose signature segment was replaced. *)
Definition forged_token : string :=
  Eval vm_compute in
    match JwtModel.split_on "." test_token with
    | [h; b; _] => h +:+ "." +:+ b +:+ "." +:+ "00"
    | _ => EmptyString
    end.

End TokenFacts.

(** C1. Round trip: under the jsonwebtoken contract and a readable
    configured lifetime, issuing a token for any identity succeeds, and
    verifying it before it expires succeeds and yields the claims id, email,
    username and role of that identity (the id in its canonical string
    form), with [iat] the time of issue and [exp] the time of expiry. *)
Theorem token_round_trip (J : Jwt.Lib) (env : AuthUtils.Env) (user : User.Doc)
    (d now now' : Z) :
  Jwt.Contract J ->
  Jwt.timespan J (AuthUtils.JWT_EXPIRES_IN env) = Some d ->
  now' < now + d ->
  exists (t : string) (c : Jwt.Claims),
    AuthUtils.generateToken J env now user = Ok t
    /\ AuthUtils.verifyToken J env now' t = Ok c
    /\ Jwt.id c = User.toString (User._id user)
    /\ Jwt.email c = User.email user
    /\ Jwt.username c = User.username user
    /\ Jwt.role c = User.role user
    /\ Jwt.iat c = now
    /\ Jwt.exp c = now + d.
Proof.
  intros HJ Hspan Hlive.
  destruct (TokenFacts.issue_then_verify J env user d now HJ Hspan) as (t & Hgen & Hver).
  exists t. eexists. split; [exact Hgen|]. split.
  - rewrite Hver. destruct (Z.leb_spec (now + d) now'); [lia | reflexivity].
  - repeat split.
Qed.

(** The round trip at the reference implementation: a token issued at
    time 1000 with lifetime ["1h"] and verified at time 1001. *)
Lemma token_round_trip_witness :
  exists (t : string) (c : Jwt.Claims),
    AuthUtils.generateToken JwtModel.fnv_lib TokenFacts.test_env 1000 TokenFacts.test_user = Ok t
    /\ AuthUtils.verifyToken JwtModel.fnv_lib TokenFacts.test_env 1001 t = Ok c
    /\ Jwt.id c = "507f1f77bcf86cd799439011"
    /\ Jwt.email c = "test@example.com"
    /\ Jwt.username c = "testuser"
    /\ Jwt.role c = "user"
    /\ Jwt.iat c = 1000
    /\ Jwt.exp c = 1000 + 3600.
Proof.
  apply (token_round_trip JwtModel.fnv_lib TokenFacts.test_env TokenFacts.test_user
           3600 1000 1001).
  - apply JwtModelFacts.lib_meets_contract.
  - reflexivity.
  - lia.
Defined.

(** The caller of [verifyToken] cannot tell the failure kinds apart: a
    malformed text, an expired token and a token with a forged signature,
    which jsonwebtoken rejects with three different errors, all end in the
    same [Error("Invalid token")]. *)
Lemma verifyToken_coalesces_failures :
  let J := JwtModel.fnv_lib in
  let env := TokenFacts.test_env in
  let secret := AuthUtils.JWT_SECRET env in
  Jwt.verify J "invalid-token" secret 1001 = Throw Jwt.jwt_malformed
  /\ Jwt.verify J TokenFacts.zero_life_token secret 1001 = Throw Jwt.TokenExpiredError
  /\ Jwt.verify J TokenFacts.forged_token secret 1001 = Throw Jwt.invalid_signature
  /\ AuthUtils.verifyToken J env 1001 "invalid-token" = Throw (Error "Invalid token")
  /\ AuthUtils.verifyToken J env 1001 TokenFacts.zero_life_token = Throw (Error "Invalid token")
  /\ AuthUtils.verifyToken J env 1001 TokenFacts.forged_token = Throw (Error "Invalid token")
  /\ ~ TokenFacts.failure_kinds_distinguishable J env 1001.
Proof.
  intros J env secret.
  assert (H1 : Jwt.verify J "invalid-token" secret 1001 = Throw Jwt.jwt_malformed)
    by (vm_compute; reflexivity).
  assert (H2 : Jwt.verify J TokenFacts.zero_life_token secret 1001
               = Throw Jwt.TokenExpiredError) by (vm_compute; reflexivity).
  assert (H3 : Jwt.verify J TokenFacts.forged_token secret 1001
               = Throw Jwt.invalid_signature) by (vm_compute; reflexivity).
  do 3 (split; [assumption|]).
  do 3 (split; [vm_compute; reflexivity|]).
  intros Hclaim.
  apply (Hclaim "invalid-token" TokenFacts.zero_life_token _ _ H1 H2).
  - discriminate.
  - vm_compute. reflexivity.
Qed.

(** C2 (amended). For every input string, [verifyToken] fails with the
    one error [Error("Invalid token")] whenever jsonwebtoken rejects the
    string, whatever the kind of the rejection (malformed, expired, invalid
    signature), and otherwise returns the embedded claims unchanged; a
    token issued with lifetime 0 fails with that error from the moment it
    is issued. *)
Theorem verifyToken_outcomes (J : Jwt.Lib) (env : AuthUtils.Env) (now : Z)
    (token : string) :
  (forall e : JsError,
      Jwt.verify J token (AuthUtils.JWT_SECRET env) now = Throw e ->
      AuthUtils.verifyToken J env now token = Throw (Error "Invalid token"))
  /\ (forall c : Jwt.Claims,
      Jwt.verify J token (AuthUtils.JWT_SECRET env) now = Ok c ->
      AuthUtils.verifyToken J env now token = Ok c)
  /\ (Jwt.Contract J ->
      Jwt.timespan J (AuthUtils.JWT_EXPIRES_IN env) = Some 0 ->
      forall (user : User.Doc) (now' : Z), now <= now' ->
      exists t : string,
        AuthUtils.generateToken J env now user = Ok t
        /\ AuthUtils.verifyToken J env now' t = Throw (Error "Invalid token")).
Proof.
  split; [|split].
  - intros e He. rewrite TokenFacts.verifyToken_unfold, He. reflexivity.
  - intros c Hc. rewrite TokenFacts.verifyToken_unfold, Hc. reflexivity.
  - intros HJ Hspan user now' Hle.
    destruct (TokenFacts.issue_then_verify J env user 0 now HJ Hspan) as (t & Hgen & Hver).
    exists t. split; [exact Hgen|].
    rewrite Hver. destruct (Z.leb_spec (now + 0) now'); [reflexivity | lia].
Qed.

(** The outcomes of [verifyToken] at the reference implementation: a
    malformed text, a valid token, and a token of lifetime 0 checked at the
    time of issue. *)
Lemma verifyToken_outcomes_witness :
  AuthUtils.verifyToken JwtModel.fnv_lib TokenFacts.zero_life_env 1000 "invalid-token"
  = Throw (Error "Invalid token")
  /\ (exists c : Jwt.Claims,
        AuthUtils.verifyToken JwtModel.fnv_lib TokenFacts.test_env 1001 TokenFacts.test_token
        = Ok c)
  /\ exists t : string,
       AuthUtils.generateToken JwtModel.fnv_lib TokenFacts.zero_life_env 1000
         TokenFacts.test_user = Ok t
       /\ AuthUtils.verifyToken JwtModel.fnv_lib TokenFacts.zero_life_env 1000 t
          = Throw (Error "Invalid token").
Proof.
  split; [|split].
  - apply (verifyToken_outcomes JwtModel.fnv_lib TokenFacts.zero_life_env 1000
             "invalid-token") with (e := Jwt.jwt_malformed).
    vm_compute. reflexivity.
  - eexists.
    apply (verifyToken_outcomes JwtModel.fnv_lib TokenFacts.test_env 1001
             TokenFacts.test_token).
    vm_compute. reflexivity.
  - apply (verifyToken_outcomes JwtModel.fnv_lib TokenFacts.zero_life_env 1000
             "invalid-token").
    + apply JwtModelFacts.lib_meets_contract.
    + reflexivity.
    + lia.
Defined.

(* ================================================================== *)
(** * Properties of identity resolution and of the middleware          *)
(* ================================================================== *)

Module LookupFacts.
Import AuthUtils.

(** The body of [getCurrentUser] once the token has verified. *)
Definition after_lookup (found : Result (option User.Doc)) : Result (option User.Doc) :=
  match found with
  | Ok (Some u) =>
      if User.isActive u then Ok (Some (User.select_minus_password u)) else Ok None
  | Ok None => Ok None
  | Throw _ => Ok None
  end.

Lemma getCurrentUser_unfold (J : Jwt.Lib) (env : Env)
    (findById : string -> Result (option User.Doc)) (now : Z) (token : string) :
  getCurrentUser J env findById now token =
    match verifyToken J env now token with
    | Ok c => after_lookup (findById (Jwt.id c))
    | Throw _ => Ok None
    end.
Proof.
  unfold getCurrentUser, try_catch, after_lookup.
  destruct (verifyToken J env now token) as [c|e]; [|reflexivity].
  cbn [mbind Result_bind].
  destruct (findById (Jwt.id c)) as [[u|]|e]; try reflexivity.
  cbn [mbind Result_bind mret Result_ret fmap option_fmap option_map
       User.select_minus_password User.isActive].
  destruct (User.isActive u); reflexivity.
Qed.

(** Whatever the store does, [getCurrentUser] returns. *)
Lemma getCurrentUser_returns (J : Jwt.Lib) (env : Env)
    (findById : string -> Result (option User.Doc)) (now : Z) (token : string) :
  exists r, getCurrentUser J env findById now token = Ok r.
Proof.
  rewrite getCurrentUser_unfold.
  destruct (verifyToken J env now token) as [c|e]; [|eauto].
  unfold after_lookup. destruct (findById (Jwt.id c)) as [[u|]|e']; eauto.
  destruct (User.isActive u); eauto.
Qed.

(** A store without a record for any id. *)
Definition empty_store : string -> Result (option User.Doc) := fun _ => Ok None.

(** A store that holds the deactivated test user under every id. *)
Definition inactive_user : User.Doc :=
  User.mkDoc (User.ObjectId "507f1f77bcf86cd799439011") "test@example.com"
    "testuser" "user" false (Some "hashed").

Definition inactive_store : string -> Result (option User.Doc) :=
  fun _ => Ok (Some inactive_user).

(** A store that is down. *)
Definition failing_store : string -> Result (option User.Doc) :=
  fun _ => Throw (Error "Database error").

End LookupFacts.

(** C8. Identity resolution returns none for dead accounts: for every
    token that verifies, [getCurrentUser] returns [null] when the store
    has no record for the embedded id and when the record's [isActive] flag
    is false; an identity is returned only for an active record, and then
    without the stored password. *)
Theorem getCurrentUser_dead_accounts (J : Jwt.Lib) (env : AuthUtils.Env)
    (findById : string -> Result (option User.Doc)) (now : Z)
    (token : string) (c : Jwt.Claims) :
  AuthUtils.verifyToken J env now token = Ok c ->
  (findById (Jwt.id c) = Ok None ->
     AuthUtils.getCurrentUser J env findById now token = Ok None)
  /\ (forall u : User.Doc,
        findById (Jwt.id c) = Ok (Some u) -> User.isActive u = false ->
        AuthUtils.getCurrentUser J env findById now token = Ok None)
  /\ (forall u' : User.Doc,
        AuthUtils.getCurrentUser J env findById now token = Ok (Some u') ->
        exists u : User.Doc,
          findById (Jwt.id c) = Ok (Some u) /\ User.isActive u = true
          /\ u' = User.select_minus_password u /\ User.password u' = None).
Proof.
  intros Hver. rewrite LookupFacts.getCurrentUser_unfold, Hver.
  unfold LookupFacts.after_lookup.
  split; [|split].
  - intros ->. reflexivity.
  - intros u -> ->. reflexivity.
  - intros u'. destruct (findById (Jwt.id c)) as [[u|]|e]; try discriminate.
    destruct (User.isActive u) eqn:Hact; [|discriminate].
    intros [= <-]. exists u. repeat split. exact Hact.
Qed.

(** Identity resolution on a verified token against a store without the
    record and against a store whose record is deactivated. *)
Lemma getCurrentUser_dead_accounts_witness :
  AuthUtils.getCurrentUser JwtModel.fnv_lib TokenFacts.test_env LookupFacts.empty_store
    1001 TokenFacts.test_token = Ok None
  /\ AuthUtils.getCurrentUser JwtModel.fnv_lib TokenFacts.test_env
       LookupFacts.inactive_store 1001 TokenFacts.test_token = Ok None.
Proof.
  assert (Hver : AuthUtils.verifyToken JwtModel.fnv_lib TokenFacts.test_env 1001
                   TokenFacts.test_token = Ok TokenFacts.test_claims)
    by (vm_compute; reflexivity).
  split.
  - destruct (getCurrentUser_dead_accounts JwtModel.fnv_lib TokenFacts.test_env
                LookupFacts.empty_store 1001 TokenFacts.test_token
                TokenFacts.test_claims Hver) as (Hnone & _).
    apply Hnone. reflexivity.
  - destruct (getCurrentUser_dead_accounts JwtModel.fnv_lib TokenFacts.test_env
                LookupFacts.inactive_store 1001 TokenFacts.test_token
                TokenFacts.test_claims Hver) as (_ & Hinactive & _).
    apply (Hinactive LookupFacts.inactive_user); reflexivity.
Defined.

Module MiddlewareFacts.
Import Middleware.

(** The credential the middleware reads from a request. *)
Definition bearer (req : Request) : option string :=
  AuthUtils.extractTokenFromHeader (headers req !! "authorization").

(** The lookup result that decides [optionalAuth]: nothing without a
    usable credential. *)
Definition resolved (g : string -> Result (option User.Doc)) (req : Request)
  : Result (option User.Doc) :=
  match bearer req with
  | Some t => if truthy_str (Some t) then g t else Ok None
  | None => Ok None
  end.

Lemma optionalAuth_unfold (g : string -> Result (option User.Doc)) (req : Request) :
  optionalAuth g req =
    match resolved g req with
    | Ok (Some u) => Next (set_user req u)
    | Ok None => Next req
    | Throw _ => Next req
    end.
Proof.
  unfold optionalAuth, resolved, bearer, guarded.
  destruct (AuthUtils.extractTokenFromHeader (headers req !! "authorization")) as [t|];
    [|reflexivity].
  destruct (truthy_str (Some t)); [|reflexivity].
  destruct (g t) as [[u|]|e]; reflexivity.
Qed.

(** Access was granted: the middleware called [next()]. *)
Definition granted (o : Outcome) : bool :=
  match o with
  | Next _ => true
  | Respond _ _ => false
  end.

Lemma requireOwner_present (getResourceUserId : Request -> option User.Id)
    (req : Request) (u : User.Doc) (rid : User.Id) :
  user req = Some u -> getResourceUserId req = Some rid ->
  User.truthy_id (Some rid) = true ->
  requireOwner getResourceUserId req =
    if String.eqb (User.toString (User._id u)) (User.toString rid)
       || String.eqb (User.role u) "admin"
    then Next req else Respond 403 "Access denied".
Proof.
  intros Hu Hrid Htruthy. unfold requireOwner. rewrite Hu, Hrid, Htruthy.
  cbn [negb].
  destruct (String.eqb (User.toString (User._id u)) (User.toString rid));
    destruct (String.eqb (User.role u) "admin"); reflexivity.
Qed.

Lemma isOwner_present (u : User.Doc) (rid : User.Id) :
  User.truthy_id (Some rid) = true ->
  AuthUtils.isOwner (Some u) (Some rid) =
    String.eqb (User.toString (User._id u)) (User.toString rid).
Proof. intros H. unfold AuthUtils.isOwner. rewrite H. reflexivity. Qed.

Lemma isAdmin_present (u : User.Doc) :
  AuthUtils.isAdmin (Some u) = String.eqb (User.role u) "admin".
Proof.
  unfold AuthUtils.isAdmin, AuthUtils.hasRole. cbn [AuthUtils.role_list existsb].
  apply orb_false_r.
Qed.

(** Requests used for closed instances. *)
Definition bearer_request : Request :=
  mkRequest {[ "authorization" := "Bearer " +:+ TokenFacts.test_token ]} None.

Definition owner_request (u : User.Doc) : Request := mkRequest ∅ (Some u).

Definition plain_user : User.Doc :=
  User.mkDoc (User.IdString "507f1f77bcf86cd799439011") "test@example.com"
    "testuser" "user" true None.

Definition admin_user : User.Doc :=
  User.mkDoc (User.IdString "507f1f77bcf86cd799439099") "root@example.com"
    "root" "admin" true None.

End MiddlewareFacts.

(** C7. Owner-or-admin gate: for every resolved identity and every
    present resource owner id, [requireOwner] lets the request through if
    and only if the string form of the identity's id equals the string form
    of the owner id or the identity's role is "admin" (equivalently,
    [isOwner] or [isAdmin] holds), and answers 403 otherwise; the decision
    depends on the ids only through their string forms, so a plain string
    and a boxed id with the same text are treated alike. *)
Theorem requireOwner_owner_or_admin
    (getResourceUserId : Middleware.Request -> option User.Id)
    (req : Middleware.Request) (u : User.Doc) (rid : User.Id) :
  Middleware.user req = Some u ->
  getResourceUserId req = Some rid ->
  User.truthy_id (Some rid) = true ->
  (Middleware.requireOwner getResourceUserId req = Middleware.Next req
   <-> (User.toString (User._id u) = User.toString rid \/ User.role u = "admin"))
  /\ (Middleware.requireOwner getResourceUserId req = Middleware.Next req
      <-> (AuthUtils.isOwner (Some u) (Some rid) = true
           \/ AuthUtils.isAdmin (Some u) = true))
  /\ (Middleware.requireOwner getResourceUserId req = Middleware.Next req
      \/ Middleware.requireOwner getResourceUserId req
         = Middleware.Respond 403 "Access denied")
  /\ (forall (getResourceUserId' : Middleware.Request -> option User.Id)
             (req' : Middleware.Request) (u' : User.Doc) (rid' : User.Id),
        Middleware.user req' = Some u' ->
        getResourceUserId' req' = Some rid' ->
        User.truthy_id (Some rid') = true ->
        User.toString (User._id u') = User.toString (User._id u) ->
        User.toString rid' = User.toString rid ->
        User.role u' = User.role u ->
        MiddlewareFacts.granted (Middleware.requireOwner getResourceUserId' req')
        = MiddlewareFacts.granted (Middleware.requireOwner getResourceUserId req)).
Proof.
  intros Hu Hrid Htruthy.
  rewrite (MiddlewareFacts.requireOwner_present _ _ _ _ Hu Hrid Htruthy).
  rewrite (MiddlewareFacts.isOwner_present u rid Htruthy), MiddlewareFacts.isAdmin_present.
  assert (Hdec : String.eqb (User.toString (User._id u)) (User.toString rid)
                 || String.eqb (User.role u) "admin" = true
                 <-> (User.toString (User._id u) = User.toString rid
                      \/ User.role u = "admin")).
  { rewrite orb_true_iff, !String.eqb_eq. reflexivity. }
  split; [|split; [|split]].
  - rewrite <- Hdec.
    destruct (String.eqb (User.toString (User._id u)) (User.toString rid)
              || String.eqb (User.role u) "admin");
      split; intros H; try reflexivity; discriminate H.
  - rewrite <- orb_true_iff.
    destruct (String.eqb (User.toString (User._id u)) (User.toString rid)
              || String.eqb (User.role u) "admin");
      split; intros H; try reflexivity; discriminate H.
  - destruct (String.eqb (User.toString (User._id u)) (User.toString rid)
              || String.eqb (User.role u) "admin"); [left | right]; reflexivity.
  - intros g' req' u' rid' Hu' Hrid' Htruthy' Hid Howner Hrole.
    rewrite (MiddlewareFacts.requireOwner_present _ _ _ _ Hu' Hrid' Htruthy').
    rewrite Hid, Howner, Hrole.
    destruct (String.eqb (User.toString (User._id u)) (User.toString rid)
              || String.eqb (User.role u) "admin"); reflexivity.
Qed.

(** The gate for an owner whose id is a plain string while the resource
    carries the boxed id with the same text, and for an admin who is not
    the owner. *)
Lemma requireOwner_owner_or_admin_witness :
  Middleware.requireOwner
    (fun _ => Some (User.ObjectId "507f1f77bcf86cd799439011"))
    (MiddlewareFacts.owner_request MiddlewareFacts.plain_user)
  = Middleware.Next (MiddlewareFacts.owner_request MiddlewareFacts.plain_user)
  /\ Middleware.requireOwner
       (fun _ => Some (User.IdString "507f1f77bcf86cd799439011"))
       (MiddlewareFacts.owner_request MiddlewareFacts.admin_user)
     = Middleware.Next (MiddlewareFacts.owner_request MiddlewareFacts.admin_user).
Proof.
  split.
  - apply (requireOwner_owner_or_admin
             (fun _ => Some (User.ObjectId "507f1f77bcf86cd799439011"))
             (MiddlewareFacts.owner_request MiddlewareFacts.plain_user)
             MiddlewareFacts.plain_user
             (User.ObjectId "507f1f77bcf86cd799439011") eq_refl eq_refl eq_refl).
    left. reflexivity.
  - apply (requireOwner_owner_or_admin
             (fun _ => Some (User.IdString "507f1f77bcf86cd799439011"))
             (MiddlewareFacts.owner_request MiddlewareFacts.admin_user)
             MiddlewareFacts.admin_user
             (User.IdString "507f1f77bcf86cd799439011") eq_refl eq_refl eq_refl).
    right. reflexivity.
Defined.

(** C9. Optional authentication never aborts: for every request and
    every behaviour of the identity lookup, [optionalAuth] calls [next()].
    The request is handed on unchanged (anonymous) when there is no usable
    credential, when the lookup returns nothing and when the lookup throws;
    it carries a user only when the lookup returned one. With the
    [getCurrentUser] of utils/auth.js a failing store therefore leaves every
    request anonymous. *)
Theorem optionalAuth_never_aborts
    (getCurrentUser : string -> Result (option User.Doc)) (req : Middleware.Request) :
  (exists req' : Middleware.Request,
      Middleware.optionalAuth getCurrentUser req = Middleware.Next req')
  /\ (forall e : JsError,
        MiddlewareFacts.resolved getCurrentUser req = Throw e ->
        Middleware.optionalAuth getCurrentUser req = Middleware.Next req)
  /\ (MiddlewareFacts.resolved getCurrentUser req = Ok None ->
        Middleware.optionalAuth getCurrentUser req = Middleware.Next req)
  /\ (forall u : User.Doc,
        MiddlewareFacts.resolved getCurrentUser req = Ok (Some u) ->
        Middleware.optionalAuth getCurrentUser req
        = Middleware.Next (Middleware.set_user req u))
  /\ (forall (J : Jwt.Lib) (env : AuthUtils.Env)
             (findById : string -> Result (option User.Doc)) (now : Z),
        (forall id : string, exists e : JsError, findById id = Throw e) ->
        Middleware.optionalAuth (AuthUtils.getCurrentUser J env findById now) req
        = Middleware.Next req).
Proof.
  split; [|split; [|split; [|split]]].
  - rewrite MiddlewareFacts.optionalAuth_unfold.
    destruct (MiddlewareFacts.resolved getCurrentUser req) as [[u|]|e]; eauto.
  - intros e He. rewrite MiddlewareFacts.optionalAuth_unfold, He. reflexivity.
  - intros Hn. rewrite MiddlewareFacts.optionalAuth_unfold, Hn. reflexivity.
  - intros u Hu. rewrite MiddlewareFacts.optionalAuth_unfold, Hu. reflexivity.
  - intros J env findById now Hdown.
    rewrite MiddlewareFacts.optionalAuth_unfold.
    assert (Hnone : forall t, AuthUtils.getCurrentUser J env findById now t = Ok None).
    { intros t. rewrite LookupFacts.getCurrentUser_unfold.
      destruct (AuthUtils.verifyToken J env now t) as [c|e]; [|reflexivity].
      destruct (Hdown (Jwt.id c)) as [e He]. rewrite He. reflexivity. }
    unfold MiddlewareFacts.resolved.
    destruct (MiddlewareFacts.bearer req) as [t|]; [|reflexivity].
    destruct (truthy_str (Some t)); [|reflexivity].
    rewrite Hnone. reflexivity.
Qed.

(** Optional authentication on a request with a valid bearer token while
    the lookup throws, and while the store behind [getCurrentUser] is down. *)
Lemma optionalAuth_never_aborts_witness :
  Middleware.optionalAuth (fun _ => Throw (Error "Database error"))
    MiddlewareFacts.bearer_request
  = Middleware.Next MiddlewareFacts.bearer_request
  /\ Middleware.optionalAuth
       (AuthUtils.getCurrentUser JwtModel.fnv_lib TokenFacts.test_env
          LookupFacts.failing_store 1001)
       MiddlewareFacts.bearer_request
     = Middleware.Next MiddlewareFacts.bearer_request.
Proof.
  split.
  - apply (optionalAuth_never_aborts (fun _ => Throw (Error "Database error"))
             MiddlewareFacts.bearer_request) with (e := Error "Database error").
    vm_compute. reflexivity.
  - apply (optionalAuth_never_aborts (fun _ => Ok None) MiddlewareFacts.bearer_request).
    intros id. exists (Error "Database error"). reflexivity.
Defined.

(* ================================================================== *)
(** * Further functions of server/src/utils/validation.js              *)
(* ================================================================== *)

Module ValidationMore.
Import Validation.

(** [s.substring(0, n)] for a literal [n >= 0] *)
Fixpoint substring_to (n : nat) (s : string) : string :=
  match n, s with
  | O, _ => EmptyString
  | S _, EmptyString => EmptyString
  | S n', String c r => String c (substring_to n' r)
  end.

(** [typeof v !== 'string'] *)
Definition not_a_string (v : JsVal) : bool :=
  match typeof v with
  | TString => false
  | _ => true
  end.

Definition validateSearchQuery (search : JsVal) : string :=
  if negb (truthy search) || not_a_string search then EmptyString
  else substring_to 100 (sanitizeString search).

(** The characters the sanitizer removes or escapes, except the ampersand,
    which its own entities bring back: the angle brackets, the double
    quote, the apostrophe and the slash. *)
Definition markup_chars : string := String (ascii_of_nat 34) "<>'/".

Definition no_markup (s : string) : bool :=
  str_forall (fun c => negb (char_in markup_chars c)) s.

(** A text the sanitizer has nothing to do on: none of the markup
    characters, no ampersand, and no white space at either end. *)
Definition plain_chars : string := String (ascii_of_nat 34) "<>&'/".

Definition is_plain (s : string) : bool :=
  str_forall (fun c => negb (char_in plain_chars c)) s
  && SanitizeFacts.no_surrounding_ws s.

End ValidationMore.

Module ValidationMoreFacts.
Import Validation ValidationMore StringFacts SanitizeFacts.

(** *** Prefixes *)

Lemma substring_to_length (n : nat) (s : string) :
  (String.length (substring_to n s) <= n)%nat.
Proof.
  revert s. induction n as [|n IH]; intros [|c r]; simpl; try lia.
  specialize (IH r). lia.
Qed.

Lemma substring_to_prefix (n : nat) (s : string) :
  String.prefix (substring_to n s) s = true.
Proof.
  revert s. induction n as [|n IH]; intros [|c r]; simpl; try reflexivity.
  destruct (ascii_dec c c) as [_|Hne]; [apply IH | contradiction].
Qed.

Lemma substring_to_forall (p : ascii -> bool) (n : nat) (s : string) :
  str_forall p s = true -> str_forall p (substring_to n s) = true.
Proof.
  revert s. induction n as [|n IH]; intros [|c r]; simpl; try reflexivity.
  intros H. apply andb_true_iff in H as [Hc Hr]. rewrite Hc. now apply IH.
Qed.

(** *** No markup character survives *)

(** Removing or escaping the class [cs] turns "free of [before]" into
    "free of [after]" when [after] adds at most [cs] to [before] and the
    replacement text is free of [after]. *)
Lemma replace_frees (cs rep before after s : string) :
  (forall c, negb (char_in before c) = true ->
             char_in cs c || negb (char_in after c) = true) ->
  str_forall (fun c => negb (char_in after c)) rep = true ->
  str_forall (fun c => negb (char_in before c)) s = true ->
  str_forall (fun c => negb (char_in after c)) (replace_class cs rep s) = true.
Proof.
  intros Hstep Hrep Hs. apply str_forall_replace; [exact Hrep|].
  revert Hs. apply str_forall_weaken. exact Hstep.
Qed.

Ltac by_cases_on_char :=
  let c := fresh "c" in
  intros c; destruct c as [[] [] [] [] [] [] [] []]; vm_compute;
  intros; solve [reflexivity | discriminate].

Lemma sanitize_chain_no_markup (s : string) : no_markup (sanitize_chain s) = true.
Proof.
  unfold no_markup, sanitize_chain, markup_chars.
  apply (replace_frees _ _ (String (ascii_of_nat 34) "<>'")); [by_cases_on_char | reflexivity |].
  apply (replace_frees _ _ (String (ascii_of_nat 34) "<>")); [by_cases_on_char | reflexivity |].
  apply (replace_frees _ _ "<>"); [by_cases_on_char | reflexivity |].
  apply (replace_frees _ _ "<>"); [by_cases_on_char | reflexivity |].
  apply (replace_frees _ _ EmptyString); [by_cases_on_char | reflexivity |].
  clear. induction (trim s) as [|c r IH]; [reflexivity|]. exact IH.
Qed.

Lemma sanitizeString_free (input : JsVal) : no_markup (sanitizeString input) = true.
Proof. destruct input; try reflexivity. apply sanitize_chain_no_markup. Qed.

(** *** Texts the sanitizer leaves alone *)

Lemma trimStart_id (s : string) :
  edge not_ws (first_char s) = true -> trimStart s = s.
Proof.
  destruct s as [|c r]; [reflexivity|]. simpl. unfold not_ws.
  intros H. apply negb_true_iff in H. now rewrite H.
Qed.

Lemma trimEnd_id (s : string) :
  edge not_ws (last_char s) = true -> trimEnd s = s.
Proof.
  induction s as [|c r IH]; [reflexivity|].
  cbn [last_char trimEnd]. destruct (last_char r) as [d|] eqn:E.
  - intros H. rewrite (IH H). destruct r; [discriminate | reflexivity].
  - apply last_char_None in E. subst r. simpl. unfold not_ws.
    intros H. apply negb_true_iff in H. now rewrite H.
Qed.

Lemma trim_id (s : string) : no_surrounding_ws s = true -> trim s = s.
Proof.
  unfold no_surrounding_ws, trim. intros H. apply andb_true_iff in H as [Hf Hl].
  rewrite (trimStart_id s Hf). now apply trimEnd_id.
Qed.

Lemma replace_class_id (cs rep s : string) :
  str_forall (fun c => negb (char_in cs c)) s = true -> replace_class cs rep s = s.
Proof.
  induction s as [|c r IH]; [reflexivity|]. cbn [str_forall replace_class].
  intros H. apply andb_true_iff in H as [Hc Hr]. apply negb_true_iff in Hc.
  rewrite Hc, (IH Hr). reflexivity.
Qed.

Lemma plain_free_of (cs s : string) :
  (forall c, negb (char_in plain_chars c) = true -> negb (char_in cs c) = true) ->
  str_forall (fun c => negb (char_in plain_chars c)) s = true ->
  str_forall (fun c => negb (char_in cs c)) s = true.
Proof. intros H. now apply str_forall_weaken. Qed.

Lemma sanitize_chain_plain (s : string) : is_plain s = true -> sanitize_chain s = s.
Proof.
  unfold is_plain. intros H. apply andb_true_iff in H as [Hchars Hends].
  unfold sanitize_chain. rewrite (trim_id s Hends).
  rewrite (replace_class_id "<>") by (revert Hchars; apply plain_free_of; by_cases_on_char).
  rewrite (replace_class_id "&") by (revert Hchars; apply plain_free_of; by_cases_on_char).
  rewrite (replace_class_id (String (ascii_of_nat 34) EmptyString))
    by (revert Hchars; apply plain_free_of; by_cases_on_char).
  rewrite (replace_class_id "'") by (revert Hchars; apply plain_free_of; by_cases_on_char).
  rewrite (replace_class_id "/") by (revert Hchars; apply plain_free_of; by_cases_on_char).
  reflexivity.
Qed.

(** *** Word characters *)

Lemma word_char_plain (c : ascii) :
  is_word c = true -> negb (char_in plain_chars c) && negb (is_ws c) = true.
Proof. revert c. by_cases_on_char. Qed.

Lemma word_chars_plain (u : string) : str_forall is_word u = true -> is_plain u = true.
Proof.
  intros H. unfold is_plain, no_surrounding_ws. apply andb_true_iff. split.
  - revert H. apply str_forall_weaken. intros c Hc.
    apply word_char_plain in Hc. now apply andb_true_iff in Hc as [? _].
  - assert (Hws : str_forall not_ws u = true).
    { revert H. apply str_forall_weaken. intros c Hc.
      apply word_char_plain in Hc. now apply andb_true_iff in Hc as [_ ?]. }
    apply andb_true_iff. split.
    + destruct u as [|c r]; [reflexivity|]. simpl in *.
      now apply andb_true_iff in Hws as [? _].
    + clear H. induction u as [|c r IH]; [reflexivity|].
      cbn [str_forall] in Hws. apply andb_true_iff in Hws as [Hc Hr].
      cbn [last_char]. specialize (IH Hr).
      destruct (last_char r); [exact IH | exact Hc].
Qed.

End ValidationMoreFacts.

Module AcceptanceFacts.
Import Validation ValidationFacts.

Lemma violated_nil (b : bool) (msg : string) : violated b msg = [] <-> b = false.
Proof. destruct b; simpl; split; intros H; try reflexivity; discriminate. Qed.

Lemma app_nil_iff (a b : list string) : a ++ b = [] <-> a = [] /\ b = [].
Proof.
  split.
  - intros H. now apply app_eq_nil in H.
  - intros [-> ->]. reflexivity.
Qed.

Lemma includes_In (xs : list string) (t : string) : includes xs t = true <-> In t xs.
Proof.
  unfold includes. rewrite existsb_exists. split.
  - intros (x & Hx & Heq). apply String.eqb_eq in Heq. now subst.
  - intros H. exists t. split; [exact H | apply String.eqb_refl].
Qed.

Lemma validateUsername_present (c : ascii) (r : string) :
  let u := String c r in
  validateUsername (Some u) =
    let errs :=
      violated (Z.of_nat (String.length u) <? 3) msg_un_short
      ++ violated (Z.of_nat (String.length u) >? 30) msg_un_long
      ++ violated (negb (only_word_chars u)) msg_un_chars in
    {| isValid := no_errors errs; errors := errs |}.
Proof.
  intros u. unfold validateUsername.
  change (truthy_str (Some u)) with true. cbv iota.
  rewrite !push_violated. cbv zeta. rewrite <- !app_assoc. reflexivity.
Qed.

Lemma validateFileUpload_present (qt : Z -> Z -> string) (f : File) (options : UploadOptions) :
  let maxSize := default (5 * 1024 * 1024) (opt_maxSize options) in
  let allowedTypes :=
    default ["image/jpeg"; "image/png"; "image/gif"] (opt_allowedTypes options) in
  errors (validateFileUpload qt (Some f) options) =
    violated (size f >? maxSize) (msg_fu_size qt maxSize)
    ++ violated (negb (includes allowedTypes (mimetype f))) (msg_fu_type allowedTypes).
Proof.
  intros maxSize allowedTypes. unfold validateFileUpload. cbn [errors].
  fold maxSize allowedTypes. rewrite !push_violated. reflexivity.
Qed.

End AcceptanceFacts.

(** X1. [validatePassword] accepts exactly the passwords of at least six
    characters that contain a lowercase letter, an uppercase letter, a digit
    and one of the characters [!@#$%^&*]; an absent password is rejected. *)
Theorem validatePassword_accepts (password : option string) :
  Validation.isValid (Validation.validatePassword password) = true
  <-> exists p : string,
        password = Some p
        /\ (6 <= String.length p)%nat
        /\ Validation.has_lower p = true
        /\ Validation.has_upper p = true
        /\ Validation.has_digit p = true
        /\ Validation.has_special p = true.
Proof.
  pose proof (ValidationFacts.validatePassword_consistent password) as Hc.
  unfold ValidationFacts.consistent in Hc. rewrite Hc. clear Hc.
  destruct password as [[|c r]|].
  - split; [discriminate|]. intros (p & [= <-] & Hlen & _). simpl in Hlen. lia.
  - rewrite ValidationFacts.validatePassword_present. cbn [Validation.errors].
    rewrite !AcceptanceFacts.app_nil_iff, !AcceptanceFacts.violated_nil.
    rewrite !negb_false_iff, Z.ltb_ge.
    split.
    + intros (Hlen & Hl & Hu & Hd & Hs). exists (String c r).
      repeat split; try assumption. lia.
    + intros (p & [= <-] & Hlen & Hl & Hu & Hd & Hs). repeat split; try assumption. lia.
  - split; [discriminate|]. intros (p & [=] & _).
Qed.

(** X2. [validateUsername] accepts exactly the usernames of 3 to 30
    characters made of letters, digits and underscores; an absent or empty
    username is rejected. *)
Theorem validateUsername_accepts (username : option string) :
  Validation.isValid (Validation.validateUsername username) = true
  <-> exists u : string,
        username = Some u
        /\ (3 <= String.length u <= 30)%nat
        /\ str_forall Validation.is_word u = true.
Proof.
  pose proof (ValidationFacts.validateUsername_consistent username) as Hc.
  unfold ValidationFacts.consistent in Hc. rewrite Hc. clear Hc.
  destruct username as [[|c r]|].
  - split; [discriminate|]. intros (u & [= <-] & Hlen & _). simpl in Hlen. lia.
  - rewrite AcceptanceFacts.validateUsername_present. cbn [Validation.errors].
    rewrite !AcceptanceFacts.app_nil_iff, !AcceptanceFacts.violated_nil.
    rewrite negb_false_iff, Z.ltb_ge.
    unfold Validation.only_word_chars. cbn [String.eqb negb andb].
    split.
    + intros (Hmin & Hmax & Hw). exists (String c r).
      split; [reflexivity|]. split; [|exact Hw].
      destruct (Z.gtb_spec (Z.of_nat (String.length (String c r))) 30); [discriminate | lia].
    + intros (u & [= <-] & Hlen & Hw). split; [lia|]. split; [|exact Hw].
      destruct (Z.gtb_spec (Z.of_nat (String.length (String c r))) 30); [lia | reflexivity].
  - split; [discriminate|]. intros (u & [=] & _).
Qed.

(** X3. A username that [validateUsername] accepts passes through
    [sanitizeString] unchanged. *)
Theorem valid_username_unchanged_by_sanitizer (u : string) :
  Validation.isValid (Validation.validateUsername (Some u)) = true ->
  Validation.sanitizeString (JsString u) = u.
Proof.
  intros Hvalid.
  assert (Hw : str_forall Validation.is_word u = true).
  { destruct u as [|c r]; [discriminate Hvalid|].
    rewrite AcceptanceFacts.validateUsername_present in Hvalid. cbn [Validation.isValid] in Hvalid.
    apply ValidationFacts.no_errors_spec in Hvalid.
    rewrite !AcceptanceFacts.app_nil_iff, !AcceptanceFacts.violated_nil in Hvalid.
    destruct Hvalid as (_ & _ & Hw). apply negb_false_iff in Hw.
    unfold Validation.only_word_chars in Hw. now apply andb_true_iff in Hw as [_ ?]. }
  apply ValidationMoreFacts.sanitize_chain_plain.
  now apply ValidationMoreFacts.word_chars_plain.
Qed.

(** The accepted username ["valid_user123"] comes back unchanged. *)
Lemma valid_username_unchanged_by_sanitizer_witness :
  Validation.sanitizeString (JsString "valid_user123") = "valid_user123".
Proof.
  apply (valid_username_unchanged_by_sanitizer "valid_user123"). reflexivity.
Defined.

(** X4. Whatever its input, the output of [sanitizeString] contains no
    angle bracket, no double quote, no apostrophe and no slash. *)
Theorem sanitizeString_no_markup (input : JsVal) :
  ValidationMore.no_markup (Validation.sanitizeString input) = true.
Proof. apply ValidationMoreFacts.sanitizeString_free. Qed.

(** X5. [sanitizeString] returns unchanged every string that has no white
    space at its ends and none of the characters it removes or escapes
    (angle brackets, ampersand, double quote, apostrophe, slash). *)
Theorem sanitizeString_plain_unchanged (s : string) :
  ValidationMore.is_plain s = true ->
  Validation.sanitizeString (JsString s) = s.
Proof. apply ValidationMoreFacts.sanitize_chain_plain. Qed.

(** A plain sentence comes back unchanged. *)
Lemma sanitizeString_plain_unchanged_witness :
  Validation.sanitizeString (JsString "hello, world (v2)") = "hello, world (v2)".
Proof.
  apply (sanitizeString_plain_unchanged "hello, world (v2)"). reflexivity.
Defined.

(** X6. [validateSearchQuery] returns at most 100 characters, a prefix
    of the sanitized input, free of angle brackets, quotes, apostrophes and
    slashes; for every input that is not a non-empty string it returns the
    empty string. *)
Theorem validateSearchQuery_bounded (search : JsVal) :
  (String.length (ValidationMore.validateSearchQuery search) <= 100)%nat
  /\ String.prefix (ValidationMore.validateSearchQuery search)
       (Validation.sanitizeString search) = true
  /\ ValidationMore.no_markup (ValidationMore.validateSearchQuery search) = true
  /\ (truthy search && negb (ValidationMore.not_a_string search) = false ->
      ValidationMore.validateSearchQuery search = EmptyString).
Proof.
  unfold ValidationMore.validateSearchQuery.
  destruct (negb (truthy search) || ValidationMore.not_a_string search) eqn:E.
  - split; [simpl; lia|].
    split; [destruct (Validation.sanitizeString search); reflexivity|].
    split; [reflexivity|]. intros _. reflexivity.
  - split; [apply ValidationMoreFacts.substring_to_length|].
    split; [apply ValidationMoreFacts.substring_to_prefix|].
    split.
    + apply ValidationMoreFacts.substring_to_forall. apply ValidationMoreFacts.sanitizeString_free.
    + apply orb_false_iff in E as [E1 E2]. apply negb_false_iff in E1.
      rewrite E1, E2. discriminate.
Qed.

(** The search-query bound at a number and at the empty string. *)
Lemma validateSearchQuery_bounded_witness :
  ValidationMore.validateSearchQuery (JsNumber 123) = EmptyString
  /\ ValidationMore.validateSearchQuery (JsString EmptyString) = EmptyString.
Proof.
  split.
  - apply (validateSearchQuery_bounded (JsNumber 123)). reflexivity.
  - apply (validateSearchQuery_bounded (JsString EmptyString)). reflexivity.
Defined.

(** X7. [validatePagination] is a normal form below [10 ^ 21]: when the
    returned [page] is a finite number below [10 ^ 21], feeding [page] and
    [limit] back in returns the same result. From [10 ^ 21] on a number
    prints in exponent form, of which [parseInt] reads the first digit:
    the page "1500000000000000000000" is returned as 1.5e21, and that
    number fed back gives page 1. [skip] is never negative. *)
Theorem validatePagination_idempotent (params : gmap string JsVal) :
  let r := Validation.validatePagination params in
  (forall p l : Z,
      Validation.page r = Fin p -> Validation.limit r = Fin l -> p < 10 ^ 21 ->
      Validation.validatePagination {[ "page" := JsNumber p; "limit" := JsNumber l ]} = r)
  /\ (Validation.skip r = PosInf \/ exists s : Z, Validation.skip r = Fin s /\ 0 <= s)
  /\ Validation.page
       (Validation.validatePagination {[ "page" := JsString "1500000000000000000000" ]})
     = Fin 1500000000000000000000
  /\ Validation.page
       (Validation.validatePagination {[ "page" := JsNumber 1500000000000000000000 ]})
     = Fin 1.
Proof.
  intros r. subst r. rewrite PaginationFacts.validatePagination_unfold.
  cbv zeta. cbn [Validation.page Validation.limit Validation.skip].
  pose proof (PaginationFacts.coerced_read (Validation.prop params "page") 1 eq_refl) as Hp.
  pose proof (PaginationFacts.coerced_read (Validation.prop params "limit") 10 eq_refl) as Hl.
  destruct (PaginationFacts.limit_cases _ Hl) as (l & -> & Hl1).
  assert (Hmul : forall x : Num,
            x = PosInf \/ (exists w : Z, x = Fin w /\ 0 <= w) ->
            num_mul x (Fin l) = PosInf
            \/ exists s : Z, num_mul x (Fin l) = Fin s /\ 0 <= s).
  { intros x [->|(w & -> & Hw)].
    - left. cbn [num_mul num_sign]. rewrite Z.sgn_pos by lia. reflexivity.
    - cbn [num_mul]. apply NumberFacts.of_Z_natural. nia. }
  split; [|split; [|split; vm_compute; reflexivity]].
  - intros p l' Hpage [= <-] Hlt.
    destruct (PaginationFacts.page_cases _ Hp) as [Hinf|(p' & Hpage' & Hp1 & Hdouble)];
      rewrite Hpage in *; [discriminate|]. injection Hpage' as <-.
    rewrite PaginationFacts.validatePagination_unfold. cbv zeta.
    assert (Hprop_page :
              Validation.prop {[ "page" := JsNumber p; "limit" := JsNumber l ]} "page"
              = JsNumber p).
    { unfold Validation.prop. now rewrite lookup_insert_eq. }
    assert (Hprop_limit :
              Validation.prop {[ "page" := JsNumber p; "limit" := JsNumber l ]} "limit"
              = JsNumber l).
    { unfold Validation.prop. rewrite lookup_insert_ne by discriminate.
      now rewrite lookup_singleton_eq. }
    rewrite Hprop_page, Hprop_limit. unfold PaginationFacts.coerced.
    rewrite (NumberFacts.parseInt_number p) by (try exact Hdouble; lia).
    rewrite (NumberFacts.parseInt_number l)
      by (try (apply NumberFacts.of_Z_small); lia).
    destruct (Z.eqb_spec p 0); [lia|]. destruct (Z.eqb_spec l 0); [lia|].
    assert (Hmax_p : Math_max (Fin 1) (Fin p) = Fin p).
    { cbn [Math_max num_lt]. destruct (Z.ltb_spec 1 p); f_equal; lia. }
    assert (Hclamp_l : Math_min (Fin 100) (Math_max (Fin 1) (Fin l)) = Fin l).
    { cbn [Math_max num_lt]. destruct (Z.ltb_spec 1 l); cbn [Math_min num_lt].
      - destruct (Z.ltb_spec l 100); f_equal; lia.
      - f_equal; lia. }
    now rewrite Hmax_p, Hclamp_l.
  - apply Hmul.
    destruct (PaginationFacts.page_cases _ Hp) as [->|(p & -> & Hp1 & _)].
    + now left.
    + cbn [num_sub]. destruct (NumberFacts.of_Z_natural (p - 1)) as [->|(w & -> & Hw)];
        [lia | now left | right; now exists w].
Qed.

(** The result for [{page:"2", limit:"20"}] is a fixed point. *)
Lemma validatePagination_idempotent_witness :
  Validation.validatePagination {[ "page" := JsNumber 2; "limit" := JsNumber 20 ]}
  = Validation.validatePagination {[ "page" := JsString "2"; "limit" := JsString "20" ]}.
Proof.
  destruct (validatePagination_idempotent
              {[ "page" := JsString "2"; "limit" := JsString "20" ]}) as (Hfix & _).
  apply (Hfix 2 20); [vm_compute; reflexivity | vm_compute; reflexivity | lia].
Defined.

(** X8. [validateFileUpload] accepts exactly the files that are present,
    no larger than the maximum size and of an allowed type; with no options
    the maximum is 5 MiB and the allowed types are JPEG, PNG and GIF images. *)
Theorem validateFileUpload_accepts (quotient_text : Z -> Z -> string)
    (file : option Validation.File) (options : Validation.UploadOptions) :
  Validation.isValid (Validation.validateFileUpload quotient_text file options) = true
  <-> exists f : Validation.File,
        file = Some f
        /\ Validation.size f <= default 5242880 (Validation.opt_maxSize options)
        /\ In (Validation.mimetype f)
              (default ["image/jpeg"; "image/png"; "image/gif"]
                 (Validation.opt_allowedTypes options)).
Proof.
  pose proof (ValidationFacts.validateFileUpload_consistent quotient_text file options) as Hc.
  unfold ValidationFacts.consistent in Hc. rewrite Hc. clear Hc.
  destruct file as [f|].
  - rewrite AcceptanceFacts.validateFileUpload_present.
    rewrite AcceptanceFacts.app_nil_iff, !AcceptanceFacts.violated_nil.
    rewrite negb_false_iff, AcceptanceFacts.includes_In.
    change (5 * 1024 * 1024) with 5242880.
    split.
    + intros (Hsize & Htype). exists f. repeat split; [|exact Htype].
      destruct (Z.gtb_spec (Validation.size f)
                  (default 5242880 (Validation.opt_maxSize options))); [discriminate | lia].
    + intros (f' & [= <-] & Hsize & Htype). split; [|exact Htype].
      destruct (Z.gtb_spec (Validation.size f)
                  (default 5242880 (Validation.opt_maxSize options))); [lia | reflexivity].
  - split; [discriminate|]. intros (f & [=] & _).
Qed.

(** X9. [validateDateRange] reports at most two violations, and the
    order violation never comes with a format violation; when both ends are
    present and parse, the range or its reverse is valid. *)
Theorem validateDateRange_violations (Date_parse : string -> option Z)
    (startDate endDate : option string) :
  let errs := Validation.errors (Validation.validateDateRange Date_parse startDate endDate) in
  (length errs <= 2)%nat
  /\ (In Validation.msg_dr_order errs ->
      ~ In Validation.msg_dr_start errs /\ ~ In Validation.msg_dr_end errs)
  /\ (forall s e x y : _,
        startDate = Some s -> endDate = Some e ->
        Date_parse s = Some x -> Date_parse e = Some y ->
        Validation.isValid (Validation.validateDateRange Date_parse startDate endDate) = true
        \/ Validation.isValid (Validation.validateDateRange Date_parse endDate startDate) = true).
Proof.
  intros errs. subst errs.
  split; [|split].
  - rewrite DateRangeFacts.validateDateRange_errors.
    destruct (truthy_str startDate && truthy_str endDate); [|simpl; lia].
    destruct (Date_parse (DateRangeFacts.text startDate)),
             (Date_parse (DateRangeFacts.text endDate)); simpl;
      try destruct (_ >? _); simpl; lia.
  - rewrite DateRangeFacts.validateDateRange_errors.
    destruct (truthy_str startDate && truthy_str endDate); [|intros []].
    destruct (Date_parse (DateRangeFacts.text startDate)),
             (Date_parse (DateRangeFacts.text endDate)); simpl;
      try destruct (_ >? _); simpl; intros H;
      repeat (destruct H as [H|H]; try discriminate H); try contradiction.
    split; intros [H'|[]]; discriminate H'.
  - intros s e x y -> -> Hs He.
    pose proof (ValidationFacts.validateDateRange_consistent Date_parse (Some s) (Some e)) as H1.
    pose proof (ValidationFacts.validateDateRange_consistent Date_parse (Some e) (Some s)) as H2.
    unfold ValidationFacts.consistent in H1, H2. rewrite H1, H2.
    rewrite !DateRangeFacts.validateDateRange_errors.
    rewrite (andb_comm (truthy_str (Some e))).
    destruct (truthy_str (Some s) && truthy_str (Some e)); [|now left].
    unfold DateRangeFacts.text. cbn [from_option id]. rewrite Hs, He.
    cbn [isNaN Validation.date_gt ValidationFacts.violated app].
    destruct (Z.gtb_spec x y); [right | left]; [|reflexivity].
    destruct (Z.gtb_spec y x); [lia | reflexivity].
Qed.

(** The date-range violations at the ECMAScript date-only parser, for a
    reversed range. *)
Lemma validateDateRange_violations_witness :
  Validation.isValid
    (Validation.validateDateRange IsoDate.parse (Some "2023-12-31") (Some "2023-01-01")) = true
  \/ Validation.isValid
       (Validation.validateDateRange IsoDate.parse (Some "2023-01-01") (Some "2023-12-31")) = true.
Proof.
  apply (validateDateRange_violations IsoDate.parse (Some "2023-12-31") (Some "2023-01-01"))
    with (s := "2023-12-31") (e := "2023-01-01") (x := 1703980800000) (y := 1672531200000);
    reflexivity.
Defined.

(* ================================================================== *)
(** * Anchored regular expressions                                     *)
(* ================================================================== *)

(** [/^r$/.test(s)] for patterns built from character classes, sequence,
    alternation and repetition: the test holds exactly when the whole text
    belongs to the language of [r], which [matches] decides by
    derivatives. *)
Module Regex.

Inductive Re : Type :=
| Nothing
| Eps
| Class (p : ascii -> bool)
| Seq (r1 r2 : Re)
| Alt (r1 r2 : Re)
| Star (r : Re).

(** [r+] and [r{n}] *)
Definition Plus (r : Re) : Re := Seq r (Star r).

Fixpoint Repeat (n : nat) (r : Re) : Re :=
  match n with
  | O => Eps
  | S n' => Seq r (Repeat n' r)
  end.

Fixpoint nullable (r : Re) : bool :=
  match r with
  | Nothing => false
  | Eps => true
  | Class _ => false
  | Seq r1 r2 => nullable r1 && nullable r2
  | Alt r1 r2 => nullable r1 || nullable r2
  | Star _ => true
  end.

Fixpoint deriv (c : ascii) (r : Re) : Re :=
  match r with
  | Nothing => Nothing
  | Eps => Nothing
  | Class p => if p c then Eps else Nothing
  | Seq r1 r2 =>
      if nullable r1 then Alt (Seq (deriv c r1) r2) (deriv c r2)
      else Seq (deriv c r1) r2
  | Alt r1 r2 => Alt (deriv c r1) (deriv c r2)
  | Star r1 => Seq (deriv c r1) (Star r1)
  end.

Fixpoint matches (r : Re) (s : string) : bool :=
  match s with
  | EmptyString => nullable r
  | String c s' => matches (deriv c r) s'
  end.

(** The language of a pattern. *)
Inductive lang : Re -> string -> Prop :=
| lang_eps : lang Eps EmptyString
| lang_class (p : ascii -> bool) (c : ascii) :
    p c = true -> lang (Class p) (String c EmptyString)
| lang_seq (r1 r2 : Re) (s1 s2 : string) :
    lang r1 s1 -> lang r2 s2 -> lang (Seq r1 r2) (s1 +:+ s2)
| lang_alt_l (r1 r2 : Re) (s : string) : lang r1 s -> lang (Alt r1 r2) s
| lang_alt_r (r1 r2 : Re) (s : string) : lang r2 s -> lang (Alt r1 r2) s
| lang_star_nil (r : Re) : lang (Star r) EmptyString
| lang_star_cons (r : Re) (s1 s2 : string) :
    lang r s1 -> lang (Star r) s2 -> lang (Star r) (s1 +:+ s2).

End Regex.

Module RegexFacts.
Import Regex StringFacts.

Lemma str_app_nil_r (s : string) : s +:+ EmptyString = s.
Proof. induction s as [|c s IH]; [reflexivity|]. now rewrite str_app_cons, IH. Qed.

Lemma str_app_eq_nil (a b : string) :
  a +:+ b = EmptyString -> a = EmptyString /\ b = EmptyString.
Proof. destruct a; [now rewrite str_app_nil | rewrite str_app_cons; discriminate]. Qed.

(** *** Inversion *)

Lemma lang_nothing_inv (s : string) : lang Nothing s -> False.
Proof. intros H. inversion H. Qed.

Lemma lang_eps_inv (s : string) : lang Eps s -> s = EmptyString.
Proof. intros H. now inversion H. Qed.

Lemma lang_class_inv (p : ascii -> bool) (s : string) :
  lang (Class p) s -> exists c, s = String c EmptyString /\ p c = true.
Proof. intros H. inversion H; subst. eauto. Qed.

Lemma lang_seq_inv (r1 r2 : Re) (s : string) :
  lang (Seq r1 r2) s -> exists s1 s2, s = s1 +:+ s2 /\ lang r1 s1 /\ lang r2 s2.
Proof. intros H. inversion H; subst. eauto. Qed.

Lemma lang_alt_inv (r1 r2 : Re) (s : string) :
  lang (Alt r1 r2) s -> lang r1 s \/ lang r2 s.
Proof. intros H. inversion H; subst; [now left | now right]. Qed.

Lemma lang_cons (r : Re) (c : ascii) (p : ascii -> bool) (s : string) :
  p c = true -> lang r s -> lang (Seq (Class p) r) (String c s).
Proof.
  intros Hc Hs. change (String c s) with (String c EmptyString +:+ s).
  constructor; [now constructor | exact Hs].
Qed.

Lemma nullable_spec (r : Re) : nullable r = true <-> lang r EmptyString.
Proof.
  induction r as [| |p|r1 IH1 r2 IH2|r1 IH1 r2 IH2|r IH]; simpl.
  - split; [discriminate | intros H; destruct (lang_nothing_inv _ H)].
  - split; [constructor | reflexivity].
  - split; [discriminate|]. intros H.
    apply lang_class_inv in H as (c & Hc & _). discriminate Hc.
  - rewrite andb_true_iff, IH1, IH2. split.
    + intros [H1 H2]. change EmptyString with (EmptyString +:+ EmptyString).
      now constructor.
    + intros H. apply lang_seq_inv in H as (s1 & s2 & Heq & H1 & H2).
      symmetry in Heq. apply str_app_eq_nil in Heq as [-> ->]. now split.
  - rewrite orb_true_iff, IH1, IH2. split.
    + intros [H|H]; [now apply lang_alt_l | now apply lang_alt_r].
    + apply lang_alt_inv.
  - split; [constructor | reflexivity].
Qed.

(** A non-empty word of [r*] starts with a non-empty word of [r]. *)
Lemma star_uncons (r : Re) (c : ascii) (s : string) :
  lang (Star r) (String c s) ->
  exists s1 s2, s = s1 +:+ s2 /\ lang r (String c s1) /\ lang (Star r) s2.
Proof.
  intros H. remember (Star r) as r' eqn:Er. remember (String c s) as w eqn:Ew.
  revert c s Ew. induction H as [| | | | | |r0 s1 s2 H1 _ H2 IH2]; try discriminate.
  injection Er as ->. intros c s Ew. destruct s1 as [|d s1].
  - rewrite str_app_nil in Ew. now apply IH2.
  - rewrite str_app_cons in Ew. injection Ew as -> <-. eauto.
Qed.

Lemma seq_uncons (r1 r2 : Re) (c : ascii) (s : string) :
  lang (Seq r1 r2) (String c s)
  <-> (exists s1 s2, s = s1 +:+ s2 /\ lang r1 (String c s1) /\ lang r2 s2)
      \/ (lang r1 EmptyString /\ lang r2 (String c s)).
Proof.
  split.
  - intros H. apply lang_seq_inv in H as (s1 & s2 & Heq & H1 & H2).
    destruct s1 as [|d s1].
    + rewrite str_app_nil in Heq. subst. now right.
    + rewrite str_app_cons in Heq. injection Heq as -> ->. left. eauto.
  - intros [(s1 & s2 & -> & H1 & H2)|[H1 H2]].
    + rewrite <- str_app_cons. now constructor.
    + rewrite <- (str_app_nil (String c s)). now constructor.
Qed.

Lemma deriv_spec (r : Re) (c : ascii) (s : string) :
  lang (deriv c r) s <-> lang r (String c s).
Proof.
  revert s. induction r as [| |p|r1 IH1 r2 IH2|r1 IH1 r2 IH2|r IH]; intros s; simpl.
  - split; intros H; destruct (lang_nothing_inv _ H).
  - split; intros H; [destruct (lang_nothing_inv _ H)|].
    apply lang_eps_inv in H. discriminate H.
  - destruct (p c) eqn:E; split; intros H.
    + apply lang_eps_inv in H as ->. now constructor.
    + apply lang_class_inv in H as (d & [= -> ->] & _). constructor.
    + destruct (lang_nothing_inv _ H).
    + apply lang_class_inv in H as (d & [= -> ->] & Hd). congruence.
  - assert (Hseq : lang (Seq (deriv c r1) r2) s
                   <-> exists s1 s2, s = s1 +:+ s2 /\ lang r1 (String c s1) /\ lang r2 s2).
    { split.
      - intros H. apply lang_seq_inv in H as (s1 & s2 & -> & H1 & H2).
        apply IH1 in H1. eauto.
      - intros (s1 & s2 & -> & H1 & H2). constructor; [now apply IH1 | exact H2]. }
    rewrite seq_uncons. destruct (nullable r1) eqn:E.
    + split.
      * intros H. apply lang_alt_inv in H as [H|H]; [left; now apply Hseq|].
        right. split; [now apply nullable_spec | now apply IH2].
      * intros [H|[_ H]]; [apply lang_alt_l; now apply Hseq|].
        apply lang_alt_r. now apply IH2.
    + rewrite Hseq. split; [now left|].
      intros [H|[H _]]; [exact H|]. apply nullable_spec in H. congruence.
  - split; intros H; apply lang_alt_inv in H as [H|H].
    + apply lang_alt_l. now apply IH1.
    + apply lang_alt_r. now apply IH2.
    + apply lang_alt_l. now apply IH1.
    + apply lang_alt_r. now apply IH2.
  - split.
    + intros H. apply lang_seq_inv in H as (s1 & s2 & -> & H1 & H2).
      apply IH in H1. rewrite <- str_app_cons. now constructor.
    + intros H. apply star_uncons in H as (s1 & s2 & -> & H1 & H2).
      constructor; [now apply IH | exact H2].
Qed.

(** [matches] decides the language. *)
Theorem matches_spec (r : Re) (s : string) : matches r s = true <-> lang r s.
Proof.
  revert r. induction s as [|c s IH]; intros r; simpl.
  - apply nullable_spec.
  - rewrite IH. apply deriv_spec.
Qed.

(** *** Words of a class *)

Lemma star_class (p : ascii -> bool) (s : string) :
  lang (Star (Class p)) s <-> str_forall p s = true.
Proof.
  split.
  - intros H. remember (Star (Class p)) as r eqn:Er.
    induction H as [| | | | | |r0 s1 s2 H1 _ H2 IH2]; try discriminate; [reflexivity|].
    injection Er as ->. apply lang_class_inv in H1 as (c & -> & Hc).
    rewrite str_app_cons, str_app_nil. simpl. rewrite Hc. now apply IH2.
  - induction s as [|c s IH]; simpl; [constructor|].
    intros H. apply andb_true_iff in H as [Hc Hs].
    change (String c s) with (String c EmptyString +:+ s).
    constructor; [now constructor | now apply IH].
Qed.

Lemma plus_class (p : ascii -> bool) (s : string) :
  lang (Plus (Class p)) s <-> s <> EmptyString /\ str_forall p s = true.
Proof.
  unfold Plus. split.
  - intros H. apply lang_seq_inv in H as (s1 & s2 & -> & H1 & H2).
    apply lang_class_inv in H1 as (c & -> & Hc). apply star_class in H2.
    rewrite str_app_cons, str_app_nil. simpl. rewrite Hc, H2.
    split; [discriminate | reflexivity].
  - intros [Hne H]. destruct s as [|c s]; [contradiction|].
    simpl in H. apply andb_true_iff in H as [Hc Hs].
    apply lang_cons; [exact Hc | now apply star_class].
Qed.

Lemma repeat_class (p : ascii -> bool) (n : nat) (s : string) :
  lang (Repeat n (Class p)) s <-> String.length s = n /\ str_forall p s = true.
Proof.
  revert s. induction n as [|n IH]; intros s; simpl.
  - split.
    + intros H. apply lang_eps_inv in H as ->. now split.
    + intros [H _]. destruct s; [constructor | discriminate].
  - split.
    + intros H. apply lang_seq_inv in H as (s1 & s2 & -> & H1 & H2).
      apply lang_class_inv in H1 as (c & -> & Hc). apply IH in H2 as [Hlen Hall].
      rewrite str_app_cons, str_app_nil. simpl. rewrite Hc, Hall, Hlen. now split.
    + intros [Hlen H]. destruct s as [|c s]; [discriminate|].
      simpl in *. apply andb_true_iff in H as [Hc Hs].
      apply lang_cons; [exact Hc|]. apply IH. split; [lia | exact Hs].
Qed.

Lemma one_char (d : ascii) (s : string) :
  lang (Class (Ascii.eqb d)) s <-> s = String d EmptyString.
Proof.
  split.
  - intros H. apply lang_class_inv in H as (c & -> & Hc).
    apply Ascii.eqb_eq in Hc. now subst.
  - intros ->. constructor. apply Ascii.eqb_refl.
Qed.

End RegexFacts.

(* ================================================================== *)
(** * The pattern tests of server/src/utils/validation.js              *)
(* ================================================================== *)

Module Patterns.
Import Regex.

(** ToString, which [RegExp.prototype.test] applies to its argument. *)
Definition ToString (v : JsVal) : string := JS.ToString v.

(** [[^\s@]] *)
Definition not_space_or_at (c : ascii) : bool := negb (is_ws c || Ascii.eqb c "@").

(** [/^[^\s@]+@[^\s@]+\.[^\s@]+$/] *)
Definition emailRegex : Re :=
  Seq (Plus (Class not_space_or_at))
    (Seq (Class (Ascii.eqb "@"))
      (Seq (Plus (Class not_space_or_at))
        (Seq (Class (Ascii.eqb "."))
          (Plus (Class not_space_or_at))))).

Definition isValidEmail (email : JsVal) : bool := matches emailRegex (ToString email).

(** [[0-9a-fA-F]] *)
Definition is_hex (c : ascii) : bool :=
  is_digit c || in_range 97 102 c || in_range 65 70 c.

(** [/^[0-9a-fA-F]{24}$/] *)
Definition objectIdRegex : Re := Repeat 24 (Class is_hex).

Definition isValidObjectId (id : JsVal) : bool := matches objectIdRegex (ToString id).

(** [/^[a-zA-Z0-9_]+$/], the pattern of [validateUsername]. *)
Definition usernameRegex : Re := Plus (Class Validation.is_word).

End Patterns.

Module PatternFacts.
Import Regex RegexFacts Patterns StringFacts.

(** The direct test used by [validateUsername] is the pattern test. *)
Lemma only_word_chars_is_pattern (u : string) :
  Validation.only_word_chars u = matches usernameRegex u.
Proof.
  apply eq_true_iff_eq. rewrite matches_spec. unfold usernameRegex.
  rewrite plus_class. unfold Validation.only_word_chars.
  rewrite andb_true_iff, negb_true_iff, String.eqb_neq. reflexivity.
Qed.

Lemma email_lang (s : string) :
  lang emailRegex s
  <-> exists l d t : string,
        s = l +:+ "@" +:+ d +:+ "." +:+ t
        /\ l <> EmptyString /\ d <> EmptyString /\ t <> EmptyString
        /\ str_forall not_space_or_at l = true
        /\ str_forall not_space_or_at d = true
        /\ str_forall not_space_or_at t = true.
Proof.
  unfold emailRegex. split.
  - intros H.
    apply lang_seq_inv in H as (l & s1 & -> & Hl & H).
    apply lang_seq_inv in H as (a & s2 & -> & Ha & H).
    apply lang_seq_inv in H as (d & s3 & -> & Hd & H).
    apply lang_seq_inv in H as (b & t & -> & Hb & Ht).
    apply one_char in Ha as ->. apply one_char in Hb as ->.
    apply plus_class in Hl as [? ?]. apply plus_class in Hd as [? ?].
    apply plus_class in Ht as [? ?].
    exists l, d, t. repeat split; assumption.
  - intros (l & d & t & -> & Hl & Hd & Ht & Al & Ad & At).
    constructor; [now apply plus_class|].
    constructor; [now apply one_char|].
    constructor; [now apply plus_class|].
    constructor; [now apply one_char|].
    now apply plus_class.
Qed.

Lemma hex_is_word (c : ascii) : is_hex c = true -> Validation.is_word c = true.
Proof. revert c. ValidationMoreFacts.by_cases_on_char. Qed.

Lemma objectId_shape (v : JsVal) :
  isValidObjectId v = true
  <-> String.length (ToString v) = 24%nat /\ str_forall is_hex (ToString v) = true.
Proof.
  unfold isValidObjectId. rewrite matches_spec. apply repeat_class.
Qed.

(** The text of a number has at most 22 code units, or it is in exponent
    form, whose sign [+] is no hexadecimal digit. *)
Lemma number_text (x : Num) :
  String.length (Number_toString x) = 24%nat ->
  str_forall is_hex (Number_toString x) = false.
Proof.
  destruct x as [|w| |]; try discriminate.
  unfold Number_toString. destruct (w =? 0); [discriminate|].
  pose proof (NumberFacts.shortest_nonneg (Z.abs w) (Z.abs_nonneg w)) as Hm.
  destruct (w <? 0); [reflexivity|].
  destruct (Z.ltb_spec (shortest (Z.abs w)) (10 ^ 21)) as [Hlt|_].
  - intros Hlen. pose proof (NumberFacts.decimal_length (shortest (Z.abs w))). lia.
  - unfold exponent_form.
    destruct (strip_zeros (decimal (shortest (Z.abs w)))) as [|d [|d2 ds]];
      [discriminate | ..]; intros _; rewrite !str_app_cons;
      cbn [str_forall]; change (is_hex "e") with true; change (is_hex "+") with false;
      change (is_hex ".") with false; cbn [andb]; now rewrite ?andb_false_r.
Qed.

Lemma number_is_no_object_id (z : Z) : isValidObjectId (JsNumber z) = false.
Proof.
  apply not_true_iff_false. rewrite objectId_shape. unfold ToString. cbn [JS.ToString].
  intros [Hlen Hhex]. now rewrite (number_text _ Hlen) in Hhex.
Qed.

End PatternFacts.

(** X10. [isValidEmail] accepts exactly the texts of the form
    [local@domain.tail] whose three parts are non-empty and contain neither
    white space nor [@] (so the text has exactly one [@], and a dot after it
    that is neither first nor last in the domain); [null], [undefined],
    booleans and the empty string are rejected. *)
Theorem isValidEmail_shape (email : JsVal) :
  (Patterns.isValidEmail email = true
   <-> exists l d t : string,
         Patterns.ToString email = l +:+ "@" +:+ d +:+ "." +:+ t
         /\ l <> EmptyString /\ d <> EmptyString /\ t <> EmptyString
         /\ str_forall Patterns.not_space_or_at l = true
         /\ str_forall Patterns.not_space_or_at d = true
         /\ str_forall Patterns.not_space_or_at t = true)
  /\ Patterns.isValidEmail JsNull = false
  /\ Patterns.isValidEmail JsUndefined = false
  /\ (forall b : bool, Patterns.isValidEmail (JsBoolean b) = false)
  /\ Patterns.isValidEmail (JsString EmptyString) = false.
Proof.
  split.
  - unfold Patterns.isValidEmail. rewrite RegexFacts.matches_spec.
    apply PatternFacts.email_lang.
  - repeat split; try reflexivity. intros []; reflexivity.
Qed.

(** X11. [isValidObjectId] accepts exactly the values whose text has 24
    hexadecimal digits; [null], [undefined], booleans, the empty string and
    every number are rejected (a number of 24 digits prints in exponent
    form), and an accepted id passes through [sanitizeString] unchanged. *)
Theorem isValidObjectId_shape (id : JsVal) :
  (Patterns.isValidObjectId id = true
   <-> String.length (Patterns.ToString id) = 24%nat
       /\ str_forall Patterns.is_hex (Patterns.ToString id) = true)
  /\ Patterns.isValidObjectId JsNull = false
  /\ Patterns.isValidObjectId JsUndefined = false
  /\ (forall b : bool, Patterns.isValidObjectId (JsBoolean b) = false)
  /\ Patterns.isValidObjectId (JsString EmptyString) = false
  /\ (forall z : Z, Patterns.isValidObjectId (JsNumber z) = false)
  /\ (forall s : string,
        Patterns.isValidObjectId (JsString s) = true ->
        Validation.sanitizeString (JsString s) = s).
Proof.
  split; [apply PatternFacts.objectId_shape|].
  do 2 (split; [reflexivity|]). split; [intros []; reflexivity|].
  split; [reflexivity|]. split; [apply PatternFacts.number_is_no_object_id|].
  intros s Hs. apply PatternFacts.objectId_shape in Hs as [_ Hhex].
  unfold Patterns.ToString in Hhex. cbn [JS.ToString] in Hhex.
  apply ValidationMoreFacts.sanitize_chain_plain.
  apply ValidationMoreFacts.word_chars_plain.
  revert Hhex. apply StringFacts.str_forall_weaken. apply PatternFacts.hex_is_word.
Qed.

(** The object-id shape at the id used by the unit tests. *)
Lemma isValidObjectId_shape_witness :
  Validation.sanitizeString (JsString "507f1f77bcf86cd799439011")
  = "507f1f77bcf86cd799439011".
Proof.
  apply (isValidObjectId_shape JsNull). reflexivity.
Defined.

(* ================================================================== *)
(** * Further properties of utils/auth.js and middleware/auth.js       *)
(* ================================================================== *)

Module HeaderFacts.
Import AuthUtils StringFacts.

Lemma prefix_app (p r : string) : String.prefix p (p +:+ r) = true.
Proof.
  induction p as [|c p IH]; [now destruct r|].
  rewrite str_app_cons. simpl. destruct (ascii_dec c c); [exact IH | contradiction].
Qed.

Lemma substring_from_app (p r : string) :
  substring_from (String.length p) (p +:+ r) = r.
Proof.
  induction p as [|c p IH]; [now rewrite str_app_nil|].
  rewrite str_app_cons. simpl. exact IH.
Qed.

Lemma prefix_split (p s : string) :
  String.prefix p s = true -> s = p +:+ substring_from (String.length p) s.
Proof.
  revert s. induction p as [|c p IH]; intros s H.
  - now rewrite str_app_nil.
  - destruct s as [|d s]; [discriminate|]. simpl in H.
    destruct (ascii_dec c d) as [->|]; [|discriminate].
    rewrite str_app_cons. simpl. f_equal. now apply IH.
Qed.

Lemma extract_bearer (t : string) :
  extractTokenFromHeader (Some ("Bearer " +:+ t)) = Some t.
Proof.
  unfold extractTokenFromHeader, startsWith.
  rewrite prefix_app. change 7%nat with (String.length "Bearer ").
  rewrite substring_from_app. reflexivity.
Qed.

Lemma extract_inv (h : option string) (t : string) :
  extractTokenFromHeader h = Some t -> h = Some ("Bearer " +:+ t).
Proof.
  unfold extractTokenFromHeader, startsWith. destruct h as [s|]; [|discriminate].
  destruct (truthy_str (Some s)); [|discriminate]. cbn [negb orb].
  destruct (String.prefix "Bearer " s) eqn:E; [|discriminate]. cbn [negb].
  intros [= <-]. f_equal. now apply (prefix_split "Bearer " s).
Qed.

End HeaderFacts.

(** X12. [extractTokenFromHeader] undoes the ["Bearer "] prefix: a header
    made of the prefix and a text gives back that text (the empty text for
    the bare prefix), and whenever a token is returned the header was the
    prefix followed by that token; a missing header gives [null]. *)
Theorem extractTokenFromHeader_round_trip :
  (forall t : string,
      AuthUtils.extractTokenFromHeader (Some ("Bearer " +:+ t)) = Some t)
  /\ (forall (h : option string) (t : string),
        AuthUtils.extractTokenFromHeader h = Some t -> h = Some ("Bearer " +:+ t))
  /\ AuthUtils.extractTokenFromHeader None = None
  /\ AuthUtils.extractTokenFromHeader (Some "Bearer") = None
  /\ AuthUtils.extractTokenFromHeader (Some "bearer abc") = None.
Proof.
  split; [exact HeaderFacts.extract_bearer|].
  split; [exact HeaderFacts.extract_inv|].
  repeat split.
Qed.

(** The header round trip at the header ["Bearer abc"]. *)
Lemma extractTokenFromHeader_round_trip_witness :
  Some "Bearer abc" = Some ("Bearer " +:+ "abc").
Proof.
  destruct extractTokenFromHeader_round_trip as (_ & Hinv & _).
  apply (Hinv (Some "Bearer abc") "abc"). reflexivity.
Defined.

Module AccessFacts.
Import Middleware MiddlewareFacts.

(** Express runs the next middleware when the previous one calls [next()]. *)
Definition chain (first second : Request -> Outcome) (req : Request) : Outcome :=
  match first req with
  | Next req' => second req'
  | Respond status error => Respond status error
  end.

Lemma authenticate_unfold (g : string -> Result (option User.Doc)) (req : Request) :
  authenticate g req =
    match bearer req with
    | Some t =>
        if truthy_str (Some t) then
          match g t with
          | Ok (Some u) => Next (set_user req u)
          | Ok None => Respond 401 "Invalid or expired token"
          | Throw _ => Respond 401 "Authentication failed"
          end
        else Respond 401 "Access token required"
    | None => Respond 401 "Access token required"
    end.
Proof.
  unfold authenticate, bearer, guarded.
  destruct (AuthUtils.extractTokenFromHeader (headers req !! "authorization")) as [t|];
    [|reflexivity].
  destruct (truthy_str (Some t)); [|reflexivity]. cbn [negb].
  destruct (g t) as [[u|]|e]; reflexivity.
Qed.

Lemma existsb_eqb_In (x : string) (xs : list string) :
  existsb (String.eqb x) xs = true <-> In x xs.
Proof.
  rewrite existsb_exists. split.
  - intros (y & Hy & Heq). apply String.eqb_eq in Heq. now subst.
  - intros H. exists x. split; [exact H | apply String.eqb_refl].
Qed.

(** A request carrying the header [Authorization: Bearer t]. *)
Definition with_bearer (t : string) : Request :=
  mkRequest {[ "authorization" := "Bearer " +:+ t ]} None.

Lemma bearer_with_bearer (t : string) : bearer (with_bearer t) = Some t.
Proof.
  unfold bearer, with_bearer. cbn [headers]. rewrite lookup_singleton_eq.
  apply HeaderFacts.extract_bearer.
Qed.

(** A store that holds exactly the test user, under its id. *)
Definition test_store : string -> Result (option User.Doc) :=
  fun id => if String.eqb id "507f1f77bcf86cd799439011"
            then Ok (Some TokenFacts.test_user) else Ok None.

End AccessFacts.

(** X13. The middleware [authorize] and the utility [hasRole] agree: a
    request passes [authorize(roles)] exactly when [hasRole(req.user, roles)]
    holds, that is when there is a user whose role is among the roles (a
    single role counts as the one-element array); without a user the answer
    is 401, with a user of another role 403. *)
Theorem authorize_agrees_with_hasRole (roles : AuthUtils.Roles) (req : Middleware.Request) :
  (Middleware.authorize roles req = Middleware.Next req
   <-> AuthUtils.hasRole (Middleware.user req) roles = true)
  /\ (AuthUtils.hasRole (Middleware.user req) roles = true
      <-> exists u : User.Doc,
            Middleware.user req = Some u /\ In (User.role u) (AuthUtils.role_list roles))
  /\ (forall r : string,
        AuthUtils.hasRole (Middleware.user req) (AuthUtils.OneRole r)
        = AuthUtils.hasRole (Middleware.user req) (AuthUtils.RoleArray [r]))
  /\ (Middleware.user req = None ->
      Middleware.authorize roles req = Middleware.Respond 401 "Authentication required")
  /\ (forall u : User.Doc,
        Middleware.user req = Some u ->
        ~ In (User.role u) (AuthUtils.role_list roles) ->
        Middleware.authorize roles req = Middleware.Respond 403 "Insufficient permissions").
Proof.
  unfold Middleware.authorize, AuthUtils.hasRole.
  destruct (Middleware.user req) as [u|].
  - pose proof (AccessFacts.existsb_eqb_In (User.role u) (AuthUtils.role_list roles)) as Hin.
    destruct (existsb (String.eqb (User.role u)) (AuthUtils.role_list roles)) eqn:E; cbn [negb].
    + split; [split; reflexivity|]. split.
      * split; [intros _; exists u; split; [reflexivity | now apply Hin] | reflexivity].
      * split; [reflexivity|]. split; [discriminate|].
        intros u' [= <-] Hnot. exfalso. apply Hnot. now apply Hin.
    + split; [split; discriminate|]. split.
      * split; [discriminate|]. intros (u' & [= <-] & Hu). apply Hin in Hu. discriminate.
      * split; [reflexivity|]. split; [discriminate|]. reflexivity.
  - split; [split; discriminate|]. split.
    + split; [discriminate|]. intros (u & [=] & _).
    + split; [reflexivity|]. split; [reflexivity|]. discriminate.
Qed.

(** [authorize] for an ordinary user against the admin role. *)
Lemma authorize_agrees_with_hasRole_witness :
  Middleware.authorize (AuthUtils.OneRole "admin")
    (MiddlewareFacts.owner_request MiddlewareFacts.plain_user)
  = Middleware.Respond 403 "Insufficient permissions"
  /\ Middleware.authorize (AuthUtils.OneRole "admin") MiddlewareFacts.bearer_request
     = Middleware.Respond 401 "Authentication required".
Proof.
  split.
  - apply (authorize_agrees_with_hasRole (AuthUtils.OneRole "admin")
             (MiddlewareFacts.owner_request MiddlewareFacts.plain_user))
      with (u := MiddlewareFacts.plain_user).
    + reflexivity.
    + simpl. intros [H|[]]. discriminate H.
  - apply (authorize_agrees_with_hasRole (AuthUtils.OneRole "admin")
             MiddlewareFacts.bearer_request).
    reflexivity.
Defined.

(** X14. Issue then resolve: under the jsonwebtoken contract, for an
    active user stored under the string form of its id, the token that
    [generateToken] issues resolves through [getCurrentUser] to that user
    without its password until the token expires, and to [null] from then
    on; and [getCurrentUser] returns for every token and every store. *)
Theorem issued_token_resolves (J : Jwt.Lib) (env : AuthUtils.Env)
    (findById : string -> Result (option User.Doc)) (u : User.Doc) (d now : Z) :
  Jwt.Contract J ->
  Jwt.timespan J (AuthUtils.JWT_EXPIRES_IN env) = Some d ->
  findById (User.toString (User._id u)) = Ok (Some u) ->
  User.isActive u = true ->
  (exists t : string,
      AuthUtils.generateToken J env now u = Ok t
      /\ (forall now' : Z, now' < now + d ->
            AuthUtils.getCurrentUser J env findById now' t
            = Ok (Some (User.select_minus_password u)))
      /\ (forall now' : Z, now + d <= now' ->
            AuthUtils.getCurrentUser J env findById now' t = Ok None))
  /\ (forall (now' : Z) (token : string),
        exists r : option User.Doc,
          AuthUtils.getCurrentUser J env findById now' token = Ok r).
Proof.
  intros HJ Hspan Hstored Hactive. split.
  - destruct (TokenFacts.issue_then_verify J env u d now HJ Hspan) as (t & Hgen & Hver).
    exists t. split; [exact Hgen|]. split; intros now' Hnow'.
    + rewrite LookupFacts.getCurrentUser_unfold, Hver.
      destruct (Z.leb_spec (now + d) now'); [lia|].
      cbn [Jwt.claims_of Jwt.id Jwt.p_id]. rewrite Hstored.
      unfold LookupFacts.after_lookup. now rewrite Hactive.
    + rewrite LookupFacts.getCurrentUser_unfold, Hver.
      destruct (Z.leb_spec (now + d) now'); [reflexivity | lia].
  - intros now' token. apply LookupFacts.getCurrentUser_returns.
Qed.

(** Issue then resolve at the reference implementation and the store that
    holds the test user. *)
Lemma issued_token_resolves_witness :
  exists t : string,
    AuthUtils.generateToken JwtModel.fnv_lib TokenFacts.test_env 1000 TokenFacts.test_user = Ok t
    /\ (forall now' : Z, now' < 1000 + 3600 ->
          AuthUtils.getCurrentUser JwtModel.fnv_lib TokenFacts.test_env AccessFacts.test_store
            now' t
          = Ok (Some (User.select_minus_password TokenFacts.test_user)))
    /\ (forall now' : Z, 1000 + 3600 <= now' ->
          AuthUtils.getCurrentUser JwtModel.fnv_lib TokenFacts.test_env AccessFacts.test_store
            now' t = Ok None).
Proof.
  apply (issued_token_resolves JwtModel.fnv_lib TokenFacts.test_env AccessFacts.test_store
           TokenFacts.test_user 3600 1000).
  - apply JwtModelFacts.lib_meets_contract.
  - reflexivity.
  - reflexivity.
  - reflexivity.
Defined.

(** X15. [authenticate] lets a request through only with a user attached:
    it calls [next()] exactly when the header carries a non-empty bearer
    token that the lookup resolves to a user, and then [req.user] is that
    user; every refusal is a 401, with "Access token required" when there is
    no usable token, "Invalid or expired token" when the lookup finds
    nobody, and "Authentication failed" when the lookup throws. *)
Theorem authenticate_outcomes (getCurrentUser : string -> Result (option User.Doc))
    (req : Middleware.Request) :
  (forall req' : Middleware.Request,
      Middleware.authenticate getCurrentUser req = Middleware.Next req'
      <-> exists (t : string) (u : User.Doc),
            MiddlewareFacts.bearer req = Some t /\ t <> EmptyString
            /\ getCurrentUser t = Ok (Some u)
            /\ req' = Middleware.set_user req u)
  /\ (forall (status : Z) (error : string),
        Middleware.authenticate getCurrentUser req = Middleware.Respond status error ->
        status = 401)
  /\ ((forall t : string, MiddlewareFacts.bearer req = Some t -> t = EmptyString) ->
      Middleware.authenticate getCurrentUser req
      = Middleware.Respond 401 "Access token required")
  /\ (forall t : string,
        MiddlewareFacts.bearer req = Some t -> t <> EmptyString ->
        getCurrentUser t = Ok None ->
        Middleware.authenticate getCurrentUser req
        = Middleware.Respond 401 "Invalid or expired token")
  /\ (forall (t : string) (e : JsError),
        MiddlewareFacts.bearer req = Some t -> t <> EmptyString ->
        getCurrentUser t = Throw e ->
        Middleware.authenticate getCurrentUser req
        = Middleware.Respond 401 "Authentication failed").
Proof.
  rewrite AccessFacts.authenticate_unfold.
  assert (Htruthy : forall t, truthy_str (Some t) = true <-> t <> EmptyString).
  { intros t. cbn [truthy_str]. rewrite negb_true_iff. apply String.eqb_neq. }
  split; [|split; [|split; [|split]]].
  - intros req'. split.
    + destruct (MiddlewareFacts.bearer req) as [t|]; [|discriminate].
      destruct (truthy_str (Some t)) eqn:E; [|discriminate].
      destruct (getCurrentUser t) as [[u|]|e] eqn:Hg; try discriminate.
      intros [= <-]. exists t, u.
      split; [reflexivity|]. split; [now apply Htruthy|]. split; [exact Hg | reflexivity].
    + intros (t & u & -> & Hne & Hg & ->). apply Htruthy in Hne. now rewrite Hne, Hg.
  - intros status error.
    destruct (MiddlewareFacts.bearer req) as [t|]; [|now intros [= <- _]].
    destruct (truthy_str (Some t)); [|now intros [= <- _]].
    destruct (getCurrentUser t) as [[u|]|e]; [discriminate | |]; now intros [= <- _].
  - intros Hempty. destruct (MiddlewareFacts.bearer req) as [t|]; [|reflexivity].
    rewrite (Hempty t eq_refl). reflexivity.
  - intros t -> Hne Hg. apply Htruthy in Hne. now rewrite Hne, Hg.
  - intros t e -> Hne Hg. apply Htruthy in Hne. now rewrite Hne, Hg.
Qed.

(** [authenticate] on a request without header, and on a bearer request
    while the lookup finds nobody and while it throws. *)
Lemma authenticate_outcomes_witness :
  Middleware.authenticate (fun _ => Ok None) (Middleware.mkRequest ∅ None)
  = Middleware.Respond 401 "Access token required"
  /\ Middleware.authenticate (fun _ => Ok None) (AccessFacts.with_bearer "abc")
     = Middleware.Respond 401 "Invalid or expired token"
  /\ Middleware.authenticate (fun _ => Throw (Error "Database error"))
       (AccessFacts.with_bearer "abc")
     = Middleware.Respond 401 "Authentication failed".
Proof.
  split; [|split].
  - apply (authenticate_outcomes (fun _ => Ok None) (Middleware.mkRequest ∅ None)).
    intros t Ht. discriminate Ht.
  - apply (authenticate_outcomes (fun _ => Ok None) (AccessFacts.with_bearer "abc"))
      with (t := "abc"); [reflexivity | discriminate | reflexivity].
  - apply (authenticate_outcomes (fun _ => Throw (Error "Database error"))
             (AccessFacts.with_bearer "abc"))
      with (t := "abc") (e := Error "Database error");
      [reflexivity | discriminate | reflexivity].
Defined.

(** X16. Login end to end: under the jsonwebtoken contract, a request
    whose [Authorization] header is ["Bearer "] followed by the (non-empty)
    token that [generateToken] issued for an active stored user passes
    [authenticate] (wired to [getCurrentUser]) before the token expires,
    with [req.user] set to that user without its password; from the expiry
    on it is refused with 401 "Invalid or expired token". *)
Theorem login_then_authenticate (J : Jwt.Lib) (env : AuthUtils.Env)
    (findById : string -> Result (option User.Doc)) (u : User.Doc) (d now : Z)
    (t : string) (req : Middleware.Request) :
  Jwt.Contract J ->
  Jwt.timespan J (AuthUtils.JWT_EXPIRES_IN env) = Some d ->
  findById (User.toString (User._id u)) = Ok (Some u) ->
  User.isActive u = true ->
  AuthUtils.generateToken J env now u = Ok t ->
  t <> EmptyString ->
  Middleware.headers req !! "authorization" = Some ("Bearer " +:+ t) ->
  (forall now' : Z, now' < now + d ->
      Middleware.authenticate (AuthUtils.getCurrentUser J env findById now') req
      = Middleware.Next (Middleware.set_user req (User.select_minus_password u)))
  /\ (forall now' : Z, now + d <= now' ->
        Middleware.authenticate (AuthUtils.getCurrentUser J env findById now') req
        = Middleware.Respond 401 "Invalid or expired token").
Proof.
  intros HJ Hspan Hstored Hactive Hgen Hne Hheader.
  destruct (TokenFacts.issue_then_verify J env u d now HJ Hspan) as (t' & Hgen' & Hver).
  rewrite Hgen in Hgen'. injection Hgen' as <-.
  assert (Hbearer : MiddlewareFacts.bearer req = Some t).
  { unfold MiddlewareFacts.bearer. rewrite Hheader. apply HeaderFacts.extract_bearer. }
  assert (Htruthy : truthy_str (Some t) = true).
  { cbn [truthy_str]. rewrite negb_true_iff. now apply String.eqb_neq. }
  split; intros now' Hnow'; rewrite AccessFacts.authenticate_unfold,
    Hbearer, Htruthy, LookupFacts.getCurrentUser_unfold, Hver.
  - destruct (Z.leb_spec (now + d) now'); [lia|].
    cbn [Jwt.claims_of Jwt.id Jwt.p_id]. rewrite Hstored.
    unfold LookupFacts.after_lookup. now rewrite Hactive.
  - destruct (Z.leb_spec (now + d) now'); [reflexivity | lia].
Qed.

(** Login end to end at the reference implementation, one second after
    the token was issued. *)
Lemma login_then_authenticate_witness :
  Middleware.authenticate
    (AuthUtils.getCurrentUser JwtModel.fnv_lib TokenFacts.test_env AccessFacts.test_store 1001)
    MiddlewareFacts.bearer_request
  = Middleware.Next
      (Middleware.set_user MiddlewareFacts.bearer_request
         (User.select_minus_password TokenFacts.test_user)).
Proof.
  apply (login_then_authenticate JwtModel.fnv_lib TokenFacts.test_env AccessFacts.test_store
           TokenFacts.test_user 3600 1000 TokenFacts.test_token
           MiddlewareFacts.bearer_request).
  - apply JwtModelFacts.lib_meets_contract.
  - reflexivity.
  - reflexivity.
  - reflexivity.
  - vm_compute. reflexivity.
  - discriminate.
  - reflexivity.
  - lia.
Defined.

(** X17. An admin route is reached only by an admin that the lookup
    resolved: when [authenticate] followed by [requireAdmin] calls [next()],
    the request carries a user of role "admin" that the lookup returned for
    the non-empty bearer token of the request; with [getCurrentUser] as the
    lookup that user is an active stored record, handed on without its
    password. *)
Theorem admin_route_guard (getCurrentUser : string -> Result (option User.Doc))
    (req req' : Middleware.Request) :
  AccessFacts.chain (Middleware.authenticate getCurrentUser) Middleware.requireAdmin req
  = Middleware.Next req' ->
  (exists (t : string) (u : User.Doc),
      MiddlewareFacts.bearer req = Some t /\ t <> EmptyString
      /\ getCurrentUser t = Ok (Some u)
      /\ User.role u = "admin"
      /\ req' = Middleware.set_user req u)
  /\ (forall (J : Jwt.Lib) (env : AuthUtils.Env)
             (findById : string -> Result (option User.Doc)) (now : Z),
        getCurrentUser = AuthUtils.getCurrentUser J env findById now ->
        exists (id : string) (stored : User.Doc),
          findById id = Ok (Some stored) /\ User.isActive stored = true
          /\ User.role stored = "admin"
          /\ Middleware.user req' = Some (User.select_minus_password stored)).
Proof.
  unfold AccessFacts.chain. rewrite AccessFacts.authenticate_unfold.
  destruct (MiddlewareFacts.bearer req) as [t|] eqn:Hb; [|discriminate].
  destruct (truthy_str (Some t)) eqn:Ht; [|discriminate].
  destruct (getCurrentUser t) as [[u|]|e] eqn:Hg; try discriminate.
  unfold Middleware.requireAdmin, Middleware.authorize.
  cbn [Middleware.user Middleware.set_user AuthUtils.role_list existsb].
  rewrite orb_false_r.
  destruct (String.eqb_spec (User.role u) "admin") as [Hrole|]; [|discriminate].
  cbn [negb]. intros [= <-]. split.
  - exists t, u. split; [reflexivity|]. split.
    + cbn [truthy_str] in Ht. rewrite negb_true_iff in Ht. now apply String.eqb_neq.
    + repeat split; assumption.
  - intros J env findById now ->.
    rewrite LookupFacts.getCurrentUser_unfold in Hg.
    destruct (AuthUtils.verifyToken J env now t) as [c|]; [|discriminate].
    unfold LookupFacts.after_lookup in Hg.
    destruct (findById (Jwt.id c)) as [[stored|]|] eqn:Hf; try discriminate.
    destruct (User.isActive stored) eqn:Hact; [|discriminate].
    injection Hg as <-. exists (Jwt.id c), stored.
    split; [exact Hf|]. split; [exact Hact|]. split; [exact Hrole | reflexivity].
Qed.

Module AdminFacts.
Import Middleware.

Definition admin_doc : User.Doc :=
  User.mkDoc (User.ObjectId "507f1f77bcf86cd799439099") "root@example.com"
    "root" "admin" true (Some "hashed").

Definition admin_token : string :=
  Eval vm_compute in
    match AuthUtils.generateToken JwtModel.fnv_lib TokenFacts.test_env 1000 admin_doc with
    | Ok t => t
    | Throw _ => EmptyString
    end.

Definition admin_store : string -> Result (option User.Doc) :=
  fun id => if String.eqb id "507f1f77bcf86cd799439099" then Ok (Some admin_doc) else Ok None.

Definition admin_request : Request := AccessFacts.with_bearer admin_token.

End AdminFacts.

(** The admin route guard for the token of a stored admin. *)
Lemma admin_route_guard_witness :
  exists (t : string) (u : User.Doc),
    MiddlewareFacts.bearer AdminFacts.admin_request = Some t /\ t <> EmptyString
    /\ AuthUtils.getCurrentUser JwtModel.fnv_lib TokenFacts.test_env AdminFacts.admin_store
         1001 t = Ok (Some u)
    /\ User.role u = "admin"
    /\ Middleware.set_user AdminFacts.admin_request
         (User.select_minus_password AdminFacts.admin_doc)
       = Middleware.set_user AdminFacts.admin_request u.
Proof.
  apply (admin_route_guard
           (AuthUtils.getCurrentUser JwtModel.fnv_lib TokenFacts.test_env
              AdminFacts.admin_store 1001)
           AdminFacts.admin_request
           (Middleware.set_user AdminFacts.admin_request
              (User.select_minus_password AdminFacts.admin_doc))).
  vm_compute. reflexivity.
Defined.

(** X18. [optionalAuth] and [authenticate] resolve the user alike: when
    [authenticate] lets a request through, [optionalAuth] hands on the very
    same request; and [optionalAuth] attaches a user only in that case,
    otherwise it hands the request on untouched. *)
Theorem optionalAuth_follows_authenticate
    (getCurrentUser : string -> Result (option User.Doc)) (req : Middleware.Request) :
  (forall req' : Middleware.Request,
      Middleware.authenticate getCurrentUser req = Middleware.Next req' ->
      Middleware.optionalAuth getCurrentUser req = Middleware.Next req')
  /\ ((exists (status : Z) (error : string),
         Middleware.authenticate getCurrentUser req = Middleware.Respond status error) ->
      Middleware.optionalAuth getCurrentUser req = Middleware.Next req).
Proof.
  rewrite AccessFacts.authenticate_unfold, MiddlewareFacts.optionalAuth_unfold.
  unfold MiddlewareFacts.resolved.
  destruct (MiddlewareFacts.bearer req) as [t|].
  - destruct (truthy_str (Some t)).
    + destruct (getCurrentUser t) as [[u|]|e].
      * split; [now intros req' [= <-]|]. intros (status & error & H). discriminate H.
      * split; [discriminate | reflexivity].
      * split; [discriminate | reflexivity].
    + split; [discriminate | reflexivity].
  - split; [discriminate | reflexivity].
Qed.

(** The two middlewares on the bearer request of the test user, and on a
    request without credentials. *)
Lemma optionalAuth_follows_authenticate_witness :
  Middleware.optionalAuth
    (AuthUtils.getCurrentUser JwtModel.fnv_lib TokenFacts.test_env AccessFacts.test_store 1001)
    MiddlewareFacts.bearer_request
  = Middleware.Next
      (Middleware.set_user MiddlewareFacts.bearer_request
         (User.select_minus_password TokenFacts.test_user))
  /\ Middleware.optionalAuth (fun _ => Ok None) (Middleware.mkRequest ∅ None)
     = Middleware.Next (Middleware.mkRequest ∅ None).
Proof.
  split.
  - apply (optionalAuth_follows_authenticate
             (AuthUtils.getCurrentUser JwtModel.fnv_lib TokenFacts.test_env
                AccessFacts.test_store 1001)
             MiddlewareFacts.bearer_request).
    vm_compute. reflexivity.
  - apply (optionalAuth_follows_authenticate (fun _ => Ok None)
             (Middleware.mkRequest ∅ None)).
    exists 401, "Access token required". reflexivity.
Defined.

(** X19. [requireOwner] never lets a request through without a user and a
    non-empty resource owner id: without a user the answer is 401 whatever
    the resource; with a user but a missing or empty owner id it is 400,
    also for an admin; and whenever it calls [next()] the request is
    unchanged and the user is the owner or an admin. *)
Theorem requireOwner_refusals
    (getResourceUserId : Middleware.Request -> option User.Id) (req : Middleware.Request) :
  (Middleware.user req = None ->
     Middleware.requireOwner getResourceUserId req
     = Middleware.Respond 401 "Authentication required")
  /\ (forall u : User.Doc,
        Middleware.user req = Some u ->
        User.truthy_id (getResourceUserId req) = false ->
        Middleware.requireOwner getResourceUserId req
        = Middleware.Respond 400 "Resource not found")
  /\ (forall req' : Middleware.Request,
        Middleware.requireOwner getResourceUserId req = Middleware.Next req' ->
        req' = req
        /\ exists (u : User.Doc) (rid : User.Id),
             Middleware.user req = Some u
             /\ getResourceUserId req = Some rid
             /\ User.truthy_id (Some rid) = true
             /\ (User.toString (User._id u) = User.toString rid \/ User.role u = "admin")).
Proof.
  unfold Middleware.requireOwner.
  destruct (Middleware.user req) as [u|]; [|repeat split; discriminate].
  split; [discriminate|]. split.
  - intros u' [= <-] Hfalsy. destruct (getResourceUserId req) as [rid|]; [|reflexivity].
    now rewrite Hfalsy.
  - intros req'. destruct (getResourceUserId req) as [rid|]; [|discriminate].
    destruct (User.truthy_id (Some rid)) eqn:Ht; [|discriminate]. cbn [negb].
    destruct (String.eqb_spec (User.toString (User._id u)) (User.toString rid)) as [Ho|Ho];
      destruct (String.eqb_spec (User.role u) "admin") as [Ha|Ha];
      cbn [negb andb]; try discriminate; intros [= <-];
      (split; [reflexivity|]); exists u, rid; repeat split; auto.
Qed.

(** [requireOwner] for an admin when the resource has no owner id, and
    for a request without a user. *)
Lemma requireOwner_refusals_witness :
  Middleware.requireOwner (fun _ => None)
    (MiddlewareFacts.owner_request MiddlewareFacts.admin_user)
  = Middleware.Respond 400 "Resource not found"
  /\ Middleware.requireOwner (fun _ => Some (User.IdString "u1")) (Middleware.mkRequest ∅ None)
     = Middleware.Respond 401 "Authentication required".
Proof.
  split.
  - apply (requireOwner_refusals (fun _ => None)
             (MiddlewareFacts.owner_request MiddlewareFacts.admin_user))
      with (u := MiddlewareFacts.admin_user); reflexivity.
  - apply (requireOwner_refusals (fun _ => Some (User.IdString "u1"))
             (Middleware.mkRequest ∅ None)).
    reflexivity.
Defined.

(* ================================================================== *)
(** * server/src/middleware/errorHandler.js                            *)
(* ================================================================== *)

Module ErrorHandler.

(** The properties of an error object that the handler reads; an absent
    property is [None] ([JsUndefined] for [code], [false] for the flag). *)
Record Err := mkErr {
  e_message : option string;
  e_status : option Z;
  e_name : option string;
  e_code : JsVal;
  (** [err.errors] of a Mongoose validation error: path and message, in
      insertion order *)
  e_errors : option (list (string * string));
  (** [err.keyValue] of a duplicate-key error *)
  e_keyValue : option (list (string * JsVal));
  e_type : option string;
  e_isOperational : bool;
  e_stack : option string
}.

(** The local [error] object. *)
Record Draft := mkDraft {
  d_message : option string;
  d_status : Z;
  d_details : option (list string)
}.

(** The JSON body passed to [res.status(status).json(...)]; [status] is
    also the HTTP status. A property that is absent or [undefined] is
    [None]. *)
Record Response := mkResponse {
  r_error : option string;
  r_status : Z;
  r_details : option (list string);
  r_stack : option string
}.

(** [x === 'text'] on a property that may be absent *)
Definition is_text (x : option string) (text : string) : bool :=
  match x with
  | Some s => String.eqb s text
  | None => false
  end.

(** [err.code === 11000] and [err.code === 'TEXT'] *)
Definition code_is_number (code : JsVal) (n : Z) : bool :=
  match code with
  | JsNumber z => z =? n
  | _ => false
  end.

Definition code_is_text (code : JsVal) (text : string) : bool :=
  match code with
  | JsString s => String.eqb s text
  | _ => false
  end.

(** [new TypeError(...)], thrown by [Object.values] and [Object.keys] on
    [undefined] *)
Definition TypeError (msg : string) : JsError := mkError "TypeError" msg.

(** [Object.keys(o)[0]] inside a template literal *)
Definition first_key_text (o : list (string * JsVal)) : string :=
  match o with
  | (k, _) :: _ => k
  | [] => "undefined"
  end.

Definition errorHandler (NODE_ENV : option string) (err : Err) : Result Response :=
  let error :=
    mkDraft (Some (AuthUtils.str_or (e_message err) "Internal Server Error"))
            (num_or (e_status err) 500) None in
  error ←
    (if is_text (e_name err) "ValidationError" then
       match e_errors err with
       | Some errors => mret (mkDraft (Some "Validation Error") 400 (Some (map snd errors)))
       | None => Throw (TypeError "Cannot convert undefined or null to object")
       end
     else mret error);
  error ←
    (if code_is_number (e_code err) 11000 then
       match e_keyValue err with
       | Some keyValue =>
           mret (mkDraft (Some "Duplicate field value") 400
                   (Some [first_key_text keyValue +:+ " already exists"]))
       | None => Throw (TypeError "Cannot convert undefined or null to object")
       end
     else mret error);
  let error :=
    if is_text (e_name err) "CastError"
    then mkDraft (Some "Invalid ID format") 400 (d_details error) else error in
  let error :=
    if is_text (e_name err) "JsonWebTokenError"
    then mkDraft (Some "Invalid token") 401 (d_details error) else error in
  let error :=
    if is_text (e_name err) "TokenExpiredError"
    then mkDraft (Some "Token expired") 401 (d_details error) else error in
  let error :=
    if is_text (e_type err) "entity.parse.failed"
    then mkDraft (Some "Invalid JSON payload") 400 (d_details error) else error in
  let error :=
    if code_is_text (e_code err) "LIMIT_FILE_SIZE"
    then mkDraft (Some "File too large") 400 (d_details error) else error in
  let error :=
    if code_is_text (e_code err) "LIMIT_UNEXPECTED_FILE"
    then mkDraft (Some "Unexpected file field") 400 (d_details error) else error in
  let error :=
    if e_isOperational err
    then mkDraft (e_message err) (num_or (e_status err) 400) (d_details error) else error in
  let stack := if is_text NODE_ENV "development" then e_stack err else None in
  mret (mkResponse (d_message error) (d_status error) (d_details error) stack).

(** [new AppError(message, status)]; the engine supplies the stack. *)
Definition AppError (message : string) (status : option Z) (stack : string) : Err :=
  mkErr (Some message) (Some (default 400 status)) (Some "Error") JsUndefined
        None None None true (Some stack).

(** [notFound]: the error handed to [next]. *)
Definition notFound (originalUrl : string) (stack : string) : Err :=
  AppError ("Route " +:+ originalUrl +:+ " not found") (Some 404) stack.

(** An error thrown by the code modelled above, which has a name and a
    message only. *)
Definition of_JsError (e : JsError) : Err :=
  mkErr (Some (err_message e)) None (Some (err_name e)) JsUndefined
        None None None false None.

End ErrorHandler.

Module ErrorHandlerFacts.
Import ErrorHandler.

(** The draft after the Mongoose validation rule and after the
    duplicate-key rule, the two rules that may fail. *)
Definition after_validation (err : Err) : Result Draft :=
  if is_text (e_name err) "ValidationError" then
    match e_errors err with
    | Some errors => Ok (mkDraft (Some "Validation Error") 400 (Some (map snd errors)))
    | None => Throw (TypeError "Cannot convert undefined or null to object")
    end
  else Ok (mkDraft (Some (AuthUtils.str_or (e_message err) "Internal Server Error"))
             (num_or (e_status err) 500) None).

Definition after_duplicate (err : Err) (d : Draft) : Result Draft :=
  if code_is_number (e_code err) 11000 then
    match e_keyValue err with
    | Some keyValue =>
        Ok (mkDraft (Some "Duplicate field value") 400
              (Some [first_key_text keyValue +:+ " already exists"]))
    | None => Throw (TypeError "Cannot convert undefined or null to object")
    end
  else Ok d.

(** The rules that only overwrite message and status. *)
Definition overwrite (b : bool) (message : option string) (status : Z) (d : Draft) : Draft :=
  if b then mkDraft message status (d_details d) else d.

Definition later_rules (err : Err) (d : Draft) : Draft :=
  overwrite (e_isOperational err) (e_message err) (num_or (e_status err) 400)
    (overwrite (code_is_text (e_code err) "LIMIT_UNEXPECTED_FILE") (Some "Unexpected file field") 400
      (overwrite (code_is_text (e_code err) "LIMIT_FILE_SIZE") (Some "File too large") 400
        (overwrite (is_text (e_type err) "entity.parse.failed") (Some "Invalid JSON payload") 400
          (overwrite (is_text (e_name err) "TokenExpiredError") (Some "Token expired") 401
            (overwrite (is_text (e_name err) "JsonWebTokenError") (Some "Invalid token") 401
              (overwrite (is_text (e_name err) "CastError") (Some "Invalid ID format") 400
                 d)))))).

Definition shown_stack (NODE_ENV : option string) (err : Err) : option string :=
  if is_text NODE_ENV "development" then e_stack err else None.

Lemma errorHandler_unfold (NODE_ENV : option string) (err : Err) :
  errorHandler NODE_ENV err =
    match after_validation err with
    | Ok d1 =>
        match after_duplicate err d1 with
        | Ok d2 =>
            let d := later_rules err d2 in
            Ok (mkResponse (d_message d) (d_status d) (d_details d) (shown_stack NODE_ENV err))
        | Throw e => Throw e
        end
    | Throw e => Throw e
    end.
Proof.
  unfold errorHandler, after_validation, after_duplicate.
  destruct (is_text (e_name err) "ValidationError").
  - destruct (e_errors err); [|reflexivity].
    cbn [mbind Result_bind mret Result_ret].
    destruct (code_is_number (e_code err) 11000); [|reflexivity].
    destruct (e_keyValue err); reflexivity.
  - cbn [mbind Result_bind mret Result_ret].
    destruct (code_is_number (e_code err) 11000); [|reflexivity].
    destruct (e_keyValue err); reflexivity.
Qed.

Lemma is_text_true (x : option string) (t : string) : is_text x t = true -> x = Some t.
Proof.
  destruct x as [s|]; [|discriminate]. simpl. intros H.
  apply String.eqb_eq in H. now subst.
Qed.

Lemma code_is_number_true (c : JsVal) (n : Z) : code_is_number c n = true -> c = JsNumber n.
Proof.
  destruct c; try discriminate. simpl. intros H. apply Z.eqb_eq in H. now subst.
Qed.

Lemma after_validation_details (err : Err) (d : Draft) (ds : list string) :
  after_validation err = Ok d -> d_details d = Some ds ->
  e_name err = Some "ValidationError".
Proof.
  unfold after_validation.
  destruct (is_text (e_name err) "ValidationError") eqn:E.
  - intros _ _. now apply is_text_true.
  - intros [= <-]. discriminate.
Qed.

Lemma after_validation_throws (err : Err) (e : JsError) :
  after_validation err = Throw e ->
  e_name err = Some "ValidationError" /\ e_errors err = None.
Proof.
  unfold after_validation.
  destruct (is_text (e_name err) "ValidationError") eqn:E; [|discriminate].
  destruct (e_errors err); [discriminate|]. intros _. split; [|reflexivity].
  now apply is_text_true.
Qed.

Lemma after_duplicate_details (err : Err) (d1 d2 : Draft) (ds : list string) :
  after_duplicate err d1 = Ok d2 -> d_details d2 = Some ds ->
  e_code err = JsNumber 11000 \/ d_details d1 = Some ds.
Proof.
  unfold after_duplicate.
  destruct (code_is_number (e_code err) 11000) eqn:E.
  - intros _ _. left. now apply code_is_number_true.
  - intros [= <-] H. now right.
Qed.

Lemma after_duplicate_throws (err : Err) (d : Draft) (e : JsError) :
  after_duplicate err d = Throw e ->
  e_code err = JsNumber 11000 /\ e_keyValue err = None.
Proof.
  unfold after_duplicate.
  destruct (code_is_number (e_code err) 11000) eqn:E; [|discriminate].
  destruct (e_keyValue err); [discriminate|]. intros _. split; [|reflexivity].
  now apply code_is_number_true.
Qed.

Lemma overwrite_details (b : bool) (m : option string) (st : Z) (d : Draft) :
  d_details (overwrite b m st d) = d_details d.
Proof. now destruct b. Qed.

Lemma later_rules_details (err : Err) (d : Draft) :
  d_details (later_rules err d) = d_details d.
Proof. unfold later_rules. now rewrite !overwrite_details. Qed.

Lemma later_rules_operational (err : Err) (d : Draft) :
  e_isOperational err = true ->
  later_rules err d = mkDraft (e_message err) (num_or (e_status err) 400) (d_details d).
Proof.
  intros H. unfold later_rules. rewrite H. unfold overwrite at 1.
  now rewrite !overwrite_details.
Qed.

End ErrorHandlerFacts.

(** X20. Operational errors keep their message and status: whenever
    [errorHandler] answers for an error whose [isOperational] flag is set,
    the response carries the error's own message and its status (400 when
    the status is missing or 0), whatever the other rules would have said.
    In particular an [AppError] is answered with its message and status, and
    the error built by [notFound] with 404 and "Route <url> not found". *)
Theorem errorHandler_operational (NODE_ENV : option string) :
  (forall (err : ErrorHandler.Err) (r : ErrorHandler.Response),
      ErrorHandler.errorHandler NODE_ENV err = Ok r ->
      ErrorHandler.e_isOperational err = true ->
      ErrorHandler.r_error r = ErrorHandler.e_message err
      /\ ErrorHandler.r_status r = num_or (ErrorHandler.e_status err) 400)
  /\ (forall (message : string) (status : option Z) (stack : string),
        ErrorHandler.errorHandler NODE_ENV (ErrorHandler.AppError message status stack)
        = Ok (ErrorHandler.mkResponse (Some message)
                (num_or (Some (default 400 status)) 400) None
                (ErrorHandlerFacts.shown_stack NODE_ENV
                   (ErrorHandler.AppError message status stack))))
  /\ (forall originalUrl stack : string,
        ErrorHandler.errorHandler NODE_ENV (ErrorHandler.notFound originalUrl stack)
        = Ok (ErrorHandler.mkResponse (Some ("Route " +:+ originalUrl +:+ " not found"))
                404 None
                (ErrorHandlerFacts.shown_stack NODE_ENV
                   (ErrorHandler.notFound originalUrl stack)))).
Proof.
  split; [|split].
  - intros err r Hr Hop. rewrite ErrorHandlerFacts.errorHandler_unfold in Hr.
    destruct (ErrorHandlerFacts.after_validation err) as [d1|]; [|discriminate].
    destruct (ErrorHandlerFacts.after_duplicate err d1) as [d2|]; [|discriminate].
    cbv zeta in Hr. rewrite (ErrorHandlerFacts.later_rules_operational err d2 Hop) in Hr.
    injection Hr as <-. split; reflexivity.
  - intros message status stack. rewrite ErrorHandlerFacts.errorHandler_unfold. reflexivity.
  - intros originalUrl stack. rewrite ErrorHandlerFacts.errorHandler_unfold. reflexivity.
Qed.

(** The operational rule for an error that also looks like an expired
    token. *)
Lemma errorHandler_operational_witness :
  ErrorHandler.r_error
    (ErrorHandler.mkResponse (Some "Access denied") 403 None None) = Some "Access denied"
  /\ ErrorHandler.r_status
       (ErrorHandler.mkResponse (Some "Access denied") 403 None None)
     = num_or (Some 403) 400.
Proof.
  destruct (errorHandler_operational None) as (Hop & _).
  apply (Hop (ErrorHandler.mkErr (Some "Access denied") (Some 403) (Some "TokenExpiredError")
                JsUndefined None None None true None)
             (ErrorHandler.mkResponse (Some "Access denied") 403 None None));
    reflexivity.
Defined.

(** X21. What [errorHandler] never does: the stack is part of the
    response only when [NODE_ENV] is "development"; [details] are sent only
    for a Mongoose validation error or a duplicate-key error; and the
    handler itself fails only for a validation error without [errors] or a
    duplicate-key error without [keyValue]. *)
Theorem errorHandler_safety (NODE_ENV : option string) (err : ErrorHandler.Err) :
  (forall r : ErrorHandler.Response,
      ErrorHandler.errorHandler NODE_ENV err = Ok r ->
      (forall s : string,
          ErrorHandler.r_stack r = Some s ->
          NODE_ENV = Some "development" /\ ErrorHandler.e_stack err = Some s)
      /\ (forall ds : list string,
            ErrorHandler.r_details r = Some ds ->
            ErrorHandler.e_name err = Some "ValidationError"
            \/ ErrorHandler.e_code err = JsNumber 11000))
  /\ (forall e : JsError,
        ErrorHandler.errorHandler NODE_ENV err = Throw e ->
        (ErrorHandler.e_name err = Some "ValidationError"
         /\ ErrorHandler.e_errors err = None)
        \/ (ErrorHandler.e_code err = JsNumber 11000
            /\ ErrorHandler.e_keyValue err = None)).
Proof.
  rewrite ErrorHandlerFacts.errorHandler_unfold. split.
  - intros r Hr.
    destruct (ErrorHandlerFacts.after_validation err) as [d1|] eqn:E1; [|discriminate].
    destruct (ErrorHandlerFacts.after_duplicate err d1) as [d2|] eqn:E2; [|discriminate].
    cbv zeta in Hr. injection Hr as <-.
    cbn [ErrorHandler.r_stack ErrorHandler.r_details]. split.
    + intros s Hs. unfold ErrorHandlerFacts.shown_stack in Hs.
      destruct (ErrorHandler.is_text NODE_ENV "development") eqn:Ed; [|discriminate].
      split; [now apply ErrorHandlerFacts.is_text_true | exact Hs].
    + intros ds Hds. rewrite ErrorHandlerFacts.later_rules_details in Hds.
      destruct (ErrorHandlerFacts.after_duplicate_details err d1 d2 ds E2 Hds) as [Hc|Hd1];
        [now right|].
      left. exact (ErrorHandlerFacts.after_validation_details err d1 ds E1 Hd1).
  - intros e He.
    destruct (ErrorHandlerFacts.after_validation err) as [d1|e1] eqn:E1.
    + right. destruct (ErrorHandlerFacts.after_duplicate err d1) as [d2|e2] eqn:E2;
        [discriminate|].
      exact (ErrorHandlerFacts.after_duplicate_throws err d1 e2 E2).
    + left. exact (ErrorHandlerFacts.after_validation_throws err e1 E1).
Qed.

(** The safety properties for an error with a stack, in development. *)
Lemma errorHandler_safety_witness :
  Some "development" = Some "development"
  /\ ErrorHandler.e_stack (ErrorHandler.AppError "Access denied" (Some 403) "at handler")
     = Some "at handler".
Proof.
  destruct (errorHandler_safety (Some "development")
              (ErrorHandler.AppError "Access denied" (Some 403) "at handler")) as (Hok & _).
  destruct (Hok (ErrorHandler.mkResponse (Some "Access denied") 403 None (Some "at handler"))
              eq_refl) as (Hstack & _).
  apply (Hstack "at handler"). reflexivity.
Defined.

(** X22. Errors told apart by name: for an error that is not operational
    and has neither [code] nor [type], [errorHandler] answers 401 "Token
    expired" for the name TokenExpiredError, 401 "Invalid token" for
    JsonWebTokenError and 400 "Invalid ID format" for CastError, whatever the
    error's own message and status; for every other name except
    ValidationError it answers with the error's own status (500 when missing
    or 0) and message ("Internal Server Error" when missing or empty). *)
Theorem errorHandler_by_name (NODE_ENV : option string) (err : ErrorHandler.Err) :
  ErrorHandler.e_isOperational err = false ->
  ErrorHandler.e_code err = JsUndefined ->
  ErrorHandler.e_type err = None ->
  let answer (message : string) (status : Z) :=
    ErrorHandler.errorHandler NODE_ENV err
    = Ok (ErrorHandler.mkResponse (Some message) status None
            (ErrorHandlerFacts.shown_stack NODE_ENV err)) in
  (ErrorHandler.e_name err = Some "TokenExpiredError" -> answer "Token expired" 401)
  /\ (ErrorHandler.e_name err = Some "JsonWebTokenError" -> answer "Invalid token" 401)
  /\ (ErrorHandler.e_name err = Some "CastError" -> answer "Invalid ID format" 400)
  /\ (ErrorHandler.is_text (ErrorHandler.e_name err) "ValidationError" = false ->
      ErrorHandler.is_text (ErrorHandler.e_name err) "CastError" = false ->
      ErrorHandler.is_text (ErrorHandler.e_name err) "JsonWebTokenError" = false ->
      ErrorHandler.is_text (ErrorHandler.e_name err) "TokenExpiredError" = false ->
      answer (AuthUtils.str_or (ErrorHandler.e_message err) "Internal Server Error")
             (num_or (ErrorHandler.e_status err) 500)).
Proof.
  intros Hop Hcode Htype answer. subst answer. cbv beta.
  rewrite ErrorHandlerFacts.errorHandler_unfold.
  unfold ErrorHandlerFacts.after_validation, ErrorHandlerFacts.after_duplicate,
    ErrorHandlerFacts.later_rules.
  rewrite Hop, Hcode, Htype.
  cbn [ErrorHandler.code_is_number ErrorHandler.code_is_text ErrorHandler.is_text
       ErrorHandlerFacts.overwrite].
  split; [|split; [|split]].
  - intros ->. reflexivity.
  - intros ->. reflexivity.
  - intros ->. reflexivity.
  - intros H1 H2 H3 H4. cbn [ErrorHandler.is_text] in H1, H2, H3, H4.
    destruct (ErrorHandler.e_name err) as [n|].
    + rewrite H1, H2, H3, H4. reflexivity.
    + reflexivity.
Qed.

(** The errors of jsonwebtoken, and the error [verifyToken] throws, at
    the global handler. *)
Lemma errorHandler_by_name_witness :
  ErrorHandler.errorHandler None (ErrorHandler.of_JsError Jwt.TokenExpiredError)
  = Ok (ErrorHandler.mkResponse (Some "Token expired") 401 None None)
  /\ ErrorHandler.errorHandler None (ErrorHandler.of_JsError Jwt.invalid_signature)
     = Ok (ErrorHandler.mkResponse (Some "Invalid token") 401 None None)
  /\ ErrorHandler.errorHandler None (ErrorHandler.of_JsError (Error "Invalid token"))
     = Ok (ErrorHandler.mkResponse (Some "Invalid token") 500 None None).
Proof.
  split; [|split].
  - apply (errorHandler_by_name None (ErrorHandler.of_JsError Jwt.TokenExpiredError));
      reflexivity.
  - apply (errorHandler_by_name None (ErrorHandler.of_JsError Jwt.invalid_signature));
      reflexivity.
  - apply (errorHandler_by_name None (ErrorHandler.of_JsError (Error "Invalid token")));
      reflexivity.
Defined.

(* ================================================================== *)
(** * Slugs: models/Category.js and routes/posts.js                    *)
(* ================================================================== *)

(** The same chain builds the slug in the pre-save hook of the Category
    model and in the create and update handlers of the posts routes:
    [text.toLowerCase().replace(/[^a-z0-9\s-]/g, '').replace(/\s+/g, '-')
         .replace(/-+/g, '-').trim('-')].
    [String.prototype.trim] takes no argument, so the last step trims
    white space. *)
Module Slug.

(** [toLowerCase] on a code unit below 256: the letters A-Z and the
    accented capitals of Latin-1 move up by 32. *)
Definition lower_char (c : ascii) : ascii :=
  if is_upper c || (in_range 192 222 c && negb (code c =? 215))
  then ascii_of_N (N_of_ascii c + 32)
  else c.

Fixpoint toLowerCase (s : string) : string :=
  match s with
  | EmptyString => EmptyString
  | String c r => String (lower_char c) (toLowerCase r)
  end.

Definition is_hyphen (c : ascii) : bool := Ascii.eqb c "-".

(** [[a-z0-9\s-]] *)
Definition kept (c : ascii) : bool :=
  is_lower c || is_digit c || is_ws c || is_hyphen c.

(** [s.replace(/[^...]/g, '')]: the code units outside the class go. *)
Fixpoint keep_only (p : ascii -> bool) (s : string) : string :=
  match s with
  | EmptyString => EmptyString
  | String c r => if p c then String c (keep_only p r) else keep_only p r
  end.

(** [s.replace(/p+/g, rep)]: every maximal run of code units in the class
    [p] becomes one [rep], written when the run ends. *)
Fixpoint squeeze (p : ascii -> bool) (rep : ascii) (s : string) : string :=
  match s with
  | EmptyString => EmptyString
  | String c r =>
      if p c then
        match r with
        | String d _ => if p d then squeeze p rep r else String rep (squeeze p rep r)
        | EmptyString => String rep EmptyString
        end
      else String c (squeeze p rep r)
  end.

Definition slugify (text : string) : string :=
  trim (squeeze is_hyphen "-" (squeeze is_ws "-" (keep_only kept (toLowerCase text)))).

(** [[a-z0-9-]] *)
Definition slug_char (c : ascii) : bool := is_lower c || is_digit c || is_hyphen c.

(** No two hyphens in a row. *)
Fixpoint no_double_hyphen (s : string) : bool :=
  match s with
  | EmptyString => true
  | String c r =>
      match r with
      | String d _ => negb (is_hyphen c && is_hyphen d) && no_double_hyphen r
      | EmptyString => true
      end
  end.

(** The shape of a finished slug. *)
Definition is_slug (s : string) : bool := str_forall slug_char s && no_double_hyphen s.

End Slug.

Module SlugFacts.
Import Slug StringFacts SanitizeFacts.

Lemma keep_only_forall (p : ascii -> bool) (s : string) :
  str_forall p (keep_only p s) = true.
Proof.
  induction s as [|c r IH]; [reflexivity|]. simpl.
  destruct (p c) eqn:E; [|exact IH]. simpl. now rewrite E.
Qed.

Lemma keep_only_id (p : ascii -> bool) (s : string) :
  str_forall p s = true -> keep_only p s = s.
Proof.
  induction s as [|c r IH]; [reflexivity|]. simpl.
  intros H. apply andb_true_iff in H as [Hc Hr]. now rewrite Hc, IH.
Qed.

Lemma squeeze_id (p : ascii -> bool) (rep : ascii) (s : string) :
  str_forall (fun c => negb (p c)) s = true -> squeeze p rep s = s.
Proof.
  induction s as [|c r IH]; [reflexivity|]. cbn [str_forall squeeze].
  intros H. apply andb_true_iff in H as [Hc Hr]. apply negb_true_iff in Hc.
  now rewrite Hc, IH.
Qed.

(** Squeezing a class into a character of [q] leaves only [q] when the
    other characters were in [q] already. *)
Lemma squeeze_forall (p q : ascii -> bool) (rep : ascii) (s : string) :
  q rep = true ->
  str_forall (fun c => p c || q c) s = true ->
  str_forall q (squeeze p rep s) = true.
Proof.
  intros Hrep. induction s as [|c r IH]; [reflexivity|].
  cbn [str_forall squeeze]. intros H. apply andb_true_iff in H as [Hc Hr].
  specialize (IH Hr). destruct (p c) eqn:E.
  - destruct r as [|d r']; [simpl; now rewrite Hrep|].
    destruct (p d); [exact IH|]. cbn [str_forall]. now rewrite Hrep, IH.
  - simpl in Hc. cbn [str_forall]. now rewrite Hc, IH.
Qed.

Lemma is_hyphen_eq (c : ascii) : is_hyphen c = true -> c = "-"%char.
Proof. apply Ascii.eqb_eq. Qed.

Lemma no_double_cons (c : ascii) (s : string) :
  no_double_hyphen (String c s) =
    match s with
    | String d _ => negb (is_hyphen c && is_hyphen d)
    | EmptyString => true
    end && no_double_hyphen s.
Proof. destruct s; reflexivity. Qed.

Lemma squeeze_no_double (s : string) :
  no_double_hyphen (squeeze is_hyphen "-" s) = true.
Proof.
  induction s as [|c r IH]; [reflexivity|]. cbn [squeeze].
  destruct (is_hyphen c) eqn:E.
  - destruct r as [|d r']; [reflexivity|].
    destruct (is_hyphen d) eqn:Ed; [exact IH|].
    rewrite no_double_cons, IH. cbn [squeeze]. rewrite Ed.
    now rewrite Ed, andb_false_r.
  - rewrite no_double_cons, IH, E.
    now destruct (squeeze is_hyphen "-" r).
Qed.

Lemma squeeze_hyphen_id (s : string) :
  no_double_hyphen s = true -> squeeze is_hyphen "-" s = s.
Proof.
  induction s as [|c r IH]; [reflexivity|]. cbn [squeeze no_double_hyphen].
  destruct r as [|d r'].
  - intros _. destruct (is_hyphen c) eqn:E; [|reflexivity].
    now rewrite (is_hyphen_eq c E).
  - intros H. apply andb_true_iff in H as [Hcd Hr]. rewrite (IH Hr).
    destruct (is_hyphen c) eqn:E; [|reflexivity].
    simpl in Hcd. apply negb_true_iff in Hcd. rewrite Hcd.
    now rewrite (is_hyphen_eq c E).
Qed.

Lemma slug_char_facts (c : ascii) :
  slug_char c = true ->
  lower_char c = c /\ kept c = true /\ is_ws c = false.
Proof.
  destruct c as [[] [] [] [] [] [] [] []]; vm_compute; intros H;
    try discriminate H; repeat split.
Qed.

Lemma kept_after_ws (c : ascii) : kept c = true -> is_ws c || slug_char c = true.
Proof. revert c. ValidationMoreFacts.by_cases_on_char. Qed.

Lemma toLowerCase_id (s : string) : str_forall slug_char s = true -> toLowerCase s = s.
Proof.
  induction s as [|c r IH]; [reflexivity|]. simpl.
  intros H. apply andb_true_iff in H as [Hc Hr].
  destruct (slug_char_facts c Hc) as (-> & _). now rewrite IH.
Qed.

Lemma slug_chars_no_edge_ws (s : string) :
  str_forall slug_char s = true -> no_surrounding_ws s = true.
Proof.
  intros H.
  assert (Hws : str_forall not_ws s = true).
  { revert H. apply str_forall_weaken. intros c Hc.
    destruct (slug_char_facts c Hc) as (_ & _ & Hw). unfold not_ws. now rewrite Hw. }
  unfold no_surrounding_ws. apply andb_true_iff. split.
  - destruct s as [|c r]; [reflexivity|]. simpl in *. now apply andb_true_iff in Hws as [? _].
  - clear H. induction s as [|c r IH]; [reflexivity|].
    cbn [str_forall] in Hws. apply andb_true_iff in Hws as [Hc Hr].
    cbn [last_char]. specialize (IH Hr). destruct (last_char r); [exact IH | exact Hc].
Qed.

(** The text before the final [trim]. *)
Definition untrimmed (text : string) : string :=
  squeeze is_hyphen "-" (squeeze is_ws "-" (keep_only kept (toLowerCase text))).

Lemma untrimmed_chars (text : string) : str_forall slug_char (untrimmed text) = true.
Proof.
  unfold untrimmed.
  apply squeeze_forall; [reflexivity|].
  apply (str_forall_weaken slug_char); [intros c ->; apply orb_true_r|].
  apply squeeze_forall; [reflexivity|].
  apply (str_forall_weaken kept); [exact kept_after_ws|].
  apply keep_only_forall.
Qed.

Lemma slugify_untrimmed (text : string) : slugify text = untrimmed text.
Proof.
  unfold slugify. fold (untrimmed text).
  apply ValidationMoreFacts.trim_id. apply slug_chars_no_edge_ws. apply untrimmed_chars.
Qed.

Lemma slugify_is_slug (text : string) : is_slug (slugify text) = true.
Proof.
  rewrite slugify_untrimmed. unfold is_slug.
  rewrite untrimmed_chars. unfold untrimmed. now rewrite squeeze_no_double.
Qed.

Lemma slugify_fixes_slugs (s : string) : is_slug s = true -> slugify s = s.
Proof.
  unfold is_slug. intros H. apply andb_true_iff in H as [Hc Hd].
  rewrite slugify_untrimmed. unfold untrimmed.
  rewrite (toLowerCase_id s Hc).
  assert (Hkept : str_forall kept s = true).
  { revert Hc. apply str_forall_weaken. intros c Hc.
    now destruct (slug_char_facts c Hc) as (_ & ? & _). }
  assert (Hws : str_forall (fun c => negb (is_ws c)) s = true).
  { revert Hc. apply str_forall_weaken. intros c Hc.
    destruct (slug_char_facts c Hc) as (_ & _ & Hw). now rewrite Hw. }
  rewrite (keep_only_id kept s Hkept), (squeeze_id is_ws "-" s Hws).
  now apply squeeze_hyphen_id.
Qed.

End SlugFacts.

(** X23. Every slug consists of the characters [a-z], [0-9] and [-] only
    and has no two hyphens in a row; the final [.trim('-')] changes nothing,
    so hyphens at the ends stay; and the chain is idempotent: a text of that
    shape is its own slug, in particular the slug of a slug is the slug. *)
Theorem slugify_shape (text : string) :
  str_forall Slug.slug_char (Slug.slugify text) = true
  /\ Slug.no_double_hyphen (Slug.slugify text) = true
  /\ Slug.slugify text = SlugFacts.untrimmed text
  /\ Slug.slugify (Slug.slugify text) = Slug.slugify text
  /\ (Slug.is_slug text = true -> Slug.slugify text = text).
Proof.
  pose proof (SlugFacts.slugify_is_slug text) as H.
  unfold Slug.is_slug in H. apply andb_true_iff in H as [Hc Hd].
  split; [exact Hc|]. split; [exact Hd|].
  split; [apply SlugFacts.slugify_untrimmed|].
  split; [apply SlugFacts.slugify_fixes_slugs, SlugFacts.slugify_is_slug|].
  apply SlugFacts.slugify_fixes_slugs.
Qed.

(** A finished slug is its own slug. *)
Lemma slugify_shape_witness :
  Slug.slugify "my-first-post-2024" = "my-first-post-2024".
Proof. apply (slugify_shape "my-first-post-2024"). reflexivity. Defined.

(* ================================================================== *)
(** * The in-memory posts router (src/unnamed/part_004)                *)
(* ================================================================== *)

(** The module keeps its posts in one array shared by all requests; the
    handlers below take the array and return it, and the two clock
    readings of a request ([Date.now()] in milliseconds and [new Date()])
    are arguments. The handlers' own [try/catch] guards code that cannot
    throw here and is left out. *)
Module MemoryPosts.

Record Post := mkPost {
  id : string;
  title : string;
  content : string;
  author : string;
  createdAt : Z
}.

(** [req.body]; a field that was not sent is [None]. *)
Record Body := mkBody {
  b_title : option string;
  b_content : option string
}.

Inductive Response : Type :=
| Created (post : Post)                  (* 201 { success: true, post } *)
| Invalid (errors : list string)         (* 400 { errors } *)
| Listed (posts : list Post)             (* 200 { success: true, posts } *)
| Found (post : Post)                    (* 200 { success: true, post } *)
| Missing.                               (* 404 { error: 'Post not found' } *)

Definition status (r : Response) : Z :=
  match r with
  | Created _ => 201
  | Invalid _ => 400
  | Listed _ | Found _ => 200
  | Missing => 404
  end.

(** [body(field).isLength({ min })] of express-validator: a field that
    is missing counts as the empty text. *)
Definition isLength_min (min : nat) (v : option string) : bool :=
  Nat.leb min (String.length (default EmptyString v)).

Definition msg_title := "Title must be at least 3 characters".
Definition msg_content := "Content must be at least 10 characters".

(** [validationResult(req).array()], as the list of messages *)
Definition validationResult (body : Body) : list string :=
  (if isLength_min 3 (b_title body) then [] else [msg_title])
  ++ (if isLength_min 10 (b_content body) then [] else [msg_content]).

(** [router.post('/')] *)
Definition create (posts : list Post) (now at_ : Z) (body : Body)
  : list Post * Response :=
  let errors := validationResult body in
  if negb (Nat.eqb (length errors) 0) then (posts, Invalid errors)
  else
    let post :=
      mkPost (JwtModel.dec now) (default EmptyString (b_title body))
        (default EmptyString (b_content body)) "testuser" at_ in
    (posts ++ [post], Created post).

(** [router.get('/')] *)
Definition list_all (posts : list Post) : list Post * Response := (posts, Listed posts).

(** [router.get('/:id')] *)
Definition get_one (posts : list Post) (wanted : string) : list Post * Response :=
  match find (fun p => String.eqb (id p) wanted) posts with
  | Some post => (posts, Found post)
  | None => (posts, Missing)
  end.

(** What holds of every stored post. *)
Definition well_formed (p : Post) : Prop :=
  (3 <= String.length (title p))%nat
  /\ (10 <= String.length (content p))%nat
  /\ author p = "testuser".

End MemoryPosts.

Module MemoryPostsFacts.
Import MemoryPosts.

Lemma validationResult_nil (body : Body) :
  validationResult body = []
  <-> isLength_min 3 (b_title body) = true /\ isLength_min 10 (b_content body) = true.
Proof.
  unfold validationResult.
  destruct (isLength_min 3 (b_title body)), (isLength_min 10 (b_content body));
    simpl; split; try discriminate; try (intros [? ?]; discriminate); auto.
Qed.

Lemma create_unfold (posts : list Post) (now at_ : Z) (body : Body) :
  create posts now at_ body =
    if isLength_min 3 (b_title body) && isLength_min 10 (b_content body)
    then
      let post :=
        mkPost (JwtModel.dec now) (default EmptyString (b_title body))
          (default EmptyString (b_content body)) "testuser" at_ in
      (posts ++ [post], Created post)
    else (posts, Invalid (validationResult body)).
Proof.
  unfold create, validationResult.
  destruct (isLength_min 3 (b_title body)), (isLength_min 10 (b_content body)); reflexivity.
Qed.

Lemma dec_injective (a b : Z) : JwtModel.dec a = JwtModel.dec b -> a = b.
Proof.
  intros H. apply (f_equal JwtModel.undec) in H.
  rewrite !JwtModelFacts.undec_dec in H. now injection H.
Qed.

End MemoryPostsFacts.

(** X24. Creating a post in the in-memory router: the request is refused
    with 400, and the array left as it was, exactly when the title has fewer
    than 3 or the content fewer than 10 characters (a missing field counts
    as empty); otherwise the answer is 201 and exactly one post is appended,
    with the given title and content, the author "testuser" and the clock
    reading as id. So every post ever stored is well formed. *)
Theorem create_post_outcomes (posts : list MemoryPosts.Post) (now at_ : Z)
    (body : MemoryPosts.Body) :
  let '(posts', response) := MemoryPosts.create posts now at_ body in
  (MemoryPosts.status response = 400
   <-> (String.length (default EmptyString (MemoryPosts.b_title body)) < 3
        \/ String.length (default EmptyString (MemoryPosts.b_content body)) < 10)%nat)
  /\ (MemoryPosts.status response = 400 -> posts' = posts)
  /\ (MemoryPosts.status response <> 400 ->
      exists post : MemoryPosts.Post,
        response = MemoryPosts.Created post
        /\ posts' = posts ++ [post]
        /\ MemoryPosts.b_title body = Some (MemoryPosts.title post)
        /\ MemoryPosts.b_content body = Some (MemoryPosts.content post)
        /\ MemoryPosts.id post = JwtModel.dec now
        /\ MemoryPosts.well_formed post)
  /\ (Forall MemoryPosts.well_formed posts -> Forall MemoryPosts.well_formed posts').
Proof.
  rewrite MemoryPostsFacts.create_unfold. unfold MemoryPosts.isLength_min.
  destruct (Nat.leb_spec 3 (String.length (default EmptyString (MemoryPosts.b_title body))))
    as [Ht|Ht];
    destruct (Nat.leb_spec 10 (String.length (default EmptyString (MemoryPosts.b_content body))))
      as [Hc|Hc]; cbn [andb MemoryPosts.status].
  - split; [split; [discriminate | lia]|]. split; [discriminate|]. split.
    + intros _. eexists. split; [reflexivity|]. split; [reflexivity|].
      cbn [MemoryPosts.title MemoryPosts.content MemoryPosts.id].
      destruct (MemoryPosts.b_title body) as [t|]; [|simpl in Ht; lia].
      destruct (MemoryPosts.b_content body) as [c|]; [|simpl in Hc; lia].
      repeat split; assumption.
    + intros Hall. apply Forall_app. split; [exact Hall|].
      constructor; [|constructor]. repeat split; assumption.
  - split; [split; [intros _; now right | reflexivity]|].
    split; [reflexivity|]. split; [intros H; now contradiction H | auto].
  - split; [split; [intros _; now left | reflexivity]|].
    split; [reflexivity|]. split; [intros H; now contradiction H | auto].
  - split; [split; [intros _; now left | reflexivity]|].
    split; [reflexivity|]. split; [intros H; now contradiction H | auto].
Qed.

(** Creating a post with a short title, and with valid fields. *)
Lemma create_post_outcomes_witness :
  MemoryPosts.create [] 1700000000000 1700000000001
    (MemoryPosts.mkBody (Some "ab") (Some "long enough text"))
  = ([], MemoryPosts.Invalid [MemoryPosts.msg_title])
  /\ exists post : MemoryPosts.Post,
       MemoryPosts.create [] 1700000000000 1700000000001
         (MemoryPosts.mkBody (Some "Title") (Some "long enough text"))
       = ([post], MemoryPosts.Created post)
       /\ MemoryPosts.id post = "1700000000000".
Proof.
  split.
  - pose proof (create_post_outcomes [] 1700000000000 1700000000001
                  (MemoryPosts.mkBody (Some "ab") (Some "long enough text"))) as H.
    destruct (MemoryPosts.create [] 1700000000000 1700000000001
                (MemoryPosts.mkBody (Some "ab") (Some "long enough text")))
      as [posts' response] eqn:E.
    destruct H as (_ & Hsame & _).
    injection E as <- <-. reflexivity.
  - pose proof (create_post_outcomes [] 1700000000000 1700000000001
                  (MemoryPosts.mkBody (Some "Title") (Some "long enough text"))) as H.
    destruct (MemoryPosts.create [] 1700000000000 1700000000001
                (MemoryPosts.mkBody (Some "Title") (Some "long enough text")))
      as [posts' response] eqn:E.
    destruct H as (_ & _ & Hok & _).
    injection E as <- <-.
    destruct (Hok ltac:(discriminate)) as (post & Hr & Hp & _ & _ & Hid & _).
    exists post. split; [now rewrite <- Hr, Hp | exact Hid].
Defined.

Module RetrievalFacts.
Import MemoryPosts.

Lemma find_app_first {A : Type} (f : A -> bool) (l l' : list A) :
  find f (l ++ l') = match find f l with
                     | Some x => Some x
                     | None => find f l'
                     end.
Proof.
  induction l as [|a l IH]; [reflexivity|]. simpl. destruct (f a); [reflexivity | exact IH].
Qed.

Lemma get_one_app (posts : list Post) (post : Post) (wanted : string) :
  snd (get_one (posts ++ [post]) wanted) =
    match snd (get_one posts wanted) with
    | Found p => Found p
    | _ => if String.eqb (id post) wanted then Found post else Missing
    end.
Proof.
  unfold get_one. rewrite find_app_first.
  destruct (find (fun p => String.eqb (id p) wanted) posts); [reflexivity|].
  simpl. destruct (String.eqb (id post) wanted); reflexivity.
Qed.

Lemma get_one_found (posts : list Post) (wanted : string) (p : Post) :
  snd (get_one posts wanted) = Found p -> In p posts /\ id p = wanted.
Proof.
  unfold get_one.
  destruct (find (fun p => String.eqb (id p) wanted) posts) as [q|] eqn:E; [|discriminate].
  intros [= <-]. apply find_some in E as [Hin Heq]. split; [exact Hin|].
  now apply String.eqb_eq.
Qed.

End RetrievalFacts.

(** X25. Retrieval after a successful create: the array is never changed
    by a read; every id that resolved before still resolves to the same
    post; an id that did not resolve now resolves exactly when it is the
    text of the clock reading, and then to the new post. Hence the new post
    can be fetched by its id if and only if no earlier post has that id
    (two posts created in the same millisecond share an id, and the second
    is shadowed by the first). *)
Theorem get_post_after_create (posts : list MemoryPosts.Post) (now at_ : Z)
    (body : MemoryPosts.Body) (post : MemoryPosts.Post) (posts' : list MemoryPosts.Post) :
  MemoryPosts.create posts now at_ body = (posts', MemoryPosts.Created post) ->
  (forall wanted : string, fst (MemoryPosts.get_one posts' wanted) = posts')
  /\ (forall (wanted : string) (p : MemoryPosts.Post),
        snd (MemoryPosts.get_one posts wanted) = MemoryPosts.Found p ->
        snd (MemoryPosts.get_one posts' wanted) = MemoryPosts.Found p)
  /\ (forall wanted : string,
        snd (MemoryPosts.get_one posts wanted) = MemoryPosts.Missing ->
        snd (MemoryPosts.get_one posts' wanted)
        = if String.eqb wanted (JwtModel.dec now)
          then MemoryPosts.Found post else MemoryPosts.Missing)
  /\ (snd (MemoryPosts.get_one posts' (JwtModel.dec now)) = MemoryPosts.Found post
      <-> (snd (MemoryPosts.get_one posts (JwtModel.dec now)) = MemoryPosts.Missing
           \/ snd (MemoryPosts.get_one posts (JwtModel.dec now)) = MemoryPosts.Found post)).
Proof.
  rewrite MemoryPostsFacts.create_unfold.
  destruct (MemoryPosts.isLength_min 3 (MemoryPosts.b_title body)
            && MemoryPosts.isLength_min 10 (MemoryPosts.b_content body)); [|discriminate].
  cbv zeta. intros [= <- <-].
  set (post := MemoryPosts.mkPost _ _ _ _ _).
  assert (Hid : MemoryPosts.id post = JwtModel.dec now) by reflexivity.
  split; [|split; [|split]].
  - intros wanted. unfold MemoryPosts.get_one.
    now destruct (find _ _).
  - intros wanted p Hp. rewrite RetrievalFacts.get_one_app, Hp. reflexivity.
  - intros wanted Hm. rewrite RetrievalFacts.get_one_app, Hm, Hid.
    rewrite String.eqb_sym. reflexivity.
  - rewrite RetrievalFacts.get_one_app, Hid, String.eqb_refl.
    destruct (snd (MemoryPosts.get_one posts (JwtModel.dec now))) as [| | |p|] eqn:E.
    + exfalso. unfold MemoryPosts.get_one in E. destruct (find _ _) in E; discriminate.
    + exfalso. unfold MemoryPosts.get_one in E. destruct (find _ _) in E; discriminate.
    + exfalso. unfold MemoryPosts.get_one in E. destruct (find _ _) in E; discriminate.
    + split; [intros H; now right | intros [H|H]; [discriminate | exact H]].
    + split; [intros _; now left | intros _; reflexivity].
Qed.

(** Two posts created in the same millisecond: the id resolves to the
    first one. *)
Lemma get_post_after_create_witness :
  let first := MemoryPosts.mkPost "1700000000000" "First" "long enough text"
                 "testuser" 1700000000000 in
  let second := MemoryPosts.mkPost "1700000000000" "Second" "another long text"
                  "testuser" 1700000000000 in
  snd (MemoryPosts.get_one [first; second] "1700000000000") = MemoryPosts.Found first.
Proof.
  intros first second.
  destruct (get_post_after_create [first] 1700000000000 1700000000000
              (MemoryPosts.mkBody (Some "Second") (Some "another long text"))
              second [first; second] eq_refl) as (_ & Hkeep & _).
  apply (Hkeep "1700000000000" first). reflexivity.
Defined.

(* ================================================================== *)
(** * The form component's validation (src/unnamed/part_002)           *)
(* ================================================================== *)

Module Form.

(** A field's [validation] object. An absent rule is [None] (or [false]);
    the pattern is given by its [test], the custom rule by its result,
    where [None] is [null]/[undefined]. *)
Record Rules := mkRules {
  required : bool;
  minLength : option Z;
  maxLength : option Z;
  pattern : option (string -> bool);
  errorMessage : option string;
  custom : option (option string -> option string)
}.

(** ToBoolean of a number that may be absent *)
Definition truthy_num (n : option Z) : bool :=
  match n with
  | Some k => negb (k =? 0)
  | None => false
  end.

(** [value.length], which throws on [undefined] *)
Definition length_of (value : option string) : Result Z :=
  match value with
  | Some s => Ok (Z.of_nat (String.length s))
  | None => Throw (mkError "TypeError" "Cannot read properties of undefined (reading 'length')")
  end.

(** ToString of the value, as [RegExp.prototype.test] applies it *)
Definition text_of (value : option string) : string :=
  match value with
  | Some s => s
  | None => "undefined"
  end.

Definition validateField (name : string) (value : option string)
    (validation : option Rules) : Result (option string) :=
  match validation with
  | None => mret None
  | Some v =>
      if required v && negb (truthy_str value) then mret (Some (name +:+ " is required"))
      else
        short ← (match minLength v with
                 | Some n => if truthy_num (minLength v)
                             then len ← length_of value; mret (len <? n)
                             else mret false
                 | None => mret false
                 end);
        if (short : bool) then
          mret (Some (name +:+ " must be at least "
                      +:+ JwtModel.dec (default 0 (minLength v)) +:+ " characters"))
        else
          long ← (match maxLength v with
                  | Some n => if truthy_num (maxLength v)
                              then len ← length_of value; mret (len >? n)
                              else mret false
                  | None => mret false
                  end);
          if (long : bool) then
            mret (Some (name +:+ " must be no more than "
                        +:+ JwtModel.dec (default 0 (maxLength v)) +:+ " characters"))
          else
            match pattern v with
            | Some test =>
                if negb (test (text_of value))
                then mret (Some (AuthUtils.str_or (errorMessage v)
                                   (name +:+ " format is invalid")))
                else match custom v with
                     | Some f => mret (f value)
                     | None => mret None
                     end
            | None =>
                match custom v with
                | Some f => mret (f value)
                | None => mret None
                end
            end
  end.

Record Field := mkField { name : string; validation : option Rules }.

(** [fields.forEach(...)] of [validateForm]: the errors collected so far
    are threaded through; a throwing field aborts the loop. *)
Fixpoint collect (formData : gmap string string) (fields : list Field)
    (newErrors : gmap string string) : Result (gmap string string) :=
  match fields with
  | [] => mret newErrors
  | field :: rest =>
      let value := formData !! name field in
      error ← validateField (name field) value (validation field);
      collect formData rest
        (match error with
         | Some e => if truthy_str error then <[name field := e]> newErrors else newErrors
         | None => newErrors
         end)
  end.

(** [validateForm]: the new [errors] state and the returned flag
    [Object.keys(newErrors).length === 0]. *)
Definition validateForm (formData : gmap string string) (fields : list Field)
  : Result (gmap string string * bool) :=
  newErrors ← collect formData fields ∅;
  mret (newErrors, Nat.eqb (size newErrors) 0).

End Form.

Module FormFacts.
Import Form.

(** The field reports nothing: [null], [undefined] or the empty text. *)
Definition passes (formData : gmap string string) (field : Field) : Prop :=
  exists e : option string,
    validateField (name field) (formData !! name field) (validation field) = Ok e
    /\ truthy_str e = false.

Definition throws (formData : gmap string string) (field : Field) : Prop :=
  exists e : JsError,
    validateField (name field) (formData !! name field) (validation field) = Throw e.

(** The update of [newErrors] for one field. *)
Definition record (field : Field) (error : option string) (acc : gmap string string)
  : gmap string string :=
  match error with
  | Some e => if truthy_str error then <[name field := e]> acc else acc
  | None => acc
  end.

Lemma record_empty (field : Field) (error : option string) (acc : gmap string string) :
  record field error acc = ∅ <-> acc = ∅ /\ truthy_str error = false.
Proof.
  unfold record. destruct error as [e|]; [|now split; [intros ->|intros [-> _]]].
  destruct (truthy_str (Some e)).
  - split; [intros H; now apply insert_non_empty in H | intros [_ H]; discriminate].
  - split; [intros ->; now split | now intros [-> _]].
Qed.

Lemma collect_empty (formData : gmap string string) (fields : list Field)
    (acc errs : gmap string string) :
  collect formData fields acc = Ok errs ->
  (errs = ∅ <-> acc = ∅ /\ Forall (passes formData) fields).
Proof.
  revert acc. induction fields as [|field rest IH]; intros acc; cbn [collect].
  - intros [= <-]. split; [intros ->; split; [reflexivity | constructor] | now intros [-> _]].
  - destruct (validateField (name field) (formData !! name field) (validation field))
      as [error|e] eqn:E; [|discriminate].
    cbn [mbind Result_bind]. fold (record field error acc). intros H.
    rewrite (IH _ H), record_empty. split.
    + intros [[Hacc Hf] Hrest]. split; [exact Hacc|].
      constructor; [|exact Hrest]. exists error. now split.
    + intros [Hacc Hall]. inversion Hall as [|? ? (e' & He' & Hf) Hrest]; subst.
      rewrite E in He'. injection He' as <-. now repeat split.
Qed.

Lemma collect_lookup (formData : gmap string string) (fields : list Field)
    (acc errs : gmap string string) :
  collect formData fields acc = Ok errs ->
  forall k e : string,
    errs !! k = Some e ->
    acc !! k = Some e
    \/ (e <> EmptyString
        /\ exists field : Field,
             In field fields /\ name field = k
             /\ validateField k (formData !! k) (validation field) = Ok (Some e)).
Proof.
  revert acc. induction fields as [|field rest IH]; intros acc; cbn [collect].
  - intros [= <-] k e Hk. now left.
  - destruct (validateField (name field) (formData !! name field) (validation field))
      as [error|e0] eqn:E; [|discriminate].
    cbn [mbind Result_bind]. fold (record field error acc). intros H k e Hk.
    destruct (IH _ H k e Hk) as [Hacc|(Hne & f & Hin & Hname & Hf)].
    + unfold record in Hacc. destruct error as [msg|]; [|now left].
      destruct (truthy_str (Some msg)) eqn:Ht; [|now left].
      destruct (decide (name field = k)) as [<-|Hneq].
      * rewrite lookup_insert_eq in Hacc. injection Hacc as ->. right. split.
        -- cbn [truthy_str] in Ht. rewrite negb_true_iff in Ht. now apply String.eqb_neq.
        -- exists field. split; [now left|]. split; [reflexivity | exact E].
      * rewrite lookup_insert_ne in Hacc by exact Hneq. now left.
    + right. split; [exact Hne|]. exists f. split; [now right|]. now split.
Qed.

Lemma collect_throws (formData : gmap string string) (fields : list Field)
    (acc : gmap string string) :
  (exists e, collect formData fields acc = Throw e) <-> Exists (throws formData) fields.
Proof.
  revert acc. induction fields as [|field rest IH]; intros acc; cbn [collect].
  - split; [intros [e H]; discriminate | intros H; inversion H].
  - destruct (validateField (name field) (formData !! name field) (validation field))
      as [error|e] eqn:E; cbn [mbind Result_bind].
    + rewrite IH. split; [intros H; now apply Exists_cons_tl|].
      intros H. inversion H as [? ? (e' & He')|]; subst; [|assumption].
      rewrite E in He'. discriminate.
    + split; [|eauto]. intros _. apply Exists_cons_hd. now exists e.
Qed.

(** The function on a present value, as one chain of tests. *)
Definition too_short (v : Rules) (s : string) : bool :=
  truthy_num (minLength v) && (Z.of_nat (String.length s) <? default 0 (minLength v)).

Definition too_long (v : Rules) (s : string) : bool :=
  truthy_num (maxLength v) && (Z.of_nat (String.length s) >? default 0 (maxLength v)).

Definition mismatch (v : Rules) (text : string) : bool :=
  match pattern v with
  | Some test => negb (test text)
  | None => false
  end.

Definition custom_result (v : Rules) (value : option string) : option string :=
  match custom v with
  | Some f => f value
  | None => None
  end.

Lemma validateField_present (field : string) (s : string) (v : Rules) :
  validateField field (Some s) (Some v) =
    Ok (if required v && negb (truthy_str (Some s)) then Some (field +:+ " is required")
        else if too_short v s then
          Some (field +:+ " must be at least "
                +:+ JwtModel.dec (default 0 (minLength v)) +:+ " characters")
        else if too_long v s then
          Some (field +:+ " must be no more than "
                +:+ JwtModel.dec (default 0 (maxLength v)) +:+ " characters")
        else if mismatch v s then
          Some (AuthUtils.str_or (errorMessage v) (field +:+ " format is invalid"))
        else custom_result v (Some s)).
Proof.
  unfold validateField, too_short, too_long, mismatch, custom_result.
  destruct (required v && negb (truthy_str (Some s))); [reflexivity|].
  cbn [length_of text_of].
  destruct (minLength v) as [mn|]; cbn [truthy_num default from_option id].
  - destruct (negb (mn =? 0)); cbn [mbind Result_bind mret Result_ret andb].
    + destruct (Z.of_nat (String.length s) <? mn); [reflexivity|].
      destruct (maxLength v) as [mx|]; cbn [truthy_num default from_option id].
      * destruct (negb (mx =? 0)); cbn [mbind Result_bind mret Result_ret andb];
          [destruct (Z.of_nat (String.length s) >? mx); [reflexivity|]|];
          destruct (pattern v) as [t|]; try destruct (negb (t s));
          destruct (custom v); reflexivity.
      * cbn [mbind Result_bind mret Result_ret andb].
        destruct (pattern v) as [t|]; try destruct (negb (t s));
          destruct (custom v); reflexivity.
    + destruct (maxLength v) as [mx|]; cbn [truthy_num default from_option id].
      * destruct (negb (mx =? 0)); cbn [mbind Result_bind mret Result_ret andb];
          [destruct (Z.of_nat (String.length s) >? mx); [reflexivity|]|];
          destruct (pattern v) as [t|]; try destruct (negb (t s));
          destruct (custom v); reflexivity.
      * cbn [mbind Result_bind mret Result_ret andb].
        destruct (pattern v) as [t|]; try destruct (negb (t s));
          destruct (custom v); reflexivity.
  - cbn [mbind Result_bind mret Result_ret andb].
    destruct (maxLength v) as [mx|]; cbn [truthy_num default from_option id].
    + destruct (negb (mx =? 0)); cbn [mbind Result_bind mret Result_ret andb];
        [destruct (Z.of_nat (String.length s) >? mx); [reflexivity|]|];
        destruct (pattern v) as [t|]; try destruct (negb (t s));
        destruct (custom v); reflexivity.
    + cbn [mbind Result_bind mret Result_ret andb].
      destruct (pattern v) as [t|]; try destruct (negb (t s));
        destruct (custom v); reflexivity.
Qed.

Lemma validateField_absent (field : string) (v : Rules) :
  validateField field None (Some v) =
    if required v then Ok (Some (field +:+ " is required"))
    else if truthy_num (minLength v) || truthy_num (maxLength v)
    then Throw (mkError "TypeError" "Cannot read properties of undefined (reading 'length')")
    else Ok (if mismatch v "undefined"
             then Some (AuthUtils.str_or (errorMessage v) (field +:+ " format is invalid"))
             else custom_result v None).
Proof.
  unfold validateField, mismatch, custom_result.
  destruct (required v); [reflexivity|]. cbn [andb length_of text_of].
  destruct (minLength v) as [mn|]; cbn [truthy_num].
  - destruct (negb (mn =? 0)); cbn [mbind Result_bind mret Result_ret orb]; [reflexivity|].
    destruct (maxLength v) as [mx|]; cbn [truthy_num].
    + destruct (negb (mx =? 0)); cbn [mbind Result_bind mret Result_ret]; [reflexivity|].
      destruct (pattern v) as [t|]; try destruct (negb (t "undefined"));
        destruct (custom v); reflexivity.
    + cbn [mbind Result_bind mret Result_ret].
      destruct (pattern v) as [t|]; try destruct (negb (t "undefined"));
        destruct (custom v); reflexivity.
  - cbn [mbind Result_bind mret Result_ret orb].
    destruct (maxLength v) as [mx|]; cbn [truthy_num].
    + destruct (negb (mx =? 0)); cbn [mbind Result_bind mret Result_ret]; [reflexivity|].
      destruct (pattern v) as [t|]; try destruct (negb (t "undefined"));
        destruct (custom v); reflexivity.
    + cbn [mbind Result_bind mret Result_ret].
      destruct (pattern v) as [t|]; try destruct (negb (t "undefined"));
        destruct (custom v); reflexivity.
Qed.

Lemma too_short_false (v : Rules) (s : string) :
  too_short v s = false
  <-> forall n : Z, minLength v = Some n -> n <> 0 -> n <= Z.of_nat (String.length s).
Proof.
  unfold too_short, truthy_num. destruct (minLength v) as [mn|]; cbn [default from_option id].
  - destruct (Z.eqb_spec mn 0) as [->|Hne]; cbn [negb andb].
    + split; [intros _ n [= <-] Hn; now contradiction Hn | reflexivity].
    + rewrite Z.ltb_ge. split; [intros H n [= <-] _; exact H | intros H; now apply H].
  - split; [intros _ n [=] | reflexivity].
Qed.

Lemma too_long_false (v : Rules) (s : string) :
  too_long v s = false
  <-> forall n : Z, maxLength v = Some n -> n <> 0 -> Z.of_nat (String.length s) <= n.
Proof.
  unfold too_long, truthy_num. destruct (maxLength v) as [mx|]; cbn [default from_option id].
  - destruct (Z.eqb_spec mx 0) as [->|Hne]; cbn [negb andb].
    + split; [intros _ n [= <-] Hn; now contradiction Hn | reflexivity].
    + destruct (Z.gtb_spec (Z.of_nat (String.length s)) mx) as [Hgt|Hle].
      * split; [discriminate | intros Hall; specialize (Hall mx eq_refl Hne); lia].
      * split; [intros _ n [= <-] _; exact Hle | reflexivity].
  - split; [intros _ n [=] | reflexivity].
Qed.

Lemma mismatch_false (v : Rules) (s : string) :
  mismatch v s = false
  <-> forall test : string -> bool, pattern v = Some test -> test s = true.
Proof.
  unfold mismatch. destruct (pattern v) as [t|].
  - rewrite negb_false_iff. split; [intros H test [= <-]; exact H | intros H; now apply H].
  - split; [intros _ test [=] | reflexivity].
Qed.

Lemma custom_result_None (v : Rules) (value : option string) :
  custom_result v value = None
  <-> forall f : option string -> option string, custom v = Some f -> f value = None.
Proof.
  unfold custom_result. destruct (custom v) as [f|].
  - split; [intros H g [= <-]; exact H | intros H; now apply H].
  - split; [intros _ f [=] | reflexivity].
Qed.

End FormFacts.

(** X26. [validateField] of the form component: without rules it reports
    nothing; a required field whose value is missing or empty always gets
    "<name> is required", whatever the other rules; the function throws
    exactly when the value is [undefined], the field is not required and a
    length bound is set; and a present value passes (the result is [null])
    exactly when it meets every rule that is set. *)
Theorem validateField_outcomes (name : string) (value : option string) (v : Form.Rules) :
  Form.validateField name value None = Ok None
  /\ (Form.required v = true -> truthy_str value = false ->
      Form.validateField name value (Some v) = Ok (Some (name +:+ " is required")))
  /\ ((exists e : JsError, Form.validateField name value (Some v) = Throw e)
      <-> value = None /\ Form.required v = false
          /\ (Form.truthy_num (Form.minLength v) = true
              \/ Form.truthy_num (Form.maxLength v) = true))
  /\ (forall s : string,
        value = Some s ->
        (Form.required v = true -> s <> EmptyString) ->
        (Form.validateField name value (Some v) = Ok None
         <-> (forall n : Z, Form.minLength v = Some n -> n <> 0 ->
                n <= Z.of_nat (String.length s))
             /\ (forall n : Z, Form.maxLength v = Some n -> n <> 0 ->
                   Z.of_nat (String.length s) <= n)
             /\ (forall test : string -> bool, Form.pattern v = Some test -> test s = true)
             /\ (forall f : option string -> option string,
                   Form.custom v = Some f -> f (Some s) = None))).
Proof.
  split; [reflexivity|]. split; [|split].
  - intros Hreq Hval. unfold Form.validateField. now rewrite Hreq, Hval.
  - destruct value as [s|].
    + rewrite FormFacts.validateField_present.
      split; [intros [e He]; discriminate He | intros (Hn & _); discriminate Hn].
    + rewrite FormFacts.validateField_absent. destruct (Form.required v).
      * split; [intros [e He]; discriminate He | intros (_ & Hn & _); discriminate Hn].
      * destruct (Form.truthy_num (Form.minLength v) || Form.truthy_num (Form.maxLength v))
          eqn:E.
        -- apply orb_true_iff in E. split; [intros _; now repeat split | eauto].
        -- apply orb_false_iff in E as [E1 E2]. rewrite E1, E2.
           split; [intros [e He]; discriminate He|].
           intros (_ & _ & [Hn|Hn]); discriminate Hn.
  - intros s -> Hreq.
    assert (Hgate : Form.required v && negb (truthy_str (Some s)) = false).
    { destruct (Form.required v); [|reflexivity]. cbn [truthy_str andb].
      rewrite negb_involutive. apply String.eqb_neq. now apply Hreq. }
    rewrite FormFacts.validateField_present, Hgate.
    rewrite <- FormFacts.too_short_false, <- FormFacts.too_long_false,
      <- FormFacts.mismatch_false, <- FormFacts.custom_result_None.
    destruct (FormFacts.too_short v s); [split; [discriminate | intros (H & _); discriminate H]|].
    destruct (FormFacts.too_long v s);
      [split; [discriminate | intros (_ & H & _); discriminate H]|].
    destruct (FormFacts.mismatch v s);
      [split; [discriminate | intros (_ & _ & H & _); discriminate H]|].
    split; [intros [= H]; now repeat split | intros (_ & _ & _ & H); now rewrite H].
Qed.

Module FormExamples.
Import Form.

(** A required field of 3 to 30 characters. *)
Definition username_rules : Rules := mkRules true (Some 3) (Some 30) None None None.

(** An optional field of at most 200 characters. *)
Definition bio_rules : Rules := mkRules false None (Some 200) None None None.

Definition signup_fields : list Field :=
  [mkField "username" (Some username_rules); mkField "nickname" None].

End FormExamples.

(** [validateField] for a missing required value, a missing optional value
    with a length bound, and a present value that meets its rules. *)
Lemma validateField_outcomes_witness :
  Form.validateField "username" None (Some FormExamples.username_rules)
  = Ok (Some ("username" +:+ " is required"))
  /\ (exists e : JsError,
        Form.validateField "bio" None (Some FormExamples.bio_rules) = Throw e)
  /\ Form.validateField "username" (Some "alice") (Some FormExamples.username_rules)
     = Ok None.
Proof.
  split; [|split].
  - apply (validateField_outcomes "username" None FormExamples.username_rules); reflexivity.
  - apply (validateField_outcomes "bio" None FormExamples.bio_rules).
    split; [reflexivity|]. split; [reflexivity|]. right. reflexivity.
  - apply (validateField_outcomes "username" (Some "alice") FormExamples.username_rules
             ) with (s := "alice"); [reflexivity | discriminate |].
    split; [intros n [= <-] _; simpl; lia|].
    split; [intros n [= <-] _; simpl; lia|].
    split; [intros test [=] | intros f [=]].
Defined.

(** X27. [validateForm] returns true exactly when the new [errors] object
    is empty, which is exactly when every field reports nothing; every
    recorded error is the non-empty message of a field of that name; and
    the function throws exactly when some field's [validateField] throws. *)
Theorem validateForm_outcomes (formData : gmap string string) (fields : list Form.Field) :
  (forall (newErrors : gmap string string) (ok : bool),
      Form.validateForm formData fields = Ok (newErrors, ok) ->
      (ok = true <-> newErrors = ∅)
      /\ (ok = true <-> Forall (FormFacts.passes formData) fields)
      /\ (forall k e : string,
            newErrors !! k = Some e ->
            e <> EmptyString
            /\ exists field : Form.Field,
                 In field fields /\ Form.name field = k
                 /\ Form.validateField k (formData !! k) (Form.validation field)
                    = Ok (Some e)))
  /\ ((exists e : JsError, Form.validateForm formData fields = Throw e)
      <-> Exists (FormFacts.throws formData) fields).
Proof.
  unfold Form.validateForm. split.
  - intros newErrors ok H.
    destruct (Form.collect formData fields ∅) as [errs|] eqn:E; [|discriminate].
    cbn [mbind Result_bind mret Result_ret] in H. injection H as <- <-.
    assert (Hsize : Nat.eqb (size errs) 0 = true <-> errs = ∅).
    { rewrite Nat.eqb_eq. apply map_size_empty_iff. }
    split; [exact Hsize|]. split.
    + rewrite Hsize, (FormFacts.collect_empty formData fields ∅ errs E).
      split; [now intros [_ ?] | now split].
    + intros k e Hk.
      destruct (FormFacts.collect_lookup formData fields ∅ errs E k e Hk) as [Hacc|Hfield];
        [now rewrite lookup_empty in Hacc | exact Hfield].
  - rewrite <- (FormFacts.collect_throws formData fields ∅).
    destruct (Form.collect formData fields ∅) as [errs|e]; cbn [mbind Result_bind mret Result_ret].
    + split; intros [e He]; discriminate He.
    + split; intros _; eauto.
Qed.

(** [validateForm] on a sign-up form with a valid and with a missing
    username. *)
Lemma validateForm_outcomes_witness :
  (true = true <-> (∅ : gmap string string) = ∅)
  /\ ("username is required" <> EmptyString
      /\ exists field : Form.Field,
           In field FormExamples.signup_fields /\ Form.name field = "username"
           /\ Form.validateField "username" ((∅ : gmap string string) !! "username")
                (Form.validation field)
              = Ok (Some "username is required")).
Proof.
  split.
  - destruct (validateForm_outcomes {[ "username" := "alice" ]} FormExamples.signup_fields)
      as (Hok & _).
    destruct (Hok ∅ true) as (Hempty & _); [vm_compute; reflexivity | exact Hempty].
  - destruct (validateForm_outcomes ∅ FormExamples.signup_fields) as (Hok & _).
    destruct (Hok {[ "username" := "username is required" ]} false) as (_ & _ & Hrec);
      [vm_compute; reflexivity|].
    apply (Hrec "username" "username is required"). reflexivity.
Defined.

(* ================================================================== *)
(** * Deactivating and activating accounts: server/src/routes/users.js *)
(* ================================================================== *)

(** The routes [POST /api/users/:id/deactivate] and [.../activate], with
    their middleware [authenticate, requireAdmin] and the wrapper
    [asyncHandler]. The user collection is a parameter: a state [Store]
    with [User.findById] and [user.save()]. *)
Module UserRoutes.

Section WithStore.

Variable J : Jwt.Lib.
Variable env : AuthUtils.Env.
Variable now : Z.

Variable Store : Type.
(** [User.findById(id)] *)
Variable findById : Store -> string -> Result (option User.Doc).
(** [user.save()]: the new state of the collection *)
Variable save : Store -> User.Doc -> Result Store.
(** the stack the engine attaches to a new error *)
Variable stack : string.

(** What the route does with the response: [res.json({ message })], or
    the error it hands to [next], which reaches the global error handler. *)
Inductive Reply : Type :=
| Json (status : Z) (message : string)
| Forward (err : ErrorHandler.Err).

(** [user.isActive = b] *)
Definition set_isActive (u : User.Doc) (b : bool) : User.Doc :=
  User.mkDoc (User._id u) (User.email u) (User.username u) (User.role u) b
    (User.password u).

(** [asyncHandler(fn)]: a fulfilled handler has sent its response, a
    rejection goes to [next]. *)
Inductive Settled (A : Type) : Type :=
| Fulfilled (a : A)
| Rejected (err : ErrorHandler.Err).
Arguments Fulfilled {A} a.
Arguments Rejected {A} err.

Definition asyncHandler (outcome : Settled (Z * string)) : Reply :=
  match outcome with
  | Fulfilled (status, message) => Json status message
  | Rejected err => Forward err
  end.

(** [await] on a store operation inside the handler *)
Definition awaited {A B : Type} (r : Result A) (k : A -> Store * Settled B)
    (st : Store) : Store * Settled B :=
  match r with
  | Ok a => k a
  | Throw e => (st, Rejected (ErrorHandler.of_JsError e))
  end.

(** The handler of [POST /:id/deactivate] *)
Definition deactivate_handler (st : Store) (req : Middleware.Request) (id : string)
  : Store * Settled (Z * string) :=
  match Middleware.user req with
  | None =>
      (st, Rejected (ErrorHandler.of_JsError
                       (ErrorHandler.TypeError "Cannot read properties of undefined")))
  | Some me =>
      if String.eqb (User.toString (User._id me)) id
      then (st, Rejected (ErrorHandler.AppError "Cannot deactivate your own account"
                            (Some 400) stack))
      else
        awaited (findById st id) (fun found =>
          match found with
          | None => (st, Rejected (ErrorHandler.AppError "User not found" (Some 404) stack))
          | Some user =>
              let user := set_isActive user false in
              awaited (save st user) (fun st' =>
                (st', Fulfilled (200, "User deactivated successfully"))) st
          end) st
  end.

(** The handler of [POST /:id/activate] *)
Definition activate_handler (st : Store) (req : Middleware.Request) (id : string)
  : Store * Settled (Z * string) :=
  awaited (findById st id) (fun found =>
    match found with
    | None => (st, Rejected (ErrorHandler.AppError "User not found" (Some 404) stack))
    | Some user =>
        let user := set_isActive user true in
        awaited (save st user) (fun st' =>
          (st', Fulfilled (200, "User activated successfully"))) st
    end) st.

(** A route: [authenticate, requireAdmin, asyncHandler(handler)] *)
Definition admin_route
    (handler : Store -> Middleware.Request -> string -> Store * Settled (Z * string))
    (st : Store) (req : Middleware.Request) (id : string) : Store * Reply :=
  match AccessFacts.chain
          (Middleware.authenticate (AuthUtils.getCurrentUser J env (findById st) now))
          Middleware.requireAdmin req with
  | Middleware.Respond status error => (st, Json status error)
  | Middleware.Next req' =>
      let '(st', outcome) := handler st req' id in (st', asyncHandler outcome)
  end.

Definition deactivate_route := admin_route deactivate_handler.
Definition activate_route := admin_route activate_handler.

(** What the store is assumed to do: when a lookup has found a document
    and the document is saved with its [isActive] set, that lookup finds the
    saved document from then on. Nothing is assumed about which texts find
    a document: Mongoose casts the text to an ObjectId, so that several
    texts find the same one. *)
Definition read_your_write : Prop :=
  forall (st st' : Store) (id : string) (u : User.Doc) (b : bool),
    findById st id = Ok (Some u) ->
    save st (set_isActive u b) = Ok st' ->
    findById st' id = Ok (Some (set_isActive u b)).

End WithStore.

(** A collection whose lookup casts the id text the way an ObjectId is
    read from 24 hexadecimal digits, without regard to the case of the
    letters; any other text is refused with a CastError. The documents are
    kept in a list and found by the ObjectId of their [_id]. *)
Definition Collection : Type := list User.Doc.

Definition castObjectId (id : string) : option string :=
  if Patterns.isValidObjectId (JsString id) then Some (Slug.toLowerCase id) else None.

Definition key (u : User.Doc) : string :=
  Slug.toLowerCase (User.toString (User._id u)).

Definition has_key (k : string) (u : User.Doc) : bool := String.eqb (key u) k.

Definition coll_findById (st : Collection) (id : string) : Result (option User.Doc) :=
  match castObjectId id with
  | Some k => Ok (List.find (has_key k) st)
  | None => Throw (mkError "CastError" "Cast to ObjectId failed")
  end.

(** [save] writes over the document of the same [_id], or adds a new one. *)
Definition coll_save (st : Collection) (u : User.Doc) : Result Collection :=
  Ok (if existsb (has_key (key u)) st
      then map (fun d => if has_key (key u) d then u else d) st
      else st ++ [u]).

End UserRoutes.

Module UserRoutesFacts.
Import UserRoutes.

Lemma chain_admin (g : string -> Result (option User.Doc)) (req req' : Middleware.Request) :
  AccessFacts.chain (Middleware.authenticate g) Middleware.requireAdmin req
  = Middleware.Next req' ->
  exists me : User.Doc, Middleware.user req' = Some me /\ User.role me = "admin".
Proof.
  unfold AccessFacts.chain.
  destruct (Middleware.authenticate g req) as [|r]; [discriminate|].
  unfold Middleware.requireAdmin, Middleware.authorize.
  destruct (Middleware.user r) as [me|] eqn:Hme; [|discriminate].
  cbn [AuthUtils.role_list existsb]. rewrite orb_false_r.
  destruct (String.eqb_spec (User.role me) "admin") as [Hrole|]; [|discriminate].
  cbn [negb]. intros [= <-]. exists me. now split.
Qed.

Lemma chain_refusal (g : string -> Result (option User.Doc)) (req : Middleware.Request)
    (status : Z) (error : string) :
  AccessFacts.chain (Middleware.authenticate g) Middleware.requireAdmin req
  = Middleware.Respond status error ->
  status = 401 \/ status = 403.
Proof.
  unfold AccessFacts.chain. rewrite AccessFacts.authenticate_unfold.
  destruct (MiddlewareFacts.bearer req) as [t|]; [|intros [= <- _]; now left].
  destruct (truthy_str (Some t)); [|intros [= <- _]; now left].
  destruct (g t) as [[u|]|e]; try (intros [= <- _]; now left).
  unfold Middleware.requireAdmin, Middleware.authorize.
  cbn [Middleware.user Middleware.set_user].
  destruct (negb _); [intros [= <- _]; now right | discriminate].
Qed.

Lemma deactivate_success (J : Jwt.Lib) (env : AuthUtils.Env) (now : Z)
    (Store : Type) (findById : Store -> string -> Result (option User.Doc))
    (save : Store -> User.Doc -> Result Store) (stack : string)
    (st st' : Store) (req : Middleware.Request) (id : string) :
  read_your_write Store findById save ->
  deactivate_route J env now Store findById save stack st req id
  = (st', Json 200 "User deactivated successfully") ->
  exists target : User.Doc,
    findById st id = Ok (Some target)
    /\ findById st' id = Ok (Some (set_isActive target false)).
Proof.
  intros Hryw. unfold deactivate_route, admin_route.
  destruct (AccessFacts.chain _ _ req) as [status error|req'] eqn:Hchain.
  - intros [= _ -> _]. apply chain_refusal in Hchain. lia.
  - unfold deactivate_handler, awaited.
    destruct (Middleware.user req') as [me|]; [|discriminate].
    destruct (String.eqb (User.toString (User._id me)) id); [discriminate|].
    destruct (findById st id) as [[target|]|e] eqn:Hfind; try discriminate.
    destruct (save st (set_isActive target false)) as [st2|e] eqn:Hsave;
      cbn [asyncHandler]; [|discriminate].
    intros [= <-]. exists target. split; [reflexivity|].
    exact (Hryw st st2 id target false Hfind Hsave).
Qed.

(** In a collection, writing over the documents of a key. *)
Lemma find_after_write (k : string) (u u' : User.Doc) (st : Collection) :
  key u' = k ->
  List.find (has_key k) st = Some u ->
  List.find (has_key k) (map (fun d => if has_key k d then u' else d) st) = Some u'.
Proof.
  intros Hkey. induction st as [|d st IH]; [discriminate|].
  cbn [List.find map]. destruct (has_key k d) eqn:Hd.
  - intros _. unfold has_key at 1. rewrite Hkey, String.eqb_refl. reflexivity.
  - rewrite Hd. exact IH.
Qed.

Lemma coll_read_your_write : read_your_write Collection coll_findById coll_save.
Proof.
  intros st st' id u b. unfold coll_findById, coll_save.
  destruct (castObjectId id) as [k|]; [|discriminate].
  intros [= Hfind] [= <-].
  assert (Hu : has_key k u = true).
  { apply find_some in Hfind. apply Hfind. }
  assert (Hkey : key (set_isActive u b) = k).
  { apply String.eqb_eq. exact Hu. }
  rewrite Hkey.
  assert (Hex : existsb (has_key k) st = true).
  { apply existsb_exists. exists u. split; [|exact Hu].
    apply find_some in Hfind. apply Hfind. }
  rewrite Hex. f_equal. now apply (find_after_write k u).
Qed.

(** A collection with the stored admin and the test user. *)
Definition two_users : Collection := [AdminFacts.admin_doc; TokenFacts.test_user].

End UserRoutesFacts.

(** X28. Deactivating an account: the route changes the collection only
    when it answers 200; it answers 200 only to a resolved admin whose own
    id text differs from the text of [:id], for a document that the store
    finds under [:id]; that document is saved with [isActive] false, every
    lookup that found it finds the saved one from then on, and every token
    that carries the id of such a lookup resolves to [null]. An admin who sends exactly its own id text gets the error
    "Cannot deactivate your own account" with status 400 and the collection
    is left alone. The guard compares texts: whether the document found is
    the admin's own is up to the store, and a store that casts the text to
    an ObjectId finds it under another spelling. (The store is assumed to
    return a document saved with a new [isActive] to the lookups that found
    it.) *)
Theorem deactivate_route_effects (J : Jwt.Lib) (env : AuthUtils.Env) (now : Z)
    (Store : Type) (findById : Store -> string -> Result (option User.Doc))
    (save : Store -> User.Doc -> Result Store) (stack : string)
    (st st' : Store) (req : Middleware.Request) (id : string) (reply : UserRoutes.Reply) :
  UserRoutes.read_your_write Store findById save ->
  UserRoutes.deactivate_route J env now Store findById save stack st req id = (st', reply) ->
  (reply <> UserRoutes.Json 200 "User deactivated successfully" -> st' = st)
  /\ (reply = UserRoutes.Json 200 "User deactivated successfully" ->
      exists (req' : Middleware.Request) (me target : User.Doc),
        AccessFacts.chain
          (Middleware.authenticate (AuthUtils.getCurrentUser J env (findById st) now))
          Middleware.requireAdmin req = Middleware.Next req'
        /\ Middleware.user req' = Some me /\ User.role me = "admin"
        /\ User.toString (User._id me) <> id
        /\ findById st id = Ok (Some target)
        /\ save st (UserRoutes.set_isActive target false) = Ok st'
        /\ forall id' : string,
             findById st id' = Ok (Some target) ->
             findById st' id' = Ok (Some (UserRoutes.set_isActive target false))
             /\ forall (now' : Z) (token : string) (c : Jwt.Claims),
                  AuthUtils.verifyToken J env now' token = Ok c -> Jwt.id c = id' ->
                  AuthUtils.getCurrentUser J env (findById st') now' token = Ok None)
  /\ (forall (req' : Middleware.Request) (me : User.Doc),
        AccessFacts.chain
          (Middleware.authenticate (AuthUtils.getCurrentUser J env (findById st) now))
          Middleware.requireAdmin req = Middleware.Next req' ->
        Middleware.user req' = Some me ->
        User.toString (User._id me) = id ->
        st' = st
        /\ reply = UserRoutes.Forward
                     (ErrorHandler.AppError "Cannot deactivate your own account"
                        (Some 400) stack)
        /\ forall NODE_ENV : option string,
             exists r : ErrorHandler.Response,
               ErrorHandler.errorHandler NODE_ENV
                 (ErrorHandler.AppError "Cannot deactivate your own account" (Some 400) stack)
               = Ok r
               /\ ErrorHandler.r_status r = 400
               /\ ErrorHandler.r_error r = Some "Cannot deactivate your own account").
Proof.
  intros Hryw.
  unfold UserRoutes.deactivate_route, UserRoutes.admin_route.
  destruct (AccessFacts.chain _ _ req) as [status error|req'] eqn:Hchain.
  - intros [= <- <-]. split; [reflexivity|]. split; [|discriminate].
    intros [= -> _]. apply UserRoutesFacts.chain_refusal in Hchain. lia.
  - destruct (UserRoutesFacts.chain_admin _ _ _ Hchain) as (me & Hme & Hrole).
    unfold UserRoutes.deactivate_handler, UserRoutes.awaited. rewrite Hme.
    destruct (String.eqb_spec (User.toString (User._id me)) id) as [Hself|Hother].
    + cbn [UserRoutes.asyncHandler]. intros [= <- <-].
      split; [reflexivity|]. split; [discriminate|].
      intros r' me' [= <-] Hme' _. split; [reflexivity|]. split; [reflexivity|].
      intros NODE_ENV. rewrite ErrorHandlerFacts.errorHandler_unfold. eexists.
      split; [reflexivity|]. split; reflexivity.
    + destruct (findById st id) as [[target|]|e] eqn:Hfind.
      * destruct (save st (UserRoutes.set_isActive target false)) as [st2|e] eqn:Hsave.
        -- cbn [UserRoutes.asyncHandler]. intros [= <- <-].
           split; [intros H; now contradiction H|]. split.
           ++ intros _. exists req', me, target.
              do 6 (split; [first [assumption | reflexivity]|]).
              intros id' Hfound.
              assert (Hafter : findById st2 id'
                               = Ok (Some (UserRoutes.set_isActive target false))).
              { exact (Hryw st st2 id' target false Hfound Hsave). }
              split; [exact Hafter|].
              intros now' token c Hver Hid.
              rewrite LookupFacts.getCurrentUser_unfold, Hver, Hid, Hafter. reflexivity.
           ++ intros r' me' [= <-] Hme' Hself. rewrite Hme in Hme'.
              injection Hme' as <-. contradiction.
        -- cbn [UserRoutes.asyncHandler]. intros [= <- <-].
           split; [reflexivity|]. split; [discriminate|].
           intros r' me' [= <-] Hme' Hself. rewrite Hme in Hme'.
           injection Hme' as <-. contradiction.
      * cbn [UserRoutes.asyncHandler]. intros [= <- <-].
        split; [reflexivity|]. split; [discriminate|].
        intros r' me' [= <-] Hme' Hself. rewrite Hme in Hme'.
        injection Hme' as <-. contradiction.
      * cbn [UserRoutes.asyncHandler]. intros [= <- <-].
        split; [reflexivity|]. split; [discriminate|].
        intros r' me' [= <-] Hme' Hself. rewrite Hme in Hme'.
        injection Hme' as <-. contradiction.
Qed.

Module UserRoutesExamples.
Import UserRoutes.

Definition target_id : string := "507f1f77bcf86cd799439011".

(** The collection after the test user was deactivated. *)
Definition after_deactivation : Collection :=
  [AdminFacts.admin_doc; set_isActive TokenFacts.test_user false].

Lemma deactivation_runs :
  deactivate_route JwtModel.fnv_lib TokenFacts.test_env 1001 Collection
    coll_findById coll_save "at deactivate" UserRoutesFacts.two_users
    AdminFacts.admin_request target_id
  = (after_deactivation, Json 200 "User deactivated successfully").
Proof. vm_compute. reflexivity. Qed.

(** The admin's own id, which its token carries, and the same id with its
    letters in upper case. *)
Definition admin_id : string := "507f1f77bcf86cd799439099".
Definition admin_id_upper : string := "507F1F77BCF86CD799439099".

Definition admin_claims : Jwt.Claims :=
  Jwt.mkClaims admin_id "root@example.com" "root" "admin" 1000 4600.

(** The collection after the admin account was deactivated. *)
Definition admin_deactivated : Collection :=
  [set_isActive AdminFacts.admin_doc false; TokenFacts.test_user].

(** The guard of the route lets the admin's own id pass in upper case, and
    the casting lookup finds the admin's document under it. *)
Lemma own_account_in_upper_case :
  String.eqb (User.toString (User._id AdminFacts.admin_doc)) admin_id_upper = false
  /\ coll_findById UserRoutesFacts.two_users admin_id_upper = Ok (Some AdminFacts.admin_doc)
  /\ deactivate_route JwtModel.fnv_lib TokenFacts.test_env 1001 Collection
       coll_findById coll_save "at deactivate" UserRoutesFacts.two_users
       AdminFacts.admin_request admin_id_upper
     = (admin_deactivated, Json 200 "User deactivated successfully").
Proof. repeat split; vm_compute; reflexivity. Qed.

End UserRoutesExamples.

(** An admin sends its own id in upper case to a collection that casts id
    texts: the route answers 200, and the admin's own token no longer
    resolves. *)
Lemma deactivate_route_effects_witness :
  AuthUtils.getCurrentUser JwtModel.fnv_lib TokenFacts.test_env
    (UserRoutes.coll_findById UserRoutesExamples.admin_deactivated) 2000
    AdminFacts.admin_token
  = Ok None.
Proof.
  destruct UserRoutesExamples.own_account_in_upper_case as (_ & Hfind & Hrun).
  destruct (deactivate_route_effects JwtModel.fnv_lib TokenFacts.test_env 1001
              UserRoutes.Collection UserRoutes.coll_findById UserRoutes.coll_save
              "at deactivate" UserRoutesFacts.two_users UserRoutesExamples.admin_deactivated
              AdminFacts.admin_request UserRoutesExamples.admin_id_upper
              (UserRoutes.Json 200 "User deactivated successfully")
              UserRoutesFacts.coll_read_your_write Hrun) as (_ & Hok & _).
  destruct (Hok eq_refl) as (req' & me & target & _ & _ & _ & _ & Htarget & _ & Hsame).
  rewrite Hfind in Htarget. injection Htarget as <-.
  destruct (Hsame UserRoutesExamples.admin_id) as (_ & Htokens);
    [vm_compute; reflexivity|].
  apply (Htokens 2000 AdminFacts.admin_token UserRoutesExamples.admin_claims).
  - vm_compute. reflexivity.
  - reflexivity.
Defined.

(** X29. Activation undoes deactivation: when an account was deactivated
    through the route and is then activated through the route with the same
    [:id], its stored document is the original one with [isActive] true (the
    original one itself if it was active), and every token that carries that
    id resolves again to that document without its password. (Same
    assumption on the store as for deactivation.) *)
Theorem activate_after_deactivate (J : Jwt.Lib) (env : AuthUtils.Env) (now1 now2 : Z)
    (Store : Type) (findById : Store -> string -> Result (option User.Doc))
    (save : Store -> User.Doc -> Result Store) (stack1 stack2 : string)
    (st st1 st2 : Store) (req1 req2 : Middleware.Request) (id : string) :
  UserRoutes.read_your_write Store findById save ->
  UserRoutes.deactivate_route J env now1 Store findById save stack1 st req1 id
  = (st1, UserRoutes.Json 200 "User deactivated successfully") ->
  UserRoutes.activate_route J env now2 Store findById save stack2 st1 req2 id
  = (st2, UserRoutes.Json 200 "User activated successfully") ->
  exists target : User.Doc,
    findById st id = Ok (Some target)
    /\ findById st2 id = Ok (Some (UserRoutes.set_isActive target true))
    /\ (User.isActive target = true -> findById st2 id = Ok (Some target))
    /\ forall (now' : Z) (token : string) (c : Jwt.Claims),
         AuthUtils.verifyToken J env now' token = Ok c -> Jwt.id c = id ->
         AuthUtils.getCurrentUser J env (findById st2) now' token
         = Ok (Some (User.select_minus_password (UserRoutes.set_isActive target true))).
Proof.
  intros Hryw Hde Hact.
  destruct (UserRoutesFacts.deactivate_success J env now1 Store findById save stack1
              st st1 req1 id Hryw Hde) as (target & Hfind & Hfind1).
  exists target. split; [exact Hfind|].
  assert (Hfind2 : findById st2 id = Ok (Some (UserRoutes.set_isActive target true))).
  { revert Hact. unfold UserRoutes.activate_route, UserRoutes.admin_route.
    destruct (AccessFacts.chain _ _ req2) as [status error|req'] eqn:Hchain.
    - intros [= _ -> _]. apply UserRoutesFacts.chain_refusal in Hchain. lia.
    - unfold UserRoutes.activate_handler, UserRoutes.awaited. rewrite Hfind1.
      change (UserRoutes.set_isActive (UserRoutes.set_isActive target false) true)
        with (UserRoutes.set_isActive target true).
      destruct (save st1 (UserRoutes.set_isActive target true)) as [st3|e] eqn:Hsave;
        cbn [UserRoutes.asyncHandler]; [|discriminate].
      intros [= <-].
      exact (Hryw st1 st3 id (UserRoutes.set_isActive target false) true Hfind1 Hsave). }
  split; [exact Hfind2|]. split.
  - intros Hactive. rewrite Hfind2. do 2 f_equal.
    destruct target. cbn in Hactive. now subst.
  - intros now' token c Hver Hid.
    rewrite LookupFacts.getCurrentUser_unfold, Hver, Hid, Hfind2. reflexivity.
Qed.

(** The test user is deactivated and then activated again: the stored
    document is the original one. *)
Lemma activate_after_deactivate_witness :
  exists target : User.Doc,
    UserRoutes.coll_findById UserRoutesFacts.two_users UserRoutesExamples.target_id
    = Ok (Some target)
    /\ UserRoutes.coll_findById UserRoutesFacts.two_users UserRoutesExamples.target_id
       = Ok (Some (UserRoutes.set_isActive target true)).
Proof.
  destruct (activate_after_deactivate JwtModel.fnv_lib TokenFacts.test_env 1001 1002
              UserRoutes.Collection UserRoutes.coll_findById UserRoutes.coll_save
              "at deactivate" "at activate"
              UserRoutesFacts.two_users UserRoutesExamples.after_deactivation
              UserRoutesFacts.two_users
              AdminFacts.admin_request AdminFacts.admin_request
              UserRoutesExamples.target_id
              UserRoutesFacts.coll_read_your_write
              UserRoutesExamples.deactivation_runs)
    as (target & Hfind & Hfind2 & _).
  - vm_compute. reflexivity.
  - exists target. split; [exact Hfind | exact Hfind2].
Defined.
